(** * Petition API: cache-aside layer, response helpers, validation and
      the petition route handlers.

    A shallow embedding of
      - functions/_shared/utils.ts          (CORS, ETag, KV cache, auth guards)
      - functions/_shared/schemas.ts        (petition validation schemas)
      - functions/_shared/form-data-parser.ts
      - functions/api/petitions.ts          (POST / GET collection handler)
      - functions/api/petitions/[id].ts     (GET / PUT / DELETE handler)

    JavaScript strings are modelled as [string]: one [ascii] per UTF-16 code
    unit, so the model covers the strings whose code units are below 256.
    JavaScript numbers are modelled as [Z]: the model covers integral numbers.
    Asynchronous calls are sequential awaits in the source and are modelled
    as sequential steps of a state-and-exception monad; console output is
    not modelled. *)

From Stdlib Require Import ZArith String Ascii List Lia Bool DecimalString Permutation Sorted.
From Stdlib Require DecimalPos.
From stdpp Require Import base option gmap strings list sorting.

Local Open Scope Z_scope.

(** ** JavaScript primitives *)

Module Js.

(** [ToInt32]: the wrap-around of the bitwise operators. *)
Definition to_int32 (z : Z) : Z := (z + 2 ^ 31) mod 2 ^ 32 - 2 ^ 31.

(** [s.charCodeAt(i)] for the code unit [c]. *)
Definition charCode (c : ascii) : Z := Z.of_N (N_of_ascii c).

Definition fromCharCode (z : Z) : ascii := ascii_of_N (Z.to_N z).

(** [String(n)] / template interpolation of an integral number. *)
Definition number_toString (z : Z) : string := NilZero.string_of_int (Z.to_int z).

Definition digit36 (d : Z) : ascii :=
  if d <? 10 then fromCharCode (48 + d) else fromCharCode (87 + d).

Fixpoint toString36_aux (fuel : nat) (n : Z) (acc : string) : string :=
  match fuel with
  | O => acc
  | S fuel' =>
      let acc' := String (digit36 (n mod 36)) acc in
      if n / 36 =? 0 then acc' else toString36_aux fuel' (n / 36) acc'
  end.

(** [n.toString(36)] for a non-negative integral [n]. *)
Definition toString36 (n : Z) : string :=
  toString36_aux (S (Z.to_nat (Z.log2 n))) n EmptyString.

(** White space and line terminators recognised by [trim] and [parseInt]
    among the code units below 256. *)
Definition is_space (c : ascii) : bool :=
  let n := charCode c in
  ((9 <=? n) && (n <=? 13)) || (n =? 32) || (n =? 160).

Fixpoint trimStart (s : string) : string :=
  match s with
  | String c s' => if is_space c then trimStart s' else s
  | EmptyString => EmptyString
  end.

Fixpoint trimEnd (s : string) : string :=
  match s with
  | String c s' =>
      match trimEnd s' with
      | EmptyString => if is_space c then EmptyString else String c EmptyString
      | t => String c t
      end
  | EmptyString => EmptyString
  end.

Definition trim (s : string) : string := trimEnd (trimStart s).

Definition str_length (s : string) : Z := Z.of_nat (String.length s).

(** [s.startsWith(p)] *)
Definition startsWith (p s : string) : bool := String.prefix p s.

(** [s.includes(sub)] *)
Fixpoint includes (sub s : string) : bool :=
  String.prefix sub s ||
  match s with
  | String _ s' => includes sub s'
  | EmptyString => false
  end.

Definition toLower (c : ascii) : ascii :=
  let n := charCode c in
  if (65 <=? n) && (n <=? 90) then fromCharCode (n + 32) else c.

Fixpoint toLowerCase (s : string) : string :=
  match s with
  | String c s' => String (toLower c) (toLowerCase s')
  | EmptyString => EmptyString
  end.

(** [xs.join(sep)] *)
Fixpoint join (sep : string) (xs : list string) : string :=
  match xs with
  | [] => EmptyString
  | [x] => x
  | x :: rest => x +:+ sep +:+ join sep rest
  end.

Fixpoint has_char (sep : ascii) (s : string) : bool :=
  match s with
  | EmptyString => false
  | String c s' => Ascii.eqb c sep || has_char sep s'
  end.

(** The last segment of [s.split(sep)] for a one-character separator:
    [s.split('.').pop()]. *)
Fixpoint split_last (sep : ascii) (s : string) : string :=
  match s with
  | EmptyString => EmptyString
  | String c s' =>
      if has_char sep s' then split_last sep s'
      else if Ascii.eqb c sep then s' else s
  end.

End Js.

(** ** [parseInt] *)

Module ParseInt.

Definition digit_value (c : ascii) : option Z :=
  let n := Js.charCode c in
  if (48 <=? n) && (n <=? 57) then Some (n - 48)
  else if (97 <=? n) && (n <=? 122) then Some (n - 87)
  else if (65 <=? n) && (n <=? 90) then Some (n - 55)
  else None.

(** The longest prefix of digits of the radix; [None] when there is none. *)
Fixpoint parse_digits (radix : Z) (s : string) (acc : option Z) : option Z :=
  match s with
  | String c s' =>
      match digit_value c with
      | Some d =>
          if d <? radix then parse_digits radix s' (Some (default 0 acc * radix + d))
          else acc
      | None => acc
      end
  | EmptyString => acc
  end.

Definition strip_sign (s : string) : Z * string :=
  match s with
  | String "-" s' => (-1, s')
  | String "+" s' => (1, s')
  | _ => (1, s)
  end.

Definition strip_hex_prefix (s : string) : option string :=
  match s with
  | String "0" (String "x" s') => Some s'
  | String "0" (String "X" s') => Some s'
  | _ => None
  end.

(** [parseInt(s, radix)]; [None] is NaN.  Without a radix the radix is 10,
    or 16 after a [0x] prefix. *)
Definition parseInt (s : string) (radix : option Z) : option Z :=
  let '(sign, body) := strip_sign (Js.trimStart s) in
  let '(r, digits) :=
    match radix, strip_hex_prefix body with
    | None, Some rest => (16, rest)
    | Some 16, Some rest => (16, rest)
    | None, None => (10, body)
    | Some r, _ => (r, body)
    end in
  match parse_digits r digits None with
  | Some v => Some (sign * v)
  | None => None
  end.

(** [isNaN(n)] on the result of [parseInt]. *)
Definition isNaN (n : option Z) : bool :=
  match n with None => true | Some _ => false end.

End ParseInt.

(** ** JSON values, [JSON.stringify] and [JSON.parse] *)

Local Set Warnings "-register-all".

Inductive json : Type :=
  | JNull
  | JBool (b : bool)
  | JNum (z : Z)
  | JStr (s : string)
  | JArr (items : list json)
  | JObj (fields : list (string * json)).

Module JSON.

Definition dquote : ascii := "034"%char.
Definition backslash : ascii := "092"%char.

Definition hex_digit (d : Z) : ascii :=
  if d <? 10 then Js.fromCharCode (48 + d) else Js.fromCharCode (87 + d).

(** The escape of one code unit inside a JSON string literal. *)
Definition escape (c : ascii) : string :=
  let n := Js.charCode c in
  if n =? 34 then String backslash (String dquote EmptyString)
  else if n =? 92 then String backslash (String backslash EmptyString)
  else if n =? 8 then String backslash "b"
  else if n =? 9 then String backslash "t"
  else if n =? 10 then String backslash "n"
  else if n =? 12 then String backslash "f"
  else if n =? 13 then String backslash "r"
  else if n <? 32 then
    String backslash
      (String "u" (String "0" (String "0"
         (String (hex_digit (n / 16)) (String (hex_digit (n mod 16)) EmptyString)))))
  else String c EmptyString.

Fixpoint escape_all (s : string) : string :=
  match s with
  | String c s' => escape c +:+ escape_all s'
  | EmptyString => EmptyString
  end.

Definition quote (s : string) : string :=
  String dquote (escape_all s +:+ String dquote EmptyString).

Fixpoint stringify (j : json) : string :=
  match j with
  | JNull => "null"
  | JBool true => "true"
  | JBool false => "false"
  | JNum z => Js.number_toString z
  | JStr s => quote s
  | JArr items => "[" +:+ Js.join "," (map stringify items) +:+ "]"
  | JObj fields =>
      "{" +:+ Js.join ","
                (map (fun kv => let '(k, v) := kv in quote k +:+ ":" +:+ stringify v)
                     fields) +:+ "}"
  end.

(** *** Parsing *)

Definition is_ws (c : ascii) : bool :=
  let n := Js.charCode c in
  (n =? 32) || (n =? 9) || (n =? 10) || (n =? 13).

Fixpoint skip_ws (s : string) : string :=
  match s with
  | String c s' => if is_ws c then skip_ws s' else s
  | EmptyString => EmptyString
  end.

Definition strip_prefix (p s : string) : option string :=
  if String.prefix p s
  then Some (String.substring (String.length p) (String.length s - String.length p) s)
  else None.

Definition hex_value (c : ascii) : option Z :=
  match ParseInt.digit_value c with
  | Some d => if d <? 16 then Some d else None
  | None => None
  end.

(** The rest of a string literal after its opening quote: the decoded
    contents and the input left after the closing quote. *)
Fixpoint parse_string_body (s : string) : option (string * string) :=
  match s with
  | EmptyString => None
  | String c s' =>
      let n := Js.charCode c in
      if n =? 34 then Some (EmptyString, s')
      else if n =? 92 then
        match s' with
        | String e s'' =>
            let simple (d : ascii) :=
              match parse_string_body s'' with
              | Some (body, rest) => Some (String d body, rest)
              | None => None
              end in
            let m := Js.charCode e in
            if m =? 34 then simple dquote
            else if m =? 92 then simple backslash
            else if m =? 47 then simple "/"%char
            else if m =? 98 then simple (Js.fromCharCode 8)
            else if m =? 102 then simple (Js.fromCharCode 12)
            else if m =? 110 then simple (Js.fromCharCode 10)
            else if m =? 114 then simple (Js.fromCharCode 13)
            else if m =? 116 then simple (Js.fromCharCode 9)
            else if m =? 117 then
              match s'' with
              | String h1 (String h2 (String h3 (String h4 s5))) =>
                  match hex_value h1, hex_value h2, hex_value h3, hex_value h4 with
                  | Some 0, Some 0, Some d3, Some d4 =>
                      match parse_string_body s5 with
                      | Some (body, rest) =>
                          Some (String (Js.fromCharCode (d3 * 16 + d4)) body, rest)
                      | None => None
                      end
                  | _, _, _, _ => None
                  end
              | _ => None
              end
            else None
        | EmptyString => None
        end
      else if n <? 32 then None
      else
        match parse_string_body s' with
        | Some (body, rest) => Some (String c body, rest)
        | None => None
        end
  end.

Definition is_digit (c : ascii) : bool :=
  let n := Js.charCode c in (48 <=? n) && (n <=? 57).

Fixpoint take_digits (s : string) : string * string :=
  match s with
  | String c s' =>
      if is_digit c then let '(d, rest) := take_digits s' in (String c d, rest)
      else (EmptyString, s)
  | EmptyString => (EmptyString, EmptyString)
  end.

(** An integer numeral; numerals with a fraction or an exponent are outside
    the model and are refused. *)
Definition parse_number (s : string) : option (Z * string) :=
  let '(sign, body) :=
    match s with String "-" s' => (-1, s') | _ => (1, s) end in
  let '(digits, rest) := take_digits body in
  let well_formed :=
    match digits with
    | EmptyString => false
    | String "0" (String _ _) => false
    | _ => true
    end in
  let continues :=
    match rest with
    | String "." _ | String "e" _ | String "E" _ => true
    | _ => false
    end in
  if well_formed && negb continues then
    match ParseInt.parse_digits 10 digits None with
    | Some v => Some (sign * v, rest)
    | None => None
    end
  else None.

Fixpoint parse_value (fuel : nat) (s : string) : option (json * string) :=
  match fuel with
  | O => None
  | S fuel' =>
      match skip_ws s with
      | String "[" s' =>
          match skip_ws s' with
          | String "]" rest => Some (JArr [], rest)
          | s'' =>
              match parse_elements fuel' s'' with
              | Some (items, rest) => Some (JArr items, rest)
              | None => None
              end
          end
      | String "{" s' =>
          match skip_ws s' with
          | String "}" rest => Some (JObj [], rest)
          | s'' =>
              match parse_members fuel' s'' with
              | Some (fields, rest) => Some (JObj fields, rest)
              | None => None
              end
          end
      | String c s' as t =>
          if Js.charCode c =? 34 then
            match parse_string_body s' with
            | Some (body, rest) => Some (JStr body, rest)
            | None => None
            end
          else
            match strip_prefix "null" t, strip_prefix "true" t, strip_prefix "false" t with
            | Some rest, _, _ => Some (JNull, rest)
            | _, Some rest, _ => Some (JBool true, rest)
            | _, _, Some rest => Some (JBool false, rest)
            | None, None, None =>
                match parse_number t with
                | Some (z, rest) => Some (JNum z, rest)
                | None => None
                end
            end
      | EmptyString => None
      end
  end
with parse_elements (fuel : nat) (s : string) : option (list json * string) :=
  match fuel with
  | O => None
  | S fuel' =>
      match parse_value fuel' s with
      | Some (v, rest) =>
          match skip_ws rest with
          | String "," rest' =>
              match parse_elements fuel' rest' with
              | Some (vs, rest'') => Some (v :: vs, rest'')
              | None => None
              end
          | String "]" rest' => Some ([v], rest')
          | _ => None
          end
      | None => None
      end
  end
with parse_members (fuel : nat) (s : string) : option (list (string * json) * string) :=
  match fuel with
  | O => None
  | S fuel' =>
      match skip_ws s with
      | String c s' =>
          if Js.charCode c =? 34 then
            match parse_string_body s' with
            | Some (k, rest) =>
                match skip_ws rest with
                | String ":" rest' =>
                    match parse_value fuel' rest' with
                    | Some (v, rest'') =>
                        match skip_ws rest'' with
                        | String "," rest3 =>
                            match parse_members fuel' rest3 with
                            | Some (fs, rest4) => Some ((k, v) :: fs, rest4)
                            | None => None
                            end
                        | String "}" rest3 => Some ([(k, v)], rest3)
                        | _ => None
                        end
                    | None => None
                    end
                | _ => None
                end
            | None => None
            end
          else None
      | EmptyString => None
      end
  end.

(** [JSON.parse(text)]; [None] is a SyntaxError. *)
Definition parse (text : string) : option json :=
  match parse_value (S (2 * String.length text)) text with
  | Some (v, rest) =>
      match skip_ws rest with
      | EmptyString => Some v
      | _ => None
      end
  | None => None
  end.

(** [new Blob([text]).size]: the length of the UTF-8 encoding.  A code unit
    below 128 takes one byte, the others below 256 two. *)
Fixpoint blob_size (text : string) : Z :=
  match text with
  | String c rest => (if Js.charCode c <? 128 then 1 else 2) + blob_size rest
  | EmptyString => 0
  end.

End JSON.

(** ** Requests, responses and the environment (functions/_shared/types.ts) *)

(** A JavaScript object used as a string-to-string record: the properties in
    insertion order.  Assigning an existing property keeps its place. *)
Definition Headers := list (string * string).

Fixpoint obj_set (k v : string) (h : Headers) : Headers :=
  match h with
  | [] => [(k, v)]
  | (k', v') :: rest =>
      if String.eqb k' k then (k', v) :: rest else (k', v') :: obj_set k v rest
  end.

(** [{ ...base, k1: v1, ..., kn: vn }] *)
Definition obj_spread (base : Headers) (extra : Headers) : Headers :=
  fold_left (fun acc kv => obj_set (fst kv) (snd kv) acc) extra base.

Definition obj_get (k : string) (h : Headers) : option string :=
  snd <$> find (fun kv => String.eqb (fst kv) k) h.

(** The image part of a multipart body: a [File]. *)
Record File := {
  file_name : string;
  file_type : string;
  file_size : Z;
}.

Inductive FormValue :=
  | FormString (s : string)
  | FormFile (f : File).

Definition FormData := list (string * FormValue).

(** An inbound [Request].  [searchParams] is [new URL(request.url).searchParams]
    (decoded, in the order of the query string); [req_formData] and [req_json]
    are what [request.formData()] and [request.json()] resolve to, [None] when
    they reject. *)
Record Request := {
  method : string;
  url_origin : string;
  pathname : string;
  searchParams : list (string * string);
  req_headers : Headers;
  req_formData : option FormData;
  req_json : option json;
}.

(** [request.headers.get(name)]: header names compare case-insensitively. *)
Definition headers_get (name : string) (request : Request) : option string :=
  snd <$> find (fun kv => String.eqb (Js.toLowerCase (fst kv)) (Js.toLowerCase name))
               (req_headers request).

(** The string-valued bindings of [Env]; the service bindings (DB, CACHE,
    IMAGES) live in the world state below. *)
Record Env := {
  ENVIRONMENT : option string;
  NODE_ENV : option string;
}.

Record Response := {
  status : Z;
  body : option string;
  headers : Headers;
}.

(** A value of type [unknown] handed to the error-response builders or caught
    by a [catch]: an [Error] object with its message, or something else. *)
Inductive JsValue :=
  | ErrorObject (message : string)
  | StringValue (s : string).

(** [new Date()] as the helpers read it. *)
Record Clock := {
  epoch_seconds : Z;
  toUTCString : string;
  toISOString : string;
}.

(** ** CORS (functions/_shared/utils.ts) *)

Definition productionOrigins : list string :=
  ["https://petition.ph"; "https://www.petition.ph"]%string.

Definition developmentOrigins : list string :=
  ["http://localhost:3000";
   "http://localhost:5173";
   "http://localhost:8080";
   "http://127.0.0.1:3000";
   "http://127.0.0.1:5173";
   "http://127.0.0.1:8080"]%string.

Definition opt_is (o : option string) (s : string) : bool :=
  match o with Some x => String.eqb x s | None => false end.

Definition isProduction (env : Env) : bool :=
  opt_is (ENVIRONMENT env) "production" || opt_is (NODE_ENV env) "production".

Definition allowedOrigins (env : Env) : list string :=
  if isProduction env then productionOrigins
  else productionOrigins ++ developmentOrigins.

(** [xs.includes(x)] *)
Definition list_includes (xs : list string) (x : string) : bool :=
  existsb (String.eqb x) xs.

(** [s || fallback] for a string-or-null [s]. *)
Definition or_else (s : option string) (fallback : string) : string :=
  match s with
  | Some x => if String.eqb x EmptyString then fallback else x
  | None => fallback
  end.

Definition getCorsHeaders (request : Request) (env : Env) : Headers :=
  let origin := headers_get "Origin" request in
  let allowedOrigin :=
    if list_includes (allowedOrigins env) (or_else origin EmptyString) then origin else None in
  [ ("Access-Control-Allow-Origin", or_else allowedOrigin "*");
    ("Access-Control-Allow-Methods", "GET, POST, PUT, DELETE, OPTIONS");
    ("Access-Control-Allow-Headers", "Content-Type, Authorization, X-Requested-With");
    ("Access-Control-Allow-Credentials", "true");
    ("Access-Control-Max-Age", "86400") ]%string.

(** Legacy [corsHeaders]. *)
Definition corsHeaders : Headers :=
  [ ("Access-Control-Allow-Origin", "*");
    ("Access-Control-Allow-Methods", "GET, POST, PUT, DELETE, OPTIONS");
    ("Access-Control-Allow-Headers", "Content-Type, Authorization") ]%string.

Definition handleCORS (request : Request) (env : Env) : option Response :=
  if String.eqb (method request) "OPTIONS" then
    Some {| status := 204; body := None; headers := getCorsHeaders request env |}
  else None.

(** ** Response builders *)

(** [error instanceof Error ? error.message : 'Unknown error'] *)
Definition error_message (error : JsValue) : string :=
  match error with
  | ErrorObject message => message
  | StringValue _ => "Unknown error"
  end.

Definition createSuccessResponse (data : json) : Response :=
  {| status := 200;
     body := Some (JSON.stringify data);
     headers := obj_spread corsHeaders [("Content-Type", "application/json")]%string |}.

(** *** ETag and caching utilities *)

(** The loop of [generateETag] over the code units of [str]:
    [hash = (hash << 5) - hash + char; hash = hash & hash]. *)
Fixpoint etag_hash (str : string) (hash : Z) : Z :=
  match str with
  | EmptyString => hash
  | String c rest =>
      let char := Js.charCode c in
      let hash1 := Js.to_int32 (Z.shiftl (Js.to_int32 hash) 5) - hash + char in
      etag_hash rest (Js.to_int32 hash1)
  end.

Definition generateETag (data : json) : string :=
  let str := JSON.stringify data in
  let hash := etag_hash str 0 in
  String JSON.dquote (Js.toString36 (Z.abs hash) +:+ String JSON.dquote EmptyString).

Definition cache_control (cacheMaxAge : Z) : string :=
  "public, max-age=" +:+ Js.number_toString cacheMaxAge.

Definition createCachedResponse
    (data : json) (request : Request) (env : Env) (cacheMaxAge : Z) (now : Clock)
    : Response :=
  let corsHeaders := getCorsHeaders request env in
  let etag := generateETag data in
  let clientETag := headers_get "If-None-Match" request in
  if opt_is clientETag etag then
    {| status := 304;
       body := None;
       headers := obj_spread corsHeaders
                    [("ETag", etag); ("Cache-Control", cache_control cacheMaxAge)]%string |}
  else
    {| status := 200;
       body := Some (JSON.stringify data);
       headers := obj_spread corsHeaders
                    [("Content-Type", "application/json");
                     ("ETag", etag);
                     ("Cache-Control", cache_control cacheMaxAge);
                     ("Last-Modified", toUTCString now)]%string |}.

Definition no_cache_headers (request : Request) (env : Env) : Headers :=
  obj_spread (getCorsHeaders request env)
    [("Content-Type", "application/json");
     ("Cache-Control", "no-cache, no-store, must-revalidate")]%string.

Definition createCachedErrorResponse
    (error : JsValue) (request : Request) (env : Env) (status : Z) : Response :=
  let message := error_message error in
  {| status := status;
     body := Some (JSON.stringify (JObj [("error", JStr message)]%string));
     headers := no_cache_headers request env |}.

(** One entry of the [errors] array of a validation response. *)
Record FieldError := {
  field : string;
  message : string;
}.

Definition FieldError_to_json (e : FieldError) : json :=
  JObj [("field", JStr (field e)); ("message", JStr (message e))]%string.

Definition validation_body (errors : list FieldError) : json :=
  JObj [("message", JStr "Validation failed");
        ("errors", JArr (map FieldError_to_json errors))]%string.

Definition createValidationErrorResponse
    (errors : list FieldError) (request : Request) (env : Env) : Response :=
  {| status := 422;
     body := Some (JSON.stringify (validation_body errors));
     headers := no_cache_headers request env |}.

(** ** The world the handlers run in *)

(** What a JavaScript computation produces: a value, or a thrown value. *)
Inductive Result (A : Type) :=
  | Ok (a : A)
  | Throw (e : JsValue).
Arguments Ok {A} a.
Arguments Throw {A} e.

(** Modelled from the spec: the key-value cache store, "specified only at its
    interface": [get(key)], [put(key, value, ttlSeconds)], [list(prefix)],
    [delete(key)].  An entry holds the text that was put and the time at which
    it expires.  [kv_faults] is the schedule of store failures: every call
    takes the head of the schedule and rejects when it is [true]; an empty
    schedule means that no further call fails. *)
Record KVEntry := {
  kv_value : string;
  kv_expiration : Z;
}.

Record KVNamespace := {
  kv_entries : gmap string KVEntry;
  kv_faults : list bool;
}.

(** Modelled from the spec: the object store, "specified only at its
    interface" ([put(path, bytes, metadata)]).  An object of the image bucket
    with the metadata the handlers attach. *)
Record R2Object := {
  r2_file : File;
  r2_contentType : string;
  r2_cacheControl : string;
  r2_customMetadata : Headers;
}.

Record AuthenticatedUser := {
  user_id : string;
  user_email : string;
  user_name : string;
  user_image : option string;
}.

(** The request [getAuthenticatedUser] sends to the session endpoint. *)
Record SessionRequest := {
  session_url : string;
  session_cookie : string;
  session_user_agent : string;
}.

(** Modelled from the spec: the session provider ("cookie-in,
    user-identity-or-none-out").  [Auth(sessionRequest, authConfig)] rejects,
    or resolves to a response with its [ok] flag and what [response.json()]
    resolves to ([None] when that rejects; a session may carry no user). *)
Inductive AuthOutcome :=
  | AuthRejects
  | AuthResponds (ok : bool) (session : option (option AuthenticatedUser)).

(** The calls made to the collaborators, in order. *)
Inductive Event :=
  | KvGet (key : string)
  | KvPut (key : string) (value : string) (ttl : Z)
  | KvList (prefix : string)
  | KvDelete (key : string)
  | R2Put (path : string)
  | DbCall (operation : string)
  | LoaderCall
  | AuthCall.

(** The service bindings of [Env] and the rest of the outside world. *)
Record World (D : Type) := {
  env_DB : D;
  env_CACHE : option KVNamespace;
  env_IMAGES : gmap string R2Object;
  images_faults : list bool;
  auth_provider : SessionRequest -> AuthOutcome;
  clock : Clock;
  trace : list Event;
}.
Arguments env_DB {D} _.
Arguments env_CACHE {D} _.
Arguments env_IMAGES {D} _.
Arguments images_faults {D} _.
Arguments auth_provider {D} _.
Arguments clock {D} _.
Arguments trace {D} _.

Definition set_DB {D} (d : D) (w : World D) : World D :=
  {| env_DB := d; env_CACHE := env_CACHE w; env_IMAGES := env_IMAGES w;
     images_faults := images_faults w; auth_provider := auth_provider w;
     clock := clock w; trace := trace w |}.

Definition set_CACHE {D} (c : option KVNamespace) (w : World D) : World D :=
  {| env_DB := env_DB w; env_CACHE := c; env_IMAGES := env_IMAGES w;
     images_faults := images_faults w; auth_provider := auth_provider w;
     clock := clock w; trace := trace w |}.

Definition set_IMAGES {D} (i : gmap string R2Object) (faults : list bool) (w : World D)
    : World D :=
  {| env_DB := env_DB w; env_CACHE := env_CACHE w; env_IMAGES := i;
     images_faults := faults; auth_provider := auth_provider w;
     clock := clock w; trace := trace w |}.

Definition log_event {D} (e : Event) (w : World D) : World D :=
  {| env_DB := env_DB w; env_CACHE := env_CACHE w; env_IMAGES := env_IMAGES w;
     images_faults := images_faults w; auth_provider := auth_provider w;
     clock := clock w; trace := trace w ++ [e] |}.

(** *** The monad of awaited steps *)

Definition M (D A : Type) : Type := World D -> Result A * World D.

Definition ret {D A} (a : A) : M D A := fun w => (Ok a, w).

Definition throw {D A} (e : JsValue) : M D A := fun w => (Throw e, w).

Definition bind {D A B} (m : M D A) (f : A -> M D B) : M D B :=
  fun w =>
    match m w with
    | (Ok a, w') => f a w'
    | (Throw e, w') => (Throw e, w')
    end.

(** [try { m } catch (error) { handler error }] *)
Definition try_catch {D A} (m : M D A) (handler : JsValue -> M D A) : M D A :=
  fun w =>
    match m w with
    | (Ok a, w') => (Ok a, w')
    | (Throw e, w') => handler e w'
    end.

(** [await Promise.all(ms)] where every promise of [ms] has been started: all
    of them run; the result rejects with the first rejection. *)
Fixpoint promise_all {D} (ms : list (M D unit)) : M D unit :=
  fun w =>
    match ms with
    | [] => (Ok tt, w)
    | m :: rest =>
        let '(r, w1) := m w in
        let '(r', w2) := promise_all rest w1 in
        (match r with Throw e => Throw e | Ok _ => r' end, w2)
    end.

Declare Scope js_scope.
Delimit Scope js_scope with js.
Notation "'let*' x ':=' m 'in' k" := (bind m (fun x => k))
  (at level 10, x name, m at level 100, k at level 200) : js_scope.
Notation "'do*' m 'in' k" := (bind m (fun _ => k))
  (at level 10, m at level 100, k at level 200) : js_scope.

(** *** The key-value store *)

Definition TypeError_undefined : JsValue :=
  ErrorObject "Cannot read properties of undefined".

Definition kv_live (now : Z) (e : KVEntry) : bool := now <? kv_expiration e.

(** One call to the store bound as [env.CACHE].  The call is recorded; it
    throws a TypeError when the binding is undefined and rejects when the
    fault schedule says so. *)
Definition kv_call {D A} (ev : Event) (op : Z -> gmap string KVEntry -> Result A * gmap string KVEntry)
    : M D A :=
  fun w =>
    match env_CACHE w with
    | None => (Throw TypeError_undefined, w)
    | Some kv =>
        let w1 := log_event ev w in
        let fault := match kv_faults kv with b :: _ => b | [] => false end in
        let rest := tail (kv_faults kv) in
        if fault then
          (Throw (ErrorObject "KV request failed"),
           set_CACHE (Some {| kv_entries := kv_entries kv; kv_faults := rest |}) w1)
        else
          let '(r, entries') := op (epoch_seconds (clock w)) (kv_entries kv) in
          (r, set_CACHE (Some {| kv_entries := entries'; kv_faults := rest |}) w1)
    end.

(** [kv.get(key, 'json')]: the parsed value of a live entry, [null] when there
    is none. *)
Definition kv_get {D} (key : string) : M D json :=
  kv_call (KvGet key) (fun now entries =>
    match entries !! key with
    | Some e =>
        if kv_live now e then
          match JSON.parse (kv_value e) with
          | Some v => (Ok v, entries)
          | None => (Throw (ErrorObject "Unexpected token in JSON"), entries)
          end
        else (Ok JNull, entries)
    | None => (Ok JNull, entries)
    end).

(** [kv.put(key, value, { expirationTtl })] *)
Definition kv_put {D} (key value : string) (expirationTtl : Z) : M D unit :=
  kv_call (KvPut key value expirationTtl) (fun now entries =>
    (Ok tt, <[key := {| kv_value := value; kv_expiration := now + expirationTtl |}]> entries)).

(** [kv.list({ prefix })]: the names of the live entries under the prefix. *)
Definition kv_list {D} (prefix : string) : M D (list string) :=
  kv_call (KvList prefix) (fun now entries =>
    (Ok (fst <$> filter (fun ke => Js.startsWith prefix (fst ke) && kv_live now (snd ke) = true)
                   (map_to_list entries)),
     entries)).

(** [kv.delete(key)] *)
Definition kv_delete {D} (key : string) : M D unit :=
  kv_call (KvDelete key) (fun now entries => (Ok tt, delete key entries)).

(** *** KV cache utilities (functions/_shared/utils.ts) *)

(** The [kv] argument of the four functions is [context.env.CACHE] at every
    call site: the binding held by the world. *)

Definition getCachedData {D} (cacheKey : string) : M D json :=
  try_catch
    (fun w =>
       match env_CACHE w with
       | None => (Ok JNull, w)
       | Some _ => kv_get cacheKey w
       end)
    (fun _ => ret JNull).

Definition cache_size_limit : Z := 25 * 1024 * 1024.

Definition setCachedData {D} (cacheKey : string) (data : json) (ttlSeconds : Z) : M D unit :=
  try_catch
    (let serializedData := JSON.stringify data in
     let dataSize := JSON.blob_size serializedData in
     if dataSize >? cache_size_limit then ret tt
     else kv_put cacheKey serializedData ttlSeconds)
    (fun _ => ret tt).

Definition invalidateCachePattern {D} (pattern : string) : M D unit :=
  try_catch
    (let* keys := kv_list pattern in
     if (Z.of_nat (length keys) >? 0)
     then promise_all (map kv_delete keys)
     else ret tt)%js
    (fun _ => ret tt).

(** The data fetch handed to [getOrSetCache]: it works on the database. *)
Definition Loader (D : Type) : Type := D -> Result json * D.

Definition run_loader {D} (dataFetcher : Loader D) : M D json :=
  fun w =>
    let '(r, d) := dataFetcher (env_DB w) in
    (r, set_DB d (log_event LoaderCall w)).

Definition getOrSetCache {D} (cacheKey : string) (dataFetcher : Loader D) (ttlSeconds : Z)
    : M D json :=
  (let* cached := getCachedData cacheKey in
   match cached with
   | JNull =>
       let* data := run_loader dataFetcher in
       do* try_catch (setCachedData cacheKey data ttlSeconds) (fun _ => ret tt) in
       ret data
   | _ => ret cached
   end)%js.

(** *** Cache keys *)

(** [a.localeCompare(b)]: negative, zero or positive.  The collation is the
    runtime's; it is a parameter of the development. *)
Class Locale := { localeCompare : string -> string -> Z }.

(** [xs.sort(compare)]: the sort is stable; insertion from the right keeps an
    element before the equal elements that followed it. *)
Section ArraySort.
Context {A : Type} (compare : A -> A -> Z).

Fixpoint sort_insert (x : A) (l : list A) : list A :=
  match l with
  | [] => [x]
  | y :: l' => if compare x y <=? 0 then x :: l else y :: sort_insert x l'
  end.

Definition array_sort (l : list A) : list A := foldr sort_insert [] l.
End ArraySort.

Definition compare_names `{Locale} (a b : string * string) : Z :=
  localeCompare (fst a) (fst b).

Definition render_param (kv : string * string) : string :=
  fst kv +:+ "=" +:+ snd kv.

Definition generateCacheKey `{Locale} (request : Request) (prefix : string) : string :=
  let path := pathname request in
  let params := searchParams request in
  let sortedParams := Js.join "&" (map render_param (array_sort compare_names params)) in
  prefix +:+ ":" +:+ path +:+
    (if String.eqb sortedParams EmptyString then EmptyString else "?" +:+ sortedParams).

(** Code-unit order, the collation of the examples below. *)
Definition code_unit_compare (a b : string) : Z :=
  match String.compare a b with
  | Lt => -1
  | Eq => 0
  | Gt => 1
  end.

Definition code_unit_locale : Locale := {| localeCompare := code_unit_compare |}.

(** ** The data-access layer *)

(** Modelled from the spec: the Petition of section 3 ("identifier, title,
    description, type, location, target signature count, current signature
    count, status, owner identity, image URL, category associations,
    creation/due timestamps"); its declaration is not among the sources at
    hand. *)
Record Petition := {
  id : Z;
  title : string;
  description : string;
  type : string;
  location : option string;
  target_count : Z;
  current_count : Z;
  petition_status : string;
  created_by : string;
  image_url : string;
  category_ids : list Z;
  created_at : string;
  due_date : string;
}.

Definition set_image_url (url : string) (p : Petition) : Petition :=
  {| id := id p; title := title p; description := description p; type := type p;
     location := location p; target_count := target_count p;
     current_count := current_count p; petition_status := petition_status p;
     created_by := created_by p; image_url := url; category_ids := category_ids p;
     created_at := created_at p; due_date := due_date p |}.

Definition Petition_to_json (p : Petition) : json :=
  JObj ([("id", JNum (id p));
         ("title", JStr (title p));
         ("description", JStr (description p));
         ("type", JStr (type p));
         ("location", match location p with Some l => JStr l | None => JNull end);
         ("target_count", JNum (target_count p));
         ("current_count", JNum (current_count p));
         ("status", JStr (petition_status p));
         ("created_by", JStr (created_by p));
         ("image_url", JStr (image_url p));
         ("category_ids", JArr (map JNum (category_ids p)));
         ("created_at", JStr (created_at p));
         ("due_date", JStr (due_date p))]%string).

(** The output of [createPetitionSchema] ([ValidatedPetitionData]). *)
Record CreateData := {
  c_title : string;
  c_description : string;
  c_type : string;
  c_location : option string;
  c_target_count : Z;
  c_category_ids : option (list Z);
  c_image_url : option string;
  c_created_by : string;
}.

(** The output of [updatePetitionSchema] ([ValidatedUpdateData]); also the
    argument of [db.updatePetition]. *)
Record UpdateData := {
  u_title : option string;
  u_description : option string;
  u_type : option string;
  u_location : option string;
  u_target_count : option Z;
  u_category_ids : option (list Z);
  u_image_url : option string;
  u_status : option string;
}.

(** Modelled from the spec: the relational store "specified only at its
    interface" (petition CRUD, queried by id, owner, filters, paginated via
    limit/offset).  The class [DatabaseService] (src/db/service.ts) is not
    among the sources at hand: its methods are parameters.  Every method may
    throw; the queries cannot change the store.  A [limit] or [offset] of
    [None] is NaN. *)
Class DatabaseService (D : Type) := {
  getPetitionById : Z -> D -> Result (option Petition);
  getUserPetitions : string -> D -> Result (list Petition);
  getAllPetitions :
    option Z -> option Z -> option string -> option (list Z) -> D -> Result (list Petition);
  createPetition : CreateData -> D -> Result Petition * D;
  updatePetition : Z -> UpdateData -> D -> Result Petition * D;
  deletePetition : Z -> D -> Result unit * D;
}.

(** A query, and a mutation, as awaited steps. *)
Definition db_query {D A} (operation : string) (q : D -> Result A) : M D A :=
  fun w => (q (env_DB w), log_event (DbCall operation) w).

Definition db_mutate {D A} (operation : string) (f : D -> Result A * D) : M D A :=
  fun w =>
    let '(r, d) := f (env_DB w) in
    (r, set_DB d (log_event (DbCall operation) w)).

(** ** Authentication utilities (functions/_shared/utils.ts) *)

Definition getAuthenticatedUser {D} (request : Request) : M D (option AuthenticatedUser) :=
  fun w =>
    let sessionRequest :=
      {| session_url := url_origin request +:+ "/auth/session";
         session_cookie := or_else (headers_get "Cookie" request) EmptyString;
         session_user_agent := or_else (headers_get "User-Agent" request) EmptyString |} in
    let w1 := log_event AuthCall w in
    match auth_provider w sessionRequest with
    | AuthRejects => (Ok None, w1)
    | AuthResponds false _ => (Ok None, w1)
    | AuthResponds true None => (Ok None, w1)
    | AuthResponds true (Some None) => (Ok None, w1)
    | AuthResponds true (Some (Some user)) =>
        if String.eqb (user_id user) EmptyString then (Ok None, w1)
        else (Ok (Some user), w1)
    end.

Definition json_response (status : Z) (payload : json) (request : Request) (env : Env)
    : Response :=
  {| status := status;
     body := Some (JSON.stringify payload);
     headers := obj_spread (getCorsHeaders request env)
                  [("Content-Type", "application/json")]%string |}.

Definition requireAuthentication {D} (request : Request) (env : Env)
    : M D (AuthenticatedUser + Response) :=
  (let* user := getAuthenticatedUser request in
   match user with
   | None =>
       ret (inr (json_response 401
                   (JObj [("error", JStr "Authentication required");
                          ("message", JStr "You must be signed in to perform this action")]%string)
                   request env))
   | Some u => ret (inl u)
   end)%js.

Definition requirePetitionOwnership {D} `{DatabaseService D}
    (request : Request) (env : Env) (petitionId : Z)
    : M D (AuthenticatedUser + Response) :=
  (let* authResult := requireAuthentication request env in
   match authResult with
   | inr response => ret (inr response)
   | inl user =>
       try_catch
         (let* petition := db_query "getPetitionById" (getPetitionById petitionId) in
          match petition with
          | None =>
              ret (inr (json_response 404
                          (JObj [("error", JStr "Petition not found")]%string) request env))
          | Some p =>
              if negb (String.eqb (created_by p) (user_id user)) then
                ret (inr (json_response 403
                            (JObj [("error", JStr "Forbidden");
                                   ("message",
                                    JStr "You can only modify petitions you created")]%string)
                            request env))
              else ret (inl user)
          end)
         (fun _ =>
            ret (inr (json_response 500
                        (JObj [("error", JStr "Internal server error")]%string) request env)))
   end)%js.

(** ** Validation (functions/_shared/schemas.ts) *)

(** The part of the validation library (zod, in the version whose schemas
    take an [error] parameter) the two schemas use.  An issue carries
    the [continue] flag of the library: a type mismatch aborts (the checks
    and refinements that follow on the same value are skipped), a failed
    length or range check does not. *)
Module Zod.

Record Issue := {
  path : list string;
  issue_message : string;
  continues : bool;
}.

Definition Parsed (A : Type) : Type := option A * list Issue.
Definition Schema (A : Type) : Type := option json -> Parsed A.
Definition Check (A : Type) : Type := A -> A * list Issue.

Definition aborting (msg : string) : Issue :=
  {| path := []; issue_message := msg; continues := false |}.

Definition continuing (msg : string) : Issue :=
  {| path := []; issue_message := msg; continues := true |}.

Definition aborted (issues : list Issue) : bool :=
  existsb (fun i => negb (continues i)) issues.

Definition prefix_issues (key : string) (issues : list Issue) : list Issue :=
  map (fun i => {| path := key :: path i;
                   issue_message := issue_message i;
                   continues := continues i |}) issues.

(** The checks of a schema, in order; a check is skipped once an aborting
    issue has been raised. *)
Fixpoint run_checks {A} (checks : list (Check A)) (v : A) (issues : list Issue)
    : A * list Issue :=
  match checks with
  | [] => (v, issues)
  | c :: rest =>
      if aborted issues then run_checks rest v issues
      else let '(v', new) := c v in run_checks rest v' (issues ++ new)
  end.

Definition with_checks {A} (schema : Schema A) (checks : list (Check A)) : Schema A :=
  fun input =>
    match schema input with
    | (Some v, issues) =>
        let '(v', issues') := run_checks checks v issues in (Some v', issues')
    | (None, issues) => (None, issues)
    end.

(** The type name in the library's default message. *)
Definition received (input : option json) : string :=
  match input with
  | None => "undefined"
  | Some JNull => "null"
  | Some (JBool _) => "boolean"
  | Some (JNum _) => "number"
  | Some (JStr _) => "string"
  | Some (JArr _) => "array"
  | Some (JObj _) => "object"
  end.

Definition default_error (expected : string) (input : option json) : string :=
  "Invalid input: expected " +:+ expected +:+ ", received " +:+ received input.

(** [z.string({ error })] *)
Definition string_ (error : option json -> string) : Schema string :=
  fun input =>
    match input with
    | Some (JStr s) => (Some s, [])
    | _ => (None, [aborting (error input)])
    end.

(** [z.number({ error })] *)
Definition number (error : option json -> string) : Schema Z :=
  fun input =>
    match input with
    | Some (JNum z) => (Some z, [])
    | _ => (None, [aborting (error input)])
    end.

(** [z.enum(values, { error })] *)
Definition enum (values : list string) (error : option json -> string) : Schema string :=
  fun input =>
    match input with
    | Some (JStr s) =>
        if list_includes values s then (Some s, []) else (None, [aborting (error input)])
    | _ => (None, [aborting (error input)])
    end.

(** [.min(n, msg)] and [.max(n, msg)] on a string, [.trim()] *)
Definition min_length (n : Z) (msg : string) : Check string :=
  fun s => (s, if Js.str_length s <? n then [continuing msg] else []).

Definition max_length (n : Z) (msg : string) : Check string :=
  fun s => (s, if Js.str_length s >? n then [continuing msg] else []).

Definition trim : Check string := fun s => (Js.trim s, []).

(** [.int(msg)], [.min(n, msg)] and [.max(n, msg)] on a number.  On an
    integral number [.int] checks the safe-integer range. *)
Definition MAX_SAFE_INTEGER : Z := 2 ^ 53 - 1.

Definition int (msg : string) : Check Z :=
  fun z => (z, if Z.abs z >? MAX_SAFE_INTEGER then [continuing msg] else []).

Definition min (n : Z) (msg : string) : Check Z :=
  fun z => (z, if z <? n then [continuing msg] else []).

Definition max (n : Z) (msg : string) : Check Z :=
  fun z => (z, if z >? n then [continuing msg] else []).

(** [.optional()] *)
Definition optional {A} (schema : Schema A) : Schema (option A) :=
  fun input =>
    match input with
    | None => (Some None, [])
    | Some _ => let '(v, issues) := schema input in (Some <$> v, issues)
    end.

(** [.default(d)] *)
Definition default_ {A} (d : A) (schema : Schema A) : Schema A :=
  fun input =>
    match input with
    | None => (Some d, [])
    | Some _ => schema input
    end.

(** [.optional()] around a schema that accepts an absent input itself, as
    [.partial()] puts it around a property with a default: the input is
    handed to the schema, present or not, so the default still applies. *)
Definition optional_of_default {A} (schema : Schema A) : Schema (option A) :=
  fun input => let '(v, issues) := schema input in (Some <$> v, issues).

(** The elements of [z.array(element)], from index [i]. *)
Fixpoint array_items {A} (element : Schema A) (i : Z) (items : list json)
    : Parsed (list A) :=
  match items with
  | [] => (Some [], [])
  | x :: rest =>
      let '(v, issues) := element (Some x) in
      let '(vs, more) := array_items element (i + 1) rest in
      (match v, vs with Some a, Some l => Some (a :: l) | _, _ => None end,
       prefix_issues (Js.number_toString i) issues ++ more)
  end.

(** [z.array(element)] *)
Definition array {A} (element : Schema A) : Schema (list A) :=
  fun input =>
    match input with
    | Some (JArr items) => array_items element 0 items
    | _ => (None, [aborting (default_error "array" input)])
    end.

(** [input[key]] *)
Definition property (key : string) (fields : list (string * json)) : option json :=
  snd <$> find (fun kv => String.eqb (fst kv) key) fields.

(** One property of [z.object(shape)]. *)
Definition at_key {A} (key : string) (schema : Schema A) (fields : list (string * json))
    : Parsed A :=
  let '(v, issues) := schema (property key fields) in (v, prefix_issues key issues).

(** [.refine(test, { message, path })] *)
Definition refine {A} (test : A -> bool) (msg : string) (at_path : list string)
    : Check A :=
  fun data =>
    (data,
     if test data then []
     else [{| path := at_path; issue_message := msg; continues := true |}]).

(** The result of [schema.safeParse(input)]. *)
Inductive SafeParse (A : Type) :=
  | Success (data : A)
  | Failure (issues : list Issue).
Arguments Success {A} data.
Arguments Failure {A} issues.

Definition safeParse {A} (schema : Schema A) (input : json) : SafeParse A :=
  match schema (Some input) with
  | (Some data, []) => Success data
  | (_, issues) => Failure issues
  end.

End Zod.

Module Fields.

Definition title : Zod.Schema string :=
  Zod.with_checks
    (Zod.string_ (fun input =>
       match input with None => "Title is required" | Some _ => "Title must be a string" end))
    [Zod.min_length 10 "Title must be at least 10 characters";
     Zod.max_length 150 "Title must not exceed 150 characters";
     Zod.trim].

Definition description : Zod.Schema string :=
  Zod.with_checks
    (Zod.string_ (fun input =>
       match input with
       | None => "Description is required"
       | Some _ => "Description must be a string"
       end))
    [Zod.min_length 100 "Description must be at least 100 characters";
     Zod.trim].

Definition type_message : string :=
  "Petition type must be either " +:+ JSON.quote "local" +:+ " or " +:+ JSON.quote "national".

Definition type : Zod.Schema string :=
  Zod.enum ["local"; "national"]%string
    (fun input =>
       match input with None => "Petition type is required" | Some _ => type_message end).

Definition location : Zod.Schema (option string) :=
  Zod.optional
    (Zod.with_checks (Zod.string_ (fun _ => "Location must be a string")) [Zod.trim]).

Definition target_count_checked : Zod.Schema Z :=
  Zod.with_checks
    (Zod.number (fun _ => "Target count must be a number"))
    [Zod.int "Target count must be an integer";
     Zod.min 1 "Target count must be at least 1";
     Zod.max 1000000 "Target count must not exceed 1,000,000"].

Definition target_count : Zod.Schema Z := Zod.default_ 1000 target_count_checked.

Definition category_ids : Zod.Schema (option (list Z)) :=
  Zod.optional (Zod.array (Zod.number (fun _ => "Category ID must be a number"))).

Definition image_url : Zod.Schema (option string) :=
  Zod.optional (Zod.string_ (Zod.default_error "string")).

Definition created_by : Zod.Schema string := Zod.string_ (Zod.default_error "string").

Definition status : Zod.Schema string :=
  Zod.enum ["active"; "completed"; "closed"]%string
    (fun _ => "Status must be one of: active, completed, closed").

End Fields.

(** [data.type === 'local' ? data.location !== undefined && data.location.length > 0 : true] *)
Definition location_given (type : option string) (location : option string) : bool :=
  if opt_is type "local" then
    match location with
    | Some l => Js.str_length l >? 0
    | None => false
    end
  else true.

(** The properties of [createPetitionSchema]'s object, in the order of its
    shape. *)
Definition createPetitionObject : Zod.Schema CreateData :=
  fun input =>
    match input with
    | Some (JObj fields) =>
        let '(v_title, i1) := Zod.at_key "title" Fields.title fields in
        let '(v_description, i2) := Zod.at_key "description" Fields.description fields in
        let '(v_type, i3) := Zod.at_key "type" Fields.type fields in
        let '(v_location, i4) := Zod.at_key "location" Fields.location fields in
        let '(v_target_count, i5) := Zod.at_key "target_count" Fields.target_count fields in
        let '(v_category_ids, i6) := Zod.at_key "category_ids" Fields.category_ids fields in
        let '(v_image_url, i7) := Zod.at_key "image_url" Fields.image_url fields in
        let '(v_created_by, i8) := Zod.at_key "created_by" Fields.created_by fields in
        (match v_title, v_description, v_type, v_location,
               v_target_count, v_category_ids, v_image_url, v_created_by with
         | Some t, Some d, Some ty, Some l, Some n, Some c, Some i, Some u =>
             Some {| c_title := t; c_description := d; c_type := ty; c_location := l;
                     c_target_count := n; c_category_ids := c; c_image_url := i;
                     c_created_by := u |}
         | _, _, _, _, _, _, _, _ => None
         end,
         i1 ++ i2 ++ i3 ++ i4 ++ i5 ++ i6 ++ i7 ++ i8)
    | _ => (None, [Zod.aborting (Zod.default_error "object" input)])
    end.

Definition createPetitionSchema : Zod.Schema CreateData :=
  Zod.with_checks createPetitionObject
    [Zod.refine (fun data => location_given (Some (c_type data)) (c_location data))
       "Location is required for local petitions" ["location"%string]].

(** [.partial()]: every property of the object is optional.  [target_count]
    keeps its default under [.partial()]: an update that omits it is validated
    to [target_count: 1000]. *)
Definition updatePetitionObject : Zod.Schema UpdateData :=
  fun input =>
    match input with
    | Some (JObj fields) =>
        let '(v_title, i1) := Zod.at_key "title" (Zod.optional Fields.title) fields in
        let '(v_description, i2) :=
          Zod.at_key "description" (Zod.optional Fields.description) fields in
        let '(v_type, i3) := Zod.at_key "type" (Zod.optional Fields.type) fields in
        let '(v_location, i4) := Zod.at_key "location" Fields.location fields in
        let '(v_target_count, i5) :=
          Zod.at_key "target_count" (Zod.optional_of_default Fields.target_count) fields in
        let '(v_category_ids, i6) := Zod.at_key "category_ids" Fields.category_ids fields in
        let '(v_image_url, i7) := Zod.at_key "image_url" Fields.image_url fields in
        let '(v_status, i8) := Zod.at_key "status" (Zod.optional Fields.status) fields in
        (match v_title, v_description, v_type, v_location,
               v_target_count, v_category_ids, v_image_url, v_status with
         | Some t, Some d, Some ty, Some l, Some n, Some c, Some i, Some s =>
             Some {| u_title := t; u_description := d; u_type := ty; u_location := l;
                     u_target_count := n; u_category_ids := c; u_image_url := i;
                     u_status := s |}
         | _, _, _, _, _, _, _, _ => None
         end,
         i1 ++ i2 ++ i3 ++ i4 ++ i5 ++ i6 ++ i7 ++ i8)
    | _ => (None, [Zod.aborting (Zod.default_error "object" input)])
    end.

Definition updatePetitionSchema : Zod.Schema UpdateData :=
  Zod.with_checks updatePetitionObject
    [Zod.refine (fun data => location_given (u_type data) (u_location data))
       "Location is required when changing petition type to local" ["location"%string]].

Definition formatZodError (issues : list Zod.Issue) : list FieldError :=
  map (fun issue => {| field := Js.join "." (Zod.path issue);
                       message := Zod.issue_message issue |}) issues.

(** ** Form fields (functions/_shared/form-data-parser.ts) *)

(** [formData.get(fieldName)] *)
Definition formData_get (fieldName : string) (formData : FormData) : option FormValue :=
  snd <$> find (fun kv => String.eqb (fst kv) fieldName) formData.

Definition getStringField (formData : FormData) (fieldName : string) : option string :=
  match formData_get fieldName formData with
  | Some (FormString value) =>
      let trimmed := Js.trim value in
      if Js.str_length trimmed >? 0 then Some trimmed else None
  | _ => None
  end.

Definition getIntegerField (formData : FormData) (fieldName : string) : option Z :=
  match getStringField formData fieldName with
  | None => None
  | Some value => ParseInt.parseInt value (Some 10)
  end.

(** The elements are left as they were parsed. *)
Definition getJsonArrayField (formData : FormData) (fieldName : string)
    : option (list json) :=
  match getStringField formData fieldName with
  | None => None
  | Some value =>
      match JSON.parse value with
      | Some (JArr parsed) => Some parsed
      | _ => None
      end
  end.

Definition getFileField (formData : FormData) (fieldName : string) : option File :=
  match formData_get fieldName formData with
  | Some (FormFile value) => if file_size value =? 0 then None else Some value
  | _ => None
  end.

(** ** The route handlers *)

(** [EventContext<Env>]: the request, the environment, the [id] path
    parameter and the user the router stored in [context.data]. *)
Record EventContext := {
  request : Request;
  env : Env;
  params_id : string;
  data_user : option AuthenticatedUser;
}.

(** [url.searchParams.get(name)] and [url.searchParams.getAll(name)] *)
Definition searchParams_get (name : string) (request : Request) : option string :=
  snd <$> find (fun kv => String.eqb (fst kv) name) (searchParams request).

Definition searchParams_getAll (name : string) (request : Request) : list string :=
  snd <$> filter (fun kv => String.eqb (fst kv) name = true) (searchParams request).

(** [await request.formData()] and [await request.json()] *)
Definition await_formData {D} (request : Request) : M D FormData :=
  match req_formData request with
  | Some formData => ret formData
  | None => throw (ErrorObject "Failed to parse body as FormData")
  end.

Definition await_json {D} (request : Request) : M D json :=
  match req_json request with
  | Some value => ret value
  | None => throw (ErrorObject "Unexpected end of JSON input")
  end.

(** [env.IMAGES.put(path, bytes, options)] *)
Definition r2_put {D} (path : string) (object : R2Object) : M D unit :=
  fun w =>
    let w1 := log_event (R2Put path) w in
    let fault := match images_faults w with b :: _ => b | [] => false end in
    let rest := tail (images_faults w) in
    if fault then (Throw (ErrorObject "R2 request failed"), set_IMAGES (env_IMAGES w) rest w1)
    else (Ok tt, set_IMAGES (<[path := object]> (env_IMAGES w)) rest w1).

Definition image_only (url : string) : UpdateData :=
  {| u_title := None; u_description := None; u_type := None; u_location := None;
     u_target_count := None; u_category_ids := None; u_image_url := Some url;
     u_status := None |}.

(** "Step 2" and "Step 3" of both mutating handlers: upload the image, store
    its URL, and return the petition with the URL; a failure leaves the
    petition as it was. *)
Definition attach_image {D} `{DatabaseService D}
    (petitionId : Z) (imageFile : option File) (petition : Petition) : M D Petition :=
  match imageFile with
  | Some file =>
      if file_size file >? 0 then
        try_catch
          (let extension := or_else (Some (Js.split_last "." (file_name file))) "jpg" in
           let filename :=
             "petitions/" +:+ Js.number_toString petitionId +:+ "/image." +:+ extension in
           fun w =>
             (do* r2_put filename
                    {| r2_file := file;
                       r2_contentType := file_type file;
                       r2_cacheControl := "public, max-age=31536000";
                       r2_customMetadata :=
                         [("petitionId", Js.number_toString petitionId);
                          ("originalName", file_name file);
                          ("uploadedAt", toISOString (clock w));
                          ("size", Js.number_toString (file_size file))]%string |} in
              let imageUrl := "https://images.petition.ph/" +:+ filename in
              do* db_mutate "updatePetition" (updatePetition petitionId (image_only imageUrl)) in
              ret (set_image_url imageUrl petition))%js w)
          (fun _ => ret petition)
      else ret petition
  | None => ret petition
  end.

Definition opt_property {A} (key : string) (to_json : A -> json) (v : option A)
    : list (string * json) :=
  match v with
  | Some a => [(key, to_json a)]
  | None => []
  end.

(** [object[key] = value] on the properties of an object. *)
Fixpoint set_property (key : string) (value : json) (fields : list (string * json))
    : list (string * json) :=
  match fields with
  | [] => [(key, value)]
  | (k, v) :: rest =>
      if String.eqb k key then (k, value) :: rest
      else (k, v) :: set_property key value rest
  end.

(** [petitionData.created_by = id] on what [request.json()] gave: a property
    of an object is set; an array takes the property and stays an array;
    [null] and the primitives throw a TypeError. *)
Definition assign_created_by {D} (petitionData : json) (user : string) : M D json :=
  match petitionData with
  | JObj fields => ret (JObj (set_property "created_by" (JStr user) fields))
  | JArr items => ret (JArr items)
  | _ => throw (ErrorObject "Cannot set properties")
  end.

(** *** functions/api/petitions.ts *)

Module PetitionsIndex.
Section Handler.
Context {D : Type} `{DatabaseService D} `{Locale}.

(** The multipart branch of the create handler: the payload built from the
    form fields, and the image. *)
Definition create_from_form (formData : FormData) (user : AuthenticatedUser)
    : json * option File :=
  let title := getStringField formData "title" in
  let description := getStringField formData "description" in
  let type := getStringField formData "type" in
  let location := getStringField formData "location" in
  let targetCount := getIntegerField formData "target_count" in
  let categoryIds := getJsonArrayField formData "category_ids" in
  (JObj ([("title", JStr (default EmptyString title));
          ("description", JStr (default EmptyString description));
          ("type", JStr (default "national" type))]%string
         ++ opt_property "location" JStr location
         ++ opt_property "target_count" JNum targetCount
         ++ [("created_by"%string, JStr (user_id user))]
         ++ opt_property "category_ids" JArr categoryIds
         ++ [("image_url"%string, JStr EmptyString)]),
   getFileField formData "image").

(** [{ ...validatedData, image_url: '' }] *)
Definition with_empty_image (data : CreateData) : CreateData :=
  {| c_title := c_title data; c_description := c_description data;
     c_type := c_type data; c_location := c_location data;
     c_target_count := c_target_count data; c_category_ids := c_category_ids data;
     c_image_url := Some EmptyString; c_created_by := c_created_by data |}.

(** The [POST] branch of [onRequest], for the user of [context.data]. *)
Definition post (context : EventContext) (user : AuthenticatedUser) : M D Response :=
  let request := request context in
  let env := env context in
  let contentType := or_else (headers_get "content-type" request) EmptyString in
  (let* body :=
     (if Js.includes "multipart/form-data" contentType then
        let* formData := await_formData request in
        ret (create_from_form formData user)
      else
        let* petitionData := await_json request in
        let* petitionData := assign_created_by petitionData (user_id user) in
        ret (petitionData, None)) in
   let '(petitionData, imageFile) := body in
   match Zod.safeParse createPetitionSchema petitionData with
   | Zod.Failure issues =>
       ret (createValidationErrorResponse (formatZodError issues) request env)
   | Zod.Success validatedData =>
       let* petition :=
         db_mutate "createPetition" (createPetition (with_empty_image validatedData)) in
       let* petition := attach_image (id petition) imageFile petition in
       do* invalidateCachePattern "petitions:" in
       ret (createSuccessResponse (Petition_to_json petition))
   end)%js.

Definition petitions_to_json (ps : list Petition) : json :=
  JArr (map Petition_to_json ps).

(** The data fetchers of the [GET] branch: a query of the database. *)
Definition list_loader (q : D -> Result (list Petition)) : Loader D :=
  fun d =>
    (match q d with
     | Ok ps => Ok (petitions_to_json ps)
     | Throw e => Throw e
     end, d).

(** The [GET] branch of [onRequest]. *)
Definition get (context : EventContext) : M D Response :=
  let request := request context in
  let env := env context in
  let type := searchParams_get "type" request in
  let limit := ParseInt.parseInt (or_else (searchParams_get "limit" request) "50") None in
  let offset := ParseInt.parseInt (or_else (searchParams_get "offset" request) "0") None in
  let userId := searchParams_get "userId" request in
  let categoryParams := searchParams_getAll "category[]" request in
  let categoryIds :=
    if (Z.of_nat (length categoryParams) >? 0) then
      Some (omap (fun id => ParseInt.parseInt (Js.trim id) None) categoryParams)
    else None in
  let cacheKey := generateCacheKey request "petitions" in
  fun w =>
    let respond petitions :=
      createCachedResponse petitions request env (5 * 60) (clock w) in
    match userId with
    | Some (String c rest as userId) =>
        match data_user context with
        | None =>
            ret (createCachedErrorResponse
                   (StringValue "Authentication required for user-specific petitions")
                   request env 401) w
        | Some _ =>
            (let* petitions :=
               getOrSetCache cacheKey (list_loader (getUserPetitions userId)) (5 * 60) in
             ret (respond petitions))%js w
        end
    | _ =>
        (let* petitions :=
           getOrSetCache cacheKey
             (list_loader (getAllPetitions limit offset type categoryIds)) (5 * 60) in
         ret (respond petitions))%js w
    end.

Definition onRequest (context : EventContext) : M D Response :=
  let request := request context in
  let env := env context in
  match handleCORS request env with
  | Some corsResponse => ret corsResponse
  | None =>
      try_catch
        (if String.eqb (method request) "POST" then
           match data_user context with
           | None =>
               ret (createCachedErrorResponse
                      (StringValue "Authentication required") request env 401)
           | Some user => post context user
           end
         else if String.eqb (method request) "GET" then get context
         else
           ret (createCachedErrorResponse
                  (StringValue "Method not allowed") request env 405))
        (fun error => ret (createCachedErrorResponse error request env 500))
  end.

End Handler.
End PetitionsIndex.

(** *** functions/api/petitions/[id].ts *)

Module PetitionById.
Section Handler.
Context {D : Type} `{DatabaseService D} `{Locale}.

(** The multipart branch of the update handler: only the fields that were
    provided, and the image. *)
Definition update_from_form (formData : FormData) : json * option File :=
  let title := getStringField formData "title" in
  let description := getStringField formData "description" in
  let type := getStringField formData "type" in
  let location := getStringField formData "location" in
  let targetCount := getIntegerField formData "target_count" in
  let categoryIds := getJsonArrayField formData "category_ids" in
  let status := getStringField formData "status" in
  (JObj (opt_property "title" JStr title
         ++ opt_property "description" JStr description
         ++ opt_property "type" JStr type
         ++ opt_property "location" JStr location
         ++ opt_property "target_count" JNum targetCount
         ++ opt_property "category_ids" JArr categoryIds
         ++ opt_property "status" JStr status),
   getFileField formData "image").

(** The data fetcher of the [GET] branch: the petition, or the error
    [Petition not found]. *)
Definition petition_loader (petitionId : Z) : Loader D :=
  fun d =>
    (match getPetitionById petitionId d with
     | Ok (Some result) => Ok (Petition_to_json result)
     | Ok None => Throw (ErrorObject "Petition not found")
     | Throw e => Throw e
     end, d).

(** The [GET], [PUT] and [DELETE] branches of [onRequest]. *)
Definition get (context : EventContext) (petitionId : Z) : M D Response :=
  let request := request context in
  let env := env context in
  let cacheKey := generateCacheKey request "petition" in
  fun w =>
    (let* petition := getOrSetCache cacheKey (petition_loader petitionId) (10 * 60) in
     ret (createCachedResponse petition request env (10 * 60) (clock w)))%js w.

Definition put (context : EventContext) (petitionId : Z) : M D Response :=
  let request := request context in
  let env := env context in
  let contentType := or_else (headers_get "content-type" request) EmptyString in
  (let* body :=
     (if Js.includes "multipart/form-data" contentType then
        let* formData := await_formData request in
        ret (update_from_form formData)
      else
        let* petitionData := await_json request in
        ret (petitionData, None)) in
   let '(petitionData, imageFile) := body in
   match Zod.safeParse updatePetitionSchema petitionData with
   | Zod.Failure issues =>
       ret (createValidationErrorResponse (formatZodError issues) request env)
   | Zod.Success validatedData =>
       let* updatedPetition :=
         db_mutate "updatePetition" (updatePetition petitionId validatedData) in
       let* updatedPetition := attach_image petitionId imageFile updatedPetition in
       do* invalidateCachePattern "petitions:" in
       do* invalidateCachePattern "petition:" in
       ret (createSuccessResponse (Petition_to_json updatedPetition))
   end)%js.

Definition delete (petitionId : Z) : M D Response :=
  (do* db_mutate "deletePetition" (deletePetition petitionId) in
   do* invalidateCachePattern "petitions:" in
   do* invalidateCachePattern "petition:" in
   ret (createSuccessResponse
          (JObj [("message", JStr "Petition deleted successfully")]%string)))%js.

Definition onRequest (context : EventContext) : M D Response :=
  let request := request context in
  let env := env context in
  match handleCORS request env with
  | Some corsResponse => ret corsResponse
  | None =>
      try_catch
        (match ParseInt.parseInt (params_id context) None with
         | None =>
             ret (createCachedErrorResponse
                    (StringValue "Invalid petition ID") request env 400)
         | Some petitionId =>
             if String.eqb (method request) "GET" then get context petitionId
             else if String.eqb (method request) "PUT" then put context petitionId
             else if String.eqb (method request) "DELETE" then delete petitionId
             else
               ret (createCachedErrorResponse
                      (StringValue "Method not allowed") request env 405)
         end)
        (fun error => ret (createCachedErrorResponse error request env 500))
  end.

(** Modelled from the spec: the guard of section 4.6 in front of a mutation
    of a petition ("permit the action iff they match; otherwise produce a
    forbidden result").  The router that applies [requirePetitionOwnership]
    to a [PUT] before it hands the request to [onRequest] is not among the
    sources at hand. *)
Definition guarded_onRequest (context : EventContext) (petitionId : Z) : M D Response :=
  (let* guard := requirePetitionOwnership (request context) (env context) petitionId in
   match guard with
   | inr response => ret response
   | inl user =>
       onRequest {| request := request context; env := env context;
                    params_id := params_id context; data_user := Some user |}
   end)%js.

End Handler.
End PetitionById.

(** ** A store and worlds for the examples *)

Module Examples.

(** A petition table in memory. *)
Record MemDb := {
  rows : gmap Z Petition;
  next_id : Z;
}.

Definition new_petition (i : Z) (data : CreateData) : Petition :=
  {| id := i; title := c_title data; description := c_description data;
     type := c_type data; location := c_location data;
     target_count := c_target_count data; current_count := 0;
     petition_status := "active"; created_by := c_created_by data;
     image_url := default EmptyString (c_image_url data);
     category_ids := default [] (c_category_ids data);
     created_at := "2025-01-01T00:00:00.000Z"; due_date := "2025-03-01T00:00:00.000Z" |}.

Definition patch (data : UpdateData) (p : Petition) : Petition :=
  {| id := id p;
     title := default (title p) (u_title data);
     description := default (description p) (u_description data);
     type := default (type p) (u_type data);
     location := match u_location data with Some l => Some l | None => location p end;
     target_count := default (target_count p) (u_target_count data);
     current_count := current_count p;
     petition_status := default (petition_status p) (u_status data);
     created_by := created_by p;
     image_url := default (image_url p) (u_image_url data);
     category_ids := default (category_ids p) (u_category_ids data);
     created_at := created_at p; due_date := due_date p |}.

#[export] Instance MemDb_service : DatabaseService MemDb := {|
  getPetitionById i d := Ok (rows d !! i);
  getUserPetitions user d :=
    Ok (filter (fun p => created_by p = user) (snd <$> map_to_list (rows d)));
  getAllPetitions _ _ _ _ d := Ok (snd <$> map_to_list (rows d));
  createPetition data d :=
    let p := new_petition (next_id d) data in
    (Ok p, {| rows := <[next_id d := p]> (rows d); next_id := next_id d + 1 |});
  updatePetition i data d :=
    match rows d !! i with
    | Some p =>
        let p' := patch data p in
        (Ok p', {| rows := <[i := p']> (rows d); next_id := next_id d |})
    | None => (Throw (ErrorObject "Petition not found"), d)
    end;
  deletePetition i d := (Ok tt, {| rows := delete i (rows d); next_id := next_id d |});
|}.

Definition a_title : string := "Save the old town library".

Definition a_description : string :=
  "The town library has served four generations of readers and must stay open for the children of this town.".

Definition petition_1 : Petition :=
  {| id := 1; title := a_title; description := a_description; type := "national";
     location := None; target_count := 1000; current_count := 0;
     petition_status := "active"; created_by := "alice"; image_url := EmptyString;
     category_ids := []; created_at := "2025-01-01T00:00:00.000Z";
     due_date := "2025-03-01T00:00:00.000Z" |}.

Definition db_1 : MemDb := {| rows := {[ 1 := petition_1 ]}; next_id := 2 |}.

Definition noon : Clock :=
  {| epoch_seconds := 1000;
     toUTCString := "Wed, 01 Jan 2025 12:00:00 GMT";
     toISOString := "2025-01-01T12:00:00.000Z" |}.

Definition alice : AuthenticatedUser :=
  {| user_id := "alice"; user_email := "alice@example.org"; user_name := "Alice";
     user_image := None |}.

Definition bob : AuthenticatedUser :=
  {| user_id := "bob"; user_email := "bob@example.org"; user_name := "Bob";
     user_image := None |}.

(** The session provider knows two cookies. *)
Definition sessions (r : SessionRequest) : AuthOutcome :=
  if String.eqb (session_cookie r) "session=alice" then AuthResponds true (Some (Some alice))
  else if String.eqb (session_cookie r) "session=bob" then AuthResponds true (Some (Some bob))
  else AuthResponds true (Some None).

Definition entry (text : string) : KVEntry :=
  {| kv_value := text; kv_expiration := 2000 |}.

Definition world (cache : option KVNamespace) : World MemDb :=
  {| env_DB := db_1; env_CACHE := cache; env_IMAGES := ∅; images_faults := [];
     auth_provider := sessions; clock := noon; trace := [] |}.

Definition kv_of (entries : list (string * KVEntry)) (faults : list bool) : KVNamespace :=
  {| kv_entries := list_to_map entries; kv_faults := faults |}.

Definition development : Env := {| ENVIRONMENT := None; NODE_ENV := None |}.
Definition production : Env := {| ENVIRONMENT := Some "production"%string; NODE_ENV := None |}.

Definition a_request (m path : string) (query : list (string * string))
    (hs : Headers) (payload : option json) : Request :=
  {| method := m; url_origin := "https://petition.ph"; pathname := path;
     searchParams := query; req_headers := hs; req_formData := None;
     req_json := payload |}.

Definition a_context (r : Request) (i : string) (user : option AuthenticatedUser)
    : EventContext :=
  {| request := r; env := development; params_id := i; data_user := user |}.

(** The response of a run that returned one. *)
Definition response_of {A} (run : Result Response * A) : Response :=
  match fst run with
  | Ok response => response
  | Throw _ => {| status := 0; body := None; headers := [] |}
  end.

Definition cached_listing : string * KVEntry := ("petitions:/api/petitions"%string, entry "[]").
Definition cached_petition : string * KVEntry := ("petition:/api/petitions/1"%string, entry "{}").

Definition retitle : json := JObj [("title"%string, JStr "A brand new title")].

Definition local_payload (loc : list (string * json)) : json :=
  JObj ([("title", JStr a_title);
         ("description", JStr a_description);
         ("type", JStr "local")]%string ++ loc).

End Examples.

(** ** Vocabulary of the properties *)

#[global] Instance Event_eq_dec : EqDecision Event.
Proof. solve_decision. Defined.

(** [{{ P }} m {{ Q }}]: from a world that satisfies [P], [m] ends in a result
    and a world that satisfy [Q]. *)
Definition hoare {D A} (P : World D -> Prop) (m : M D A) (Q : Result A -> World D -> Prop)
    : Prop :=
  forall w, P w -> Q (fst (m w)) (snd (m w)).

(** The entries of the store bound as [env.CACHE]; none when it is unbound. *)
Definition cache_entries {D} (w : World D) : gmap string KVEntry :=
  match env_CACHE w with
  | Some kv => kv_entries kv
  | None => ∅
  end.

(** Whether the [n]-th coming call to the store fails. *)
Definition kv_fault_at {D} (n : nat) (w : World D) : bool :=
  match env_CACHE w with
  | Some kv => nth n (kv_faults kv) false
  | None => false
  end.

(** No call to the store fails from now on. *)
Definition cache_reliable {D} (w : World D) : Prop :=
  forall kv, env_CACHE w = Some kv -> kv_faults kv = [].

(** How often a loader has been invoked. *)
Definition loader_calls {D} (w : World D) : nat :=
  count_occ Event_eq_dec (trace w) LoaderCall.

(** The key has no live entry. *)
Definition uncached {D} (key : string) (w : World D) : Prop :=
  forall e, cache_entries w !! key = Some e ->
            kv_live (epoch_seconds (clock w)) e = false.

(** A payload of [n] bytes: a string of [n] letters. *)
Definition letters (n : positive) : string :=
  Pos.iter (String "a"%char) EmptyString n.

(** The collation orders the names: any two of them are comparable, the
    comparison is transitive, and two names that compare as equal are the same
    name. *)
Definition orders_names `{Locale} (names : list string) : Prop :=
  (forall a b, In a names -> In b names ->
     localeCompare a b <= 0 \/ localeCompare b a <= 0)
  /\ (forall a b c, In a names -> In b names -> In c names ->
       localeCompare a b <= 0 -> localeCompare b c <= 0 -> localeCompare a c <= 0)
  /\ (forall a b, In a names -> In b names ->
       localeCompare a b <= 0 -> localeCompare b a <= 0 -> a = b).

(** The values of the parameters called [name], in their order: what
    [searchParams.getAll(name)] reads from a list of parameters. *)
Definition values_of (name : string) (params : list (string * string)) : list string :=
  snd <$> filter (fun kv => String.eqb (fst kv) name = true) params.

(** [a] does not come after [b] for a comparator of [sort]. *)
Definition precedes {A} (compare : A -> A -> Z) (a b : A) : Prop :=
  compare a b <= 0.

(** [p] does not come after [q] in the order of the names. *)
Definition name_le `{Locale} : string * string -> string * string -> Prop :=
  precedes compare_names.

(** The properties of a create payload other than [type], [location] and
    [created_by] pass their schemas. *)
Definition other_fields_valid (fields : list (string * json)) : Prop :=
  exists t d n c i,
    Zod.at_key "title" Fields.title fields = (Some t, [])
    /\ Zod.at_key "description" Fields.description fields = (Some d, [])
    /\ Zod.at_key "target_count" Fields.target_count fields = (Some n, [])
    /\ Zod.at_key "category_ids" Fields.category_ids fields = (Some c, [])
    /\ Zod.at_key "image_url" Fields.image_url fields = (Some i, []).

(** The payload has no [location], or one that is empty once trimmed. *)
Definition location_blank (fields : list (string * json)) : Prop :=
  Zod.property "location" fields = None
  \/ exists s, Zod.property "location" fields = Some (JStr s) /\ Js.trim s = EmptyString.

Definition location_issue : Zod.Issue :=
  {| Zod.path := ["location"%string];
     Zod.issue_message := "Location is required for local petitions";
     Zod.continues := true |}.

Definition location_error : FieldError :=
  {| field := "location"; message := "Location is required for local petitions" |}.

Definition live_entry (now : Z) (o : option KVEntry) : bool :=
  match o with
  | Some e => kv_live now e
  | None => false
  end.

(** The entries, as a lookup, after the live entries under a prefix are gone. *)
Definition purge (now : Z) (prefix : string) (L : string -> option KVEntry)
    : string -> option KVEntry :=
  fun k => if Js.startsWith prefix k && live_entry now (L k) then None else L k.

(** The clock reads [c], the store fails no call, and its entries are [L]. *)
Definition reliable_cache {D} (c : Clock) (L : string -> option KVEntry) (w : World D)
    : Prop :=
  clock w = c /\ cache_reliable w /\ forall k, cache_entries w !! k = L k.

(** A computation that leaves the store and the clock alone. *)
Definition preserves_cache {D A} (m : M D A) : Prop :=
  forall w, env_CACHE (snd (m w)) = env_CACHE w /\ clock (snd (m w)) = clock w.

(** Every response a computation returns satisfies [S]. *)
Definition responds {D} (S : Response -> Prop) (m : M D Response) : Prop :=
  forall w response w', m w = (Ok response, w') -> S response.

(** A step that leaves the world as it was. *)
Definition pure_step {D A} (m : M D A) : Prop := forall w, snd (m w) = w.

(** Every response of [m] outside [late] is given with the world as it was:
    no collaborator was called before it. *)
Definition answers_early {D} (late : Response -> Prop) (m : M D Response) : Prop :=
  forall w response w', m w = (Ok response, w') -> late response \/ w' = w.

(** Unless [m] answers with a response of [S], the cache store is as it was. *)
Definition keeps_cache_unless {D} (S : Response -> Prop) (m : M D Response) : Prop :=
  forall w, (exists response, fst (m w) = Ok response /\ S response)
            \/ env_CACHE (snd (m w)) = env_CACHE w.

(** [m] answers, and with a response of [S]. *)
Definition succeeds {D} (S : Response -> Prop) (m : M D Response) : Prop :=
  forall w, exists response, fst (m w) = Ok response /\ S response.

(** The request [getAuthenticatedUser] sends for a request: the session
    endpoint on the same origin, with the cookie and the user agent. *)
Definition session_request_for (request : Request) : SessionRequest :=
  {| session_url := url_origin request +:+ "/auth/session";
     session_cookie := or_else (headers_get "Cookie" request) EmptyString;
     session_user_agent := or_else (headers_get "User-Agent" request) EmptyString |}.

(** A computation that leaves the database and the image bucket alone. *)
Definition keeps_database {D A} (m : M D A) : Prop :=
  forall w, env_DB (snd (m w)) = env_DB w /\ env_IMAGES (snd (m w)) = env_IMAGES w.

(** The response carries the CORS headers computed for the request: the
    origin policy of [getCorsHeaders] and the credentials flag. *)
Definition cors_aware (request : Request) (env : Env) (response : Response) : Prop :=
  obj_get "Access-Control-Allow-Origin" (headers response)
  = obj_get "Access-Control-Allow-Origin" (getCorsHeaders request env)
  /\ obj_get "Access-Control-Allow-Credentials" (headers response) = Some "true"%string.

(** The response carries the legacy headers: any origin, no credentials flag. *)
Definition cors_legacy (response : Response) : Prop :=
  obj_get "Access-Control-Allow-Origin" (headers response) = Some "*"%string
  /\ obj_get "Access-Control-Allow-Credentials" (headers response) = None.

(** What a computation may do to the entry of each key of the cache store:
    [R k before after] relates the entry of [k] before and after. *)
Definition cache_change {D A} (R : string -> option KVEntry -> option KVEntry -> Prop)
    (m : M D A) : Prop :=
  forall w k, R k (cache_entries w !! k) (cache_entries (snd (m w)) !! k).

(** The entry is as it was unless the key is one of [K]. *)
Definition only_keys (K : string -> Prop) : string -> option KVEntry -> option KVEntry -> Prop :=
  fun k before after => after = before \/ K k.

(** The entry is as it was, or it is gone and the key is one of [K]. *)
Definition removed_in (K : string -> Prop)
    : string -> option KVEntry -> option KVEntry -> Prop :=
  fun k before after => after = before \/ (after = None /\ K k).

(** A key of one of the two namespaces of the petition handlers. *)
Definition petition_key (k : string) : Prop :=
  Js.startsWith "petitions:" k = true \/ Js.startsWith "petition:" k = true.

(** The number a decimal numeral denotes, the digits read from the left. *)
Fixpoint uint_value (d : Decimal.uint) (acc : Z) : Z :=
  match d with
  | Decimal.Nil => acc
  | Decimal.D0 l => uint_value l (acc * 10 + 0)
  | Decimal.D1 l => uint_value l (acc * 10 + 1)
  | Decimal.D2 l => uint_value l (acc * 10 + 2)
  | Decimal.D3 l => uint_value l (acc * 10 + 3)
  | Decimal.D4 l => uint_value l (acc * 10 + 4)
  | Decimal.D5 l => uint_value l (acc * 10 + 5)
  | Decimal.D6 l => uint_value l (acc * 10 + 6)
  | Decimal.D7 l => uint_value l (acc * 10 + 7)
  | Decimal.D8 l => uint_value l (acc * 10 + 8)
  | Decimal.D9 l => uint_value l (acc * 10 + 9)
  end.

(** What may follow a numeral: no digit, and no fraction or exponent. *)
Definition number_end (rest : string) : bool :=
  match rest with
  | String c _ =>
      negb (JSON.is_digit c) && negb (Ascii.eqb c ".") && negb (Ascii.eqb c "e")
      && negb (Ascii.eqb c "E")
  | EmptyString => true
  end.

(** The characters a numeral, and a JSON text, may begin with. *)
Definition numeral_head (c : ascii) : bool := JSON.is_digit c || Ascii.eqb c "-".

Definition value_head (c : ascii) : bool :=
  numeral_head c || Ascii.eqb c JSON.dquote || Ascii.eqb c "[" || Ascii.eqb c "{"
  || Ascii.eqb c "n" || Ascii.eqb c "t" || Ascii.eqb c "f".

(** The fuel [parse_value] needs for the text of a value. *)
Fixpoint parse_fuel (v : json) : nat :=
  match v with
  | JArr items => S (fold_right (fun x acc => S (Nat.max (parse_fuel x) acc)) O items)
  | JObj fields =>
      S (fold_right (fun kv acc => S (Nat.max (let '(_, x) := kv in parse_fuel x) acc))
           O fields)
  | _ => 1%nat
  end.

(** [parse_value] reads back the text of [v], whatever follows it. *)
Definition round_trips (v : json) : Prop :=
  forall fuel rest,
    (parse_fuel v <= fuel)%nat -> number_end rest = true ->
    JSON.parse_value fuel (JSON.stringify v +:+ rest) = Some (v, rest).

(** The body of a response is the JSON text of a value, unless the response
    has no content (204 and 304). *)
Definition json_body (response : Response) : Prop :=
  (body response = None /\ (status response = 204 \/ status response = 304))
  \/ (exists v, body response = Some (JSON.stringify v)
                /\ JSON.parse (JSON.stringify v) = Some v
                /\ status response <> 204 /\ status response <> 304).

(** The world when the clock reads [now]. *)
Definition at_time {D} (now : Clock) (w : World D) : World D :=
  {| env_DB := env_DB w; env_CACHE := env_CACHE w; env_IMAGES := env_IMAGES w;
     images_faults := images_faults w; auth_provider := auth_provider w;
     clock := now; trace := trace w |}.

(** Two responses that differ at most in the header [Last-Modified]. *)
Definition same_but_date (r r' : Response) : Prop :=
  status r = status r'
  /\ body r = body r'
  /\ forall name, name <> "Last-Modified" ->
                  obj_get name (headers r) = obj_get name (headers r').

(** * Properties *)

Import Examples.

Local Open Scope string_scope.
Local Open Scope Z_scope.

(** ** Lists and strings *)

Lemma list_includes_In (xs : list string) (x : string) :
  list_includes xs x = true <-> In x xs.
Proof.
  unfold list_includes. rewrite existsb_exists. split.
  - intros (y & Hy & E). apply String.eqb_eq in E. now subst.
  - intros Hx. exists x. split; [exact Hx | apply String.eqb_refl].
Qed.

Lemma allowedOrigins_nonempty (env : Env) (o : string) :
  In o (allowedOrigins env) -> o <> EmptyString.
Proof.
  unfold allowedOrigins, productionOrigins, developmentOrigins.
  destruct (isProduction env); simpl; intros Ho;
    repeat (destruct Ho as [<- | Ho]; [discriminate |]); contradiction.
Qed.

Lemma or_else_nonempty (o fallback : string) :
  o <> EmptyString -> or_else (Some o) fallback = o.
Proof.
  intros Ho. unfold or_else. destruct (String.eqb_spec o EmptyString); congruence.
Qed.

(** ** CORS *)

(** C9. [getCorsHeaders] always sends [Access-Control-Allow-Credentials: true];
    it echoes the request's Origin when the origin is in the allow-list and
    sends the wildcard when the Origin header is absent or not in the list;
    outside production the allow-list holds the production and the localhost
    origins. *)
Theorem getCorsHeaders_origin_policy (request : Request) (env : Env) :
  let h := getCorsHeaders request env in
  obj_get "Access-Control-Allow-Credentials" h = Some "true"
  /\ (forall o, headers_get "Origin" request = Some o ->
                In o (allowedOrigins env) ->
                obj_get "Access-Control-Allow-Origin" h = Some o)
  /\ (headers_get "Origin" request = None
      \/ (exists o, headers_get "Origin" request = Some o /\ ~ In o (allowedOrigins env)) ->
      obj_get "Access-Control-Allow-Origin" h = Some "*")
  /\ (isProduction env = false ->
      forall o, In o productionOrigins \/ In o developmentOrigins ->
                In o (allowedOrigins env))
  /\ (isProduction env = true -> allowedOrigins env = productionOrigins).
Proof.
  cbv zeta. unfold getCorsHeaders. repeat split.
  - intros o Ho Hin. rewrite Ho.
    pose proof (allowedOrigins_nonempty env o Hin) as Hne.
    rewrite (or_else_nonempty o EmptyString Hne).
    apply list_includes_In in Hin. rewrite Hin.
    now rewrite (or_else_nonempty o "*" Hne).
  - intros [Hnone | (o & Ho & Hout)].
    + rewrite Hnone. simpl.
      destruct (list_includes (allowedOrigins env) EmptyString); reflexivity.
    + rewrite Ho.
      destruct (list_includes (allowedOrigins env) (or_else (Some o) EmptyString)) eqn:E.
      * apply list_includes_In in E.
        destruct (String.eqb_spec o EmptyString) as [-> | Hne].
        -- now apply allowedOrigins_nonempty in E.
        -- rewrite (or_else_nonempty o EmptyString Hne) in E. contradiction.
      * reflexivity.
  - intros Hdev o Ho. unfold allowedOrigins. rewrite Hdev.
    apply in_or_app. exact Ho.
  - intros Hprod. unfold allowedOrigins. now rewrite Hprod.
Qed.

(** A development request from the Vite dev server is echoed; a foreign origin
    gets the wildcard together with the credentials flag. *)
Lemma getCorsHeaders_origin_policy_witness :
  obj_get "Access-Control-Allow-Origin"
    (getCorsHeaders (a_request "GET" "/api/petitions" [] [("Origin", "http://localhost:5173")] None)
       development) = Some "http://localhost:5173"
  /\ obj_get "Access-Control-Allow-Origin"
       (getCorsHeaders (a_request "GET" "/api/petitions" [] [("Origin", "https://evil.example")] None)
          production) = Some "*".
Proof.
  split.
  - apply (getCorsHeaders_origin_policy
             (a_request "GET" "/api/petitions" [] [("Origin", "http://localhost:5173")] None)
             development).
    + reflexivity.
    + vm_compute. tauto.
  - apply (getCorsHeaders_origin_policy
             (a_request "GET" "/api/petitions" [] [("Origin", "https://evil.example")] None)
             production).
    right. exists "https://evil.example". split; [reflexivity |].
    vm_compute. intros [H | [H | []]]; discriminate.
Defined.


(** ** ETag and conditional responses *)

Lemma opt_is_Some (o : option string) (s : string) :
  opt_is o s = true <-> o = Some s.
Proof.
  destruct o as [x |]; simpl.
  - rewrite String.eqb_eq. split; congruence.
  - split; discriminate.
Qed.

(** C8. The fingerprint is a function of the serialized payload, a quoted
    base-36 token; a request whose If-None-Match equals it gets a 304 with no
    body, every other request gets the serialized payload with status 200;
    both carry the ETag and the Cache-Control header. *)
Theorem createCachedResponse_conditional
    (data : json) (request : Request) (env : Env) (cacheMaxAge : Z) (now : Clock) :
  let etag := generateETag data in
  let response := createCachedResponse data request env cacheMaxAge now in
  (forall data', JSON.stringify data' = JSON.stringify data -> generateETag data' = etag)
  /\ etag = String JSON.dquote
              (Js.toString36 (Z.abs (etag_hash (JSON.stringify data) 0))
               +:+ String JSON.dquote EmptyString)
  /\ (headers_get "If-None-Match" request = Some etag ->
      status response = 304 /\ body response = None)
  /\ (headers_get "If-None-Match" request <> Some etag ->
      status response = 200 /\ body response = Some (JSON.stringify data))
  /\ obj_get "ETag" (headers response) = Some etag
  /\ obj_get "Cache-Control" (headers response)
     = Some ("public, max-age=" +:+ Js.number_toString cacheMaxAge).
Proof.
  cbv zeta. split; [| split; [| split; [| split]]].
  - intros data' E. unfold generateETag. now rewrite E.
  - reflexivity.
  - intros Hmatch. apply opt_is_Some in Hmatch.
    unfold createCachedResponse. now rewrite Hmatch.
  - intros Hdiff. unfold createCachedResponse.
    destruct (opt_is (headers_get "If-None-Match" request) (generateETag data)) eqn:E.
    + apply opt_is_Some in E. contradiction.
    + now split.
  - unfold createCachedResponse.
    destruct (opt_is (headers_get "If-None-Match" request) (generateETag data));
      split; reflexivity.
Qed.

(** A second request that presents the fingerprint of the first response is
    answered with 304 and no body. *)
Lemma createCachedResponse_conditional_witness :
  let data := Petition_to_json petition_1 in
  let revalidation :=
    a_request "GET" "/api/petitions/1" [] [("If-None-Match", generateETag data)] None in
  status (createCachedResponse data revalidation development 600 noon) = 304
  /\ body (createCachedResponse data revalidation development 600 noon) = None.
Proof.
  cbv zeta.
  apply (createCachedResponse_conditional (Petition_to_json petition_1)
           (a_request "GET" "/api/petitions/1" []
              [("If-None-Match", generateETag (Petition_to_json petition_1))] None)
           development 600 noon).
  vm_compute. reflexivity.
Defined.

(** ** The monad *)

Lemma hoare_ret {D A} (P : World D -> Prop) (a : A) (Q : Result A -> World D -> Prop) :
  (forall w, P w -> Q (Ok a) w) -> hoare P (ret a) Q.
Proof. intros H w Hw. now apply H. Qed.

Lemma hoare_throw {D A} (P : World D -> Prop) (e : JsValue) (Q : Result A -> World D -> Prop) :
  (forall w, P w -> Q (Throw e) w) -> hoare P (throw e) Q.
Proof. intros H w Hw. now apply H. Qed.

Lemma hoare_bind {D A B} (P : World D -> Prop) (m : M D A) (f : A -> M D B)
    (R : Result A -> World D -> Prop) (Q : Result B -> World D -> Prop) :
  hoare P m R ->
  (forall a, hoare (R (Ok a)) (f a) Q) ->
  (forall e w, R (Throw e) w -> Q (Throw e) w) ->
  hoare P (bind m f) Q.
Proof.
  intros Hm Hf He w Hw. specialize (Hm w Hw). unfold bind.
  destruct (m w) as [[a | e] w1]; simpl in *.
  - now apply Hf.
  - now apply He.
Qed.

Lemma hoare_try_catch {D A} (P : World D -> Prop) (m : M D A) (handler : JsValue -> M D A)
    (R Q : Result A -> World D -> Prop) :
  hoare P m R ->
  (forall a w, R (Ok a) w -> Q (Ok a) w) ->
  (forall e, hoare (R (Throw e)) (handler e) Q) ->
  hoare P (try_catch m handler) Q.
Proof.
  intros Hm Hok Hh w Hw. specialize (Hm w Hw). unfold try_catch.
  destruct (m w) as [[a | e] w1]; simpl in *.
  - now apply Hok.
  - now apply Hh.
Qed.

Lemma hoare_consequence {D A} (P P' : World D -> Prop) (m : M D A)
    (Q Q' : Result A -> World D -> Prop) :
  hoare P' m Q' ->
  (forall w, P w -> P' w) ->
  (forall r w, Q' r w -> Q r w) ->
  hoare P m Q.
Proof. intros Hm HP HQ w Hw. apply HQ, Hm, HP, Hw. Qed.

(** A [try]/[catch] whose handler returns never throws. *)
Lemma try_catch_ret_total {D A} (m : M D A) (a : A) (w : World D) :
  exists a' w', try_catch m (fun _ => ret a) w = (Ok a', w').
Proof.
  unfold try_catch, ret. destruct (m w) as [[x | e] w1]; eauto.
Qed.

(** ** The cache-aside layer *)

Lemma getCachedData_unbound {D} (key : string) (w : World D) :
  env_CACHE w = None -> getCachedData key w = (Ok JNull, w).
Proof. intros E. unfold getCachedData, try_catch. now rewrite E. Qed.



Lemma setCachedData_oversize {D} (key : string) (data : json) (ttl : Z) (w : World D) :
  JSON.blob_size (JSON.stringify data) > cache_size_limit ->
  setCachedData key data ttl w = (Ok tt, w).
Proof.
  intros Hbig. unfold setCachedData, try_catch.
  apply Z.gtb_gt in Hbig. now rewrite Hbig.
Qed.

Lemma setCachedData_fits {D} (key : string) (data : json) (ttl : Z) (w : World D) :
  JSON.blob_size (JSON.stringify data) <= cache_size_limit ->
  setCachedData key data ttl w
  = try_catch (kv_put key (JSON.stringify data) ttl) (fun _ => ret tt) w.
Proof.
  intros Hfit. unfold setCachedData, try_catch.
  destruct (JSON.blob_size (JSON.stringify data) >? cache_size_limit) eqn:E;
    [apply Z.gtb_gt in E; lia | reflexivity].
Qed.

(** A read of a key without a live entry is a miss, whatever the store does. *)
Lemma getCachedData_uncached {D} (key : string) (w : World D) :
  uncached key w -> fst (getCachedData key w) = Ok JNull.
Proof.
  intros Hun. unfold getCachedData, try_catch, kv_get, kv_call.
  unfold uncached, cache_entries in Hun.
  destruct (env_CACHE w) as [kv |]; [| reflexivity].
  destruct (kv_faults kv) as [| [] rest]; simpl; try reflexivity.
  - destruct (kv_entries kv !! key) as [e |]; [| reflexivity].
    now rewrite (Hun e eq_refl).
  - destruct (kv_entries kv !! key) as [e |]; [| reflexivity].
    now rewrite (Hun e eq_refl).
Qed.

(** *** Sizes *)

Lemma blob_size_length (s : string) : Z.of_nat (String.length s) <= JSON.blob_size s.
Proof.
  induction s as [| c s IH]; [reflexivity |].
  cbn [String.length JSON.blob_size].
  destruct (Js.charCode c <? 128); lia.
Qed.

Lemma length_append (s t : string) :
  String.length (s +:+ t) = (String.length s + String.length t)%nat.
Proof. induction s as [| c s IH]; simpl; [reflexivity | now rewrite IH]. Qed.

Lemma escape_length (c : ascii) : (1 <= String.length (JSON.escape c))%nat.
Proof.
  unfold JSON.escape.
  repeat match goal with |- context [if ?b then _ else _] => destruct b end; simpl; lia.
Qed.

Lemma escape_all_length (s : string) :
  (String.length s <= String.length (JSON.escape_all s))%nat.
Proof.
  induction s as [| c s IH]; [reflexivity |].
  cbn [JSON.escape_all String.length]. rewrite length_append.
  pose proof (escape_length c). lia.
Qed.

Lemma letters_length (n : positive) : String.length (letters n) = Pos.to_nat n.
Proof.
  unfold letters. induction n as [| n IH] using Pos.peano_ind.
  - reflexivity.
  - rewrite Pos.iter_succ. cbn [String.length]. rewrite IH. lia.
Qed.

(** A string of [n] letters serializes to more than [n] bytes. *)
Lemma letters_size (n : positive) :
  JSON.blob_size (JSON.stringify (JStr (letters n))) > Z.pos n.
Proof.
  pose proof (blob_size_length (JSON.stringify (JStr (letters n)))) as Hsize.
  cbn [JSON.stringify] in Hsize. unfold JSON.quote in Hsize at 1.
  cbn [String.length] in Hsize. rewrite length_append in Hsize.
  pose proof (escape_all_length (letters n)) as Hesc.
  rewrite letters_length in Hesc.
  cbn [JSON.stringify]. cbn [String.length] in Hsize. lia.
Qed.

(** C7 (amended). A payload whose serialized size exceeds 25 * 1024 * 1024
    bytes is not handed to the store: nothing changes, a later read of the key
    gives what it gave before, a miss when the key was not cached.  A payload
    at or below the threshold is put with the given ttl; the entry is written
    unless the put fails. *)
Theorem setCachedData_size_limit {D} (key : string) (data : json) (ttl : Z) (w : World D) :
  let text := JSON.stringify data in
  let w' := snd (setCachedData key data ttl w) in
  (JSON.blob_size text > 25 * 1024 * 1024 ->
   w' = w
   /\ fst (getCachedData key w') = fst (getCachedData key w)
   /\ (uncached key w -> fst (getCachedData key w') = Ok JNull))
  /\ (JSON.blob_size text <= 25 * 1024 * 1024 ->
      forall kv, env_CACHE w = Some kv ->
        trace w' = (trace w ++ [KvPut key text ttl])%list
        /\ (kv_fault_at 0 w = false ->
            cache_entries w'
            = <[key := {| kv_value := text;
                          kv_expiration := epoch_seconds (clock w) + ttl |}]>
                (cache_entries w))
        /\ (kv_fault_at 0 w = true -> cache_entries w' = cache_entries w)).
Proof.
  cbv zeta. split.
  - intros Hbig. rewrite (setCachedData_oversize key data ttl w Hbig). simpl.
    repeat split. apply getCachedData_uncached.
  - intros Hfit kv Hkv. rewrite (setCachedData_fits key data ttl w Hfit).
    unfold try_catch, kv_put, kv_call, kv_fault_at, cache_entries. rewrite Hkv.
    destruct (kv_faults kv) as [| [] rest]; simpl; repeat split; congruence.
Qed.

(** A small payload is written; a later read returns it. *)
Lemma setCachedData_size_limit_witness :
  let w := world (Some (kv_of [] [])) in
  cache_entries (snd (setCachedData "petition:/api/petitions/1" (JNum 7) 600 w))
  = <[ "petition:/api/petitions/1" := {| kv_value := "7"; kv_expiration := 1600 |} ]>
      (cache_entries w).
Proof.
  cbv zeta.
  destruct (setCachedData_size_limit "petition:/api/petitions/1" (JNum 7) 600
              (world (Some (kv_of [] [])))) as [_ Hfit].
  assert (Hsmall : JSON.blob_size (JSON.stringify (JNum 7)) <= 25 * 1024 * 1024)
    by (vm_compute; discriminate).
  destruct (Hfit Hsmall (kv_of [] []) eq_refl) as (_ & Hwritten & _).
  exact (Hwritten eq_refl).
Defined.

(** C7 as stated fails twice: after a skipped oversized write to a key that
    is already cached the next read is a hit, and a small payload is not
    written when the store's put fails. *)
Lemma setCachedData_claim_counterexample :
  let cached := world (Some (kv_of [("petition:/api/petitions/1", entry "1")] [])) in
  let failing := world (Some (kv_of [] [true])) in
  let oversized := JStr (letters 26214400) in
  (JSON.blob_size (JSON.stringify oversized) > 25 * 1024 * 1024
   /\ fst (getCachedData "petition:/api/petitions/1"
             (snd (setCachedData "petition:/api/petitions/1" oversized 600 cached)))
      = Ok (JNum 1))
  /\ (JSON.blob_size (JSON.stringify (JNum 7)) <= 25 * 1024 * 1024
      /\ cache_entries (snd (setCachedData "petition:/api/petitions/1" (JNum 7) 600 failing))
           !! "petition:/api/petitions/1" = None).
Proof.
  cbv zeta.
  assert (Hbig : JSON.blob_size (JSON.stringify (JStr (letters 26214400))) > cache_size_limit).
  { pose proof (letters_size 26214400) as H. unfold cache_size_limit. lia. }
  split; split.
  - exact Hbig.
  - pose proof (setCachedData_oversize "petition:/api/petitions/1"
                  (JStr (letters 26214400)) 600
                  (world (Some (kv_of [("petition:/api/petitions/1", entry "1")] [])))
                  Hbig) as E.
    apply (f_equal snd) in E.
    apply (f_equal (fun w => fst (getCachedData "petition:/api/petitions/1" w))) in E.
    etransitivity; [exact E | reflexivity].
  - vm_compute. discriminate.
  - reflexivity.
Qed.

Lemma loader_calls_log {D} (e : Event) (w : World D) :
  loader_calls (log_event e w)
  = (loader_calls w + (if decide (e = LoaderCall) then 1 else 0))%nat.
Proof.
  unfold loader_calls, log_event. simpl. rewrite count_occ_app. simpl.
  destruct (Event_eq_dec e LoaderCall); destruct (decide (e = LoaderCall));
    try contradiction; reflexivity.
Qed.

(** What a read does to the world: the call is recorded and one fault of the
    schedule is used up. *)
Lemma getCachedData_bound {D} (key : string) (w : World D) (kv : KVNamespace) :
  env_CACHE w = Some kv ->
  exists v,
    getCachedData key w
    = (Ok v,
       set_CACHE (Some {| kv_entries := kv_entries kv; kv_faults := tail (kv_faults kv) |})
         (log_event (KvGet key) w)).
Proof.
  intros E. unfold getCachedData, try_catch, kv_get, kv_call, ret. rewrite E.
  destruct (kv_faults kv) as [| [] rest]; simpl; eauto;
    destruct (kv_entries kv !! key) as [e |]; eauto;
    destruct (kv_live _ e); eauto;
    destruct (JSON.parse (kv_value e)); eauto.
Qed.

(** What a write does to the world. *)
Lemma setCachedData_effect {D} (key : string) (data : json) (ttl : Z) (w : World D) :
  exists w',
    setCachedData key data ttl w = (Ok tt, w')
    /\ env_DB w' = env_DB w
    /\ loader_calls w' = loader_calls w
    /\ (JSON.blob_size (JSON.stringify data) <= cache_size_limit ->
        kv_fault_at 0 w = false ->
        forall kv, env_CACHE w = Some kv ->
          cache_entries w'
          = <[key := {| kv_value := JSON.stringify data;
                        kv_expiration := epoch_seconds (clock w) + ttl |}]>
              (cache_entries w))
    /\ (JSON.blob_size (JSON.stringify data) > cache_size_limit
        \/ kv_fault_at 0 w = true
        \/ env_CACHE w = None ->
        cache_entries w' = cache_entries w).
Proof.
  destruct (Z_le_gt_dec (JSON.blob_size (JSON.stringify data)) cache_size_limit)
    as [Hfit | Hbig].
  - rewrite (setCachedData_fits key data ttl w Hfit).
    unfold try_catch, kv_put, kv_call, ret, kv_fault_at, cache_entries.
    destruct (env_CACHE w) as [kv |] eqn:E.
    + destruct (kv_faults kv) as [| [] rest]; simpl;
        eexists; (split; [reflexivity |]); simpl;
        (split; [reflexivity |]);
        (split; [unfold loader_calls; simpl; rewrite count_occ_app; simpl; lia |]);
        (split; [intros _ Hf kv0 [= <-]; first [reflexivity | discriminate]
                | intros [Hb | [Hf | Hf]]; first [lia | discriminate | reflexivity]]).
    + eexists. split; [reflexivity |]. rewrite E.
      repeat split. intros _ _ kv0 [=].
  - rewrite (setCachedData_oversize key data ttl w Hbig).
    exists w. repeat split. intros Hfit. lia.
Qed.

Lemma getOrSetCache_hit {D}
    (key : string) (loader : Loader D) (ttl : Z) (w : World D) (v : json) :
  fst (getCachedData key w) = Ok v -> v <> JNull ->
  fst (getOrSetCache key loader ttl w) = Ok v
  /\ loader_calls (snd (getOrSetCache key loader ttl w)) = loader_calls w
  /\ env_DB (snd (getOrSetCache key loader ttl w)) = env_DB w.
Proof.
  intros Hv Hnn. unfold getOrSetCache, bind.
  destruct (getCachedData key w) as [[v0 | e] w1] eqn:Eget; simpl in Hv; [| discriminate].
  injection Hv as ->.
  assert (Hw1 : loader_calls w1 = loader_calls w /\ env_DB w1 = env_DB w).
  { destruct (env_CACHE w) as [kv |] eqn:E.
    - destruct (getCachedData_bound key w kv E) as (v' & E').
      rewrite E' in Eget. injection Eget as _ <-.
      split; [| reflexivity].
      unfold set_CACHE, loader_calls. simpl. rewrite count_occ_app. simpl. lia.
    - rewrite (getCachedData_unbound key w E) in Eget. injection Eget as _ <-. now split. }
  destruct v; simpl; tauto.
Qed.

Lemma getOrSetCache_miss {D}
    (key : string) (loader : Loader D) (ttl : Z) (w : World D) (data : json) (d' : D) :
  fst (getCachedData key w) = Ok JNull ->
  loader (env_DB w) = (Ok data, d') ->
  let w' := snd (getOrSetCache key loader ttl w) in
  fst (getOrSetCache key loader ttl w) = Ok data
  /\ loader_calls w' = S (loader_calls w)
  /\ env_DB w' = d'
  /\ (JSON.blob_size (JSON.stringify data) <= cache_size_limit ->
      kv_fault_at 1 w = false ->
      forall kv, env_CACHE w = Some kv ->
        cache_entries w'
        = <[key := {| kv_value := JSON.stringify data;
                      kv_expiration := epoch_seconds (clock w) + ttl |}]>
            (cache_entries w))
  /\ (JSON.blob_size (JSON.stringify data) > cache_size_limit
      \/ kv_fault_at 1 w = true ->
      cache_entries w' = cache_entries w).
Proof.
  cbv zeta.
  intros Hmiss Hload. unfold getOrSetCache, bind.
  destruct (getCachedData key w) as [[v0 | e] w1] eqn:Eget; simpl in Hmiss; [| discriminate].
  injection Hmiss as ->.
  assert (Hw1 : loader_calls w1 = loader_calls w
                /\ cache_entries w1 = cache_entries w
                /\ clock w1 = clock w
                /\ kv_fault_at 0 w1 = kv_fault_at 1 w
                /\ env_DB w1 = env_DB w
                /\ (forall kv, env_CACHE w = Some kv -> exists kv1, env_CACHE w1 = Some kv1)).
  { destruct (env_CACHE w) as [kv |] eqn:E.
    - destruct (getCachedData_bound key w kv E) as (v' & E').
      rewrite E' in Eget. injection Eget as _ <-.
      unfold loader_calls, cache_entries, kv_fault_at. simpl. rewrite E.
      rewrite count_occ_app. simpl.
      repeat split; try lia; try discriminate; eauto.
      destruct (kv_faults kv) as [| f0 rest]; reflexivity.
    - rewrite (getCachedData_unbound key w E) in Eget. injection Eget as <-.
      unfold kv_fault_at. rewrite E. repeat split; try discriminate. }
  destruct Hw1 as (Hc1 & He1 & Hk1 & Hf1 & Hn1 & Hs1).
  unfold run_loader, try_catch. rewrite Hn1, Hload.
  destruct (setCachedData_effect key data ttl (set_DB d' (log_event LoaderCall w1)))
    as (w3 & -> & Hdb & Hcalls & Hstored & Hkept).
  cbn [fst snd ret]. rewrite Hdb, Hcalls.
  split; [reflexivity |].
  split; [unfold loader_calls in *; simpl; rewrite count_occ_app; simpl; lia |].
  split; [reflexivity |].
  split.
  + intros Hfit Hf kv Hkv. destruct (Hs1 kv Hkv) as (kv1 & Hkv1).
    rewrite <- He1, <- Hk1.
    apply (Hstored Hfit) with (kv := kv1); [| exact Hkv1].
    unfold kv_fault_at in *. simpl. exact (eq_trans Hf1 Hf).
  + intros Hcase. rewrite <- He1. apply Hkept.
    destruct Hcase as [Hbig | Hf]; [left; exact Hbig | right; left].
    unfold kv_fault_at in *. simpl. exact (eq_trans Hf1 Hf).
Qed.

(** C5 (amended). On a hit [getOrSetCache] returns the cached value and does
    not invoke the loader.  On a miss it invokes the loader once and returns
    the loader's result; the result is stored under the key with the given
    ttl when its serialized size is at most 25 * 1024 * 1024 bytes and the
    store's put does not fail, and otherwise the entries stay as they were. *)
Theorem getOrSetCache_cache_aside {D}
    (key : string) (loader : Loader D) (ttl : Z) (w : World D) :
  let result := fst (getOrSetCache key loader ttl w) in
  let w' := snd (getOrSetCache key loader ttl w) in
  (forall v, fst (getCachedData key w) = Ok v -> v <> JNull ->
     result = Ok v /\ loader_calls w' = loader_calls w /\ env_DB w' = env_DB w)
  /\ (fst (getCachedData key w) = Ok JNull ->
      forall data d', loader (env_DB w) = (Ok data, d') ->
        result = Ok data
        /\ loader_calls w' = S (loader_calls w)
        /\ env_DB w' = d'
        /\ (JSON.blob_size (JSON.stringify data) <= 25 * 1024 * 1024 ->
            kv_fault_at 1 w = false ->
            forall kv, env_CACHE w = Some kv ->
              cache_entries w'
              = <[key := {| kv_value := JSON.stringify data;
                            kv_expiration := epoch_seconds (clock w) + ttl |}]>
                  (cache_entries w))
        /\ (JSON.blob_size (JSON.stringify data) > 25 * 1024 * 1024
            \/ kv_fault_at 1 w = true ->
            cache_entries w' = cache_entries w)).
Proof.
  cbv zeta. split.
  - intros v. apply getOrSetCache_hit.
  - intros Hmiss data d' Hload. apply (getOrSetCache_miss key loader ttl w data d' Hmiss Hload).
Qed.


(** The first read of petition 1 invokes the loader once and stores its
    result; the second read is a hit and does not invoke it again. *)
Lemma getOrSetCache_cache_aside_witness :
  let key := "petition:/api/petitions/1" in
  let loader := PetitionById.petition_loader 1 in
  let w := world (Some (kv_of [] [])) in
  let w1 := snd (getOrSetCache key loader 600 w) in
  let w2 := snd (getOrSetCache key loader 600 w1) in
  (fst (getOrSetCache key loader 600 w) = Ok (Petition_to_json petition_1)
   /\ loader_calls w1 = 1%nat
   /\ cache_entries w1 !! key
      = Some {| kv_value := JSON.stringify (Petition_to_json petition_1);
                kv_expiration := 1600 |})
  /\ (fst (getOrSetCache key loader 600 w1) = Ok (Petition_to_json petition_1)
      /\ loader_calls w2 = 1%nat).
Proof.
  cbv zeta. split.
  - destruct (getOrSetCache_cache_aside "petition:/api/petitions/1"
                (PetitionById.petition_loader 1) 600 (world (Some (kv_of [] []))))
      as [_ Hmiss].
    destruct (Hmiss eq_refl (Petition_to_json petition_1) db_1 eq_refl)
      as (Hresult & Hcalls & _ & Hstored & _).
    split; [exact Hresult |]. split; [exact Hcalls |].
    rewrite (Hstored ltac:(vm_compute; discriminate) eq_refl (kv_of [] []) eq_refl).
    apply lookup_insert_eq.
  - destruct (getOrSetCache_cache_aside "petition:/api/petitions/1"
                (PetitionById.petition_loader 1) 600
                (snd (getOrSetCache "petition:/api/petitions/1"
                        (PetitionById.petition_loader 1) 600 (world (Some (kv_of [] []))))))
      as [Hhit _].
    destruct (Hhit (Petition_to_json petition_1) ltac:(vm_compute; reflexivity)
                ltac:(discriminate)) as (Hresult & Hcalls & _).
    split; [exact Hresult |]. rewrite Hcalls. reflexivity.
Defined.

(** C5 as stated fails on a miss whose write is refused: when the store's put
    fails, and when the loader's result is larger than the threshold, the
    result is returned and nothing is stored. *)
Lemma getOrSetCache_claim_counterexample :
  let key := "petition:/api/petitions/1" in
  let failing := world (Some (kv_of [] [false; true])) in
  let healthy := world (Some (kv_of [] [])) in
  let small : Loader MemDb := fun d => (Ok (JNum 7), d) in
  let large : Loader MemDb := fun d => (Ok (JStr (letters 26214400)), d) in
  (fst (getCachedData key failing) = Ok JNull
   /\ fst (getOrSetCache key small 600 failing) = Ok (JNum 7)
   /\ cache_entries (snd (getOrSetCache key small 600 failing)) !! key = None)
  /\ (fst (getCachedData key healthy) = Ok JNull
      /\ fst (getOrSetCache key large 600 healthy) = Ok (JStr (letters 26214400))
      /\ cache_entries (snd (getOrSetCache key large 600 healthy)) !! key = None).
Proof.
  cbv zeta. split.
  - repeat split.
  - assert (Hbig : JSON.blob_size (JSON.stringify (JStr (letters 26214400)))
                   > cache_size_limit).
    { pose proof (letters_size 26214400) as H. unfold cache_size_limit. lia. }
    pose proof (getOrSetCache_miss "petition:/api/petitions/1"
                  (fun d : MemDb => (Ok (JStr (letters 26214400)), d)) 600
                  (world (Some (kv_of [] []))) (JStr (letters 26214400)) db_1
                  eq_refl eq_refl) as (Hresult & _ & _ & _ & Hkept).
    split; [reflexivity |]. split; [exact Hresult |].
    specialize (Hkept (or_introl Hbig)).
    apply (f_equal (fun m : gmap string KVEntry => m !! "petition:/api/petitions/1")) in Hkept.
    etransitivity; [exact Hkept | reflexivity].
Qed.

(** ** Cache keys *)

Section Sorting.
Context {A : Type} (compare : A -> A -> Z).

Lemma sort_insert_perm (x : A) (l : list A) :
  Permutation (sort_insert compare x l) (x :: l).
Proof.
  induction l as [| y l IH]; simpl; [reflexivity |].
  destruct (compare x y <=? 0); [reflexivity |].
  rewrite IH. apply perm_swap.
Qed.

Lemma array_sort_perm (l : list A) : Permutation (array_sort compare l) l.
Proof.
  induction l as [| x l IH]; simpl; [reflexivity |].
  rewrite sort_insert_perm. now apply perm_skip.
Qed.

Lemma sort_insert_sorted (x : A) (l : list A) :
  (forall a b, In a (x :: l) -> In b (x :: l) -> precedes compare a b \/ precedes compare b a) ->
  (forall a b c, In a (x :: l) -> In b (x :: l) -> In c (x :: l) ->
                 precedes compare a b -> precedes compare b c -> precedes compare a c) ->
  StronglySorted (precedes compare) l ->
  StronglySorted (precedes compare) (sort_insert compare x l).
Proof.
  intros Htotal Htrans Hsorted.
  induction Hsorted as [| y l Hl IH Hy]; simpl.
  - repeat constructor.
  - destruct (Z.leb_spec (compare x y) 0) as [Hxy | Hxy].
    + constructor; [now constructor |].
      constructor; [exact Hxy |].
      rewrite Forall_forall in Hy |- *. intros z Hz.
      assert (Hin : In z l) by now apply list_elem_of_In.
      apply (Htrans x y z); simpl; auto.
    + constructor.
      * apply IH.
        -- intros a b Ha Hb. apply Htotal; simpl in *; tauto.
        -- intros a b c Ha Hb Hc. apply Htrans; simpl in *; tauto.
      * rewrite Forall_forall in Hy |- *. intros z Hz.
        apply list_elem_of_In in Hz.
        apply (Permutation_in _ (sort_insert_perm x l)) in Hz.
        destruct Hz as [<- | Hz]; [| apply Hy; now apply list_elem_of_In].
        destruct (Htotal x y) as [Hle | Hle]; simpl; auto.
        unfold precedes in Hle. lia.
Qed.

Lemma array_sort_sorted (l : list A) :
  (forall a b, In a l -> In b l -> precedes compare a b \/ precedes compare b a) ->
  (forall a b c, In a l -> In b l -> In c l -> precedes compare a b -> precedes compare b c -> precedes compare a c) ->
  StronglySorted (precedes compare) (array_sort compare l).
Proof.
  induction l as [| x l IH]; intros Htotal Htrans; simpl; [constructor |].
  pose proof (array_sort_perm l) as Hperm.
  apply sort_insert_sorted.
  - intros a b Ha Hb. apply Htotal.
    + destruct Ha as [-> | Ha]; [now left | right; exact (Permutation_in _ Hperm Ha)].
    + destruct Hb as [-> | Hb]; [now left | right; exact (Permutation_in _ Hperm Hb)].
  - intros a b c Ha Hb Hc. apply Htrans.
    + destruct Ha as [-> | Ha]; [now left | right; exact (Permutation_in _ Hperm Ha)].
    + destruct Hb as [-> | Hb]; [now left | right; exact (Permutation_in _ Hperm Hb)].
    + destruct Hc as [-> | Hc]; [now left | right; exact (Permutation_in _ Hperm Hc)].
  - apply IH.
    + intros a b Ha Hb. apply Htotal; now right.
    + intros a b c Ha Hb Hc. apply Htrans; now right.
Qed.

End Sorting.

Lemma values_of_cons (name : string) (p : string * string) (l : list (string * string)) :
  values_of name (p :: l)
  = if String.eqb (fst p) name then snd p :: values_of name l else values_of name l.
Proof.
  unfold values_of. rewrite filter_cons.
  destruct (String.eqb (fst p) name); destruct (decide _); try congruence; reflexivity.
Qed.

Lemma values_of_In (p : string * string) (l : list (string * string)) :
  In p l <-> In (snd p) (values_of (fst p) l).
Proof.
  induction l as [| q l IH]; [reflexivity |].
  rewrite values_of_cons. destruct (String.eqb_spec (fst q) (fst p)) as [E | Hne]; simpl.
  - rewrite <- IH. split; (intros [Hq | Hl]; [left | now right]).
    + now subst.
    + destruct p, q; simpl in *; congruence.
  - rewrite <- IH. split; [intros [-> | Hl]; [contradiction | exact Hl] | now right].
Qed.

Lemma values_of_count
    (dec : forall x y : string * string, {x = y} + {x <> y})
    (p : string * string) (l : list (string * string)) :
  count_occ dec l p = count_occ string_dec (values_of (fst p) l) (snd p).
Proof.
  induction l as [| q l IH]; [reflexivity |].
  rewrite values_of_cons. cbn [count_occ].
  destruct (dec q p) as [-> | Hne].
  - rewrite String.eqb_refl. cbn [count_occ].
    destruct (string_dec (snd p) (snd p)); [now rewrite IH | contradiction].
  - destruct (String.eqb_spec (fst q) (fst p)) as [E | _]; [| exact IH].
    cbn [count_occ]. destruct (string_dec (snd q) (snd p)) as [E' | _]; [| exact IH].
    destruct p, q; simpl in *; congruence.
Qed.

(** Requests that give every name the same values have the same parameters,
    up to their order. *)
Lemma same_values_Permutation (l1 l2 : list (string * string)) :
  (forall name, values_of name l1 = values_of name l2) -> Permutation l1 l2.
Proof.
  intros Hsame.
  apply (Permutation_count_occ (fun x y : string * string => decide (x = y))).
  intros p. now rewrite !values_of_count, Hsame.
Qed.

Lemma distinct_names_values (name : string) (l : list (string * string)) :
  NoDup (map fst l) -> (length (values_of name l) <= 1)%nat.
Proof.
  induction l as [| p l IH]; intros Hnd; [simpl; lia |].
  inversion Hnd as [| ? ? Hout Hnd']; subst. rewrite values_of_cons.
  destruct (String.eqb_spec (fst p) name) as [E | _]; [| now apply IH].
  destruct (values_of name l) as [| v vs] eqn:Ev; [simpl; lia |].
  exfalso. apply Hout, list_elem_of_In.
  assert (Hv : In (snd (name, v)) (values_of (fst (name, v)) l))
    by (simpl; rewrite Ev; now left).
  apply values_of_In in Hv. rewrite E. exact (in_map fst _ _ Hv).
Qed.

(** When no name occurs twice, every rearrangement gives every name the same
    values. *)
Lemma distinct_names_same_values (l1 l2 : list (string * string)) (name : string) :
  NoDup (map fst l1) -> Permutation l1 l2 -> values_of name l1 = values_of name l2.
Proof.
  intros Hnd Hperm.
  assert (Hvalues : Permutation (values_of name l1) (values_of name l2)).
  { unfold values_of. apply fmap_Permutation. now apply filter_Permutation. }
  pose proof (distinct_names_values name l1 Hnd) as Hlen.
  destruct (values_of name l1) as [| v [| v' vs]]; [| | simpl in Hlen; lia].
  - now apply Permutation_nil in Hvalues.
  - now apply Permutation_length_1_inv in Hvalues.
Qed.

Lemma render_param_nonempty (p : string * string) : render_param p <> EmptyString.
Proof.
  unfold render_param. destruct (fst p); discriminate.
Qed.

Lemma join_nonempty (sep x : string) (xs : list string) :
  x <> EmptyString -> Js.join sep (x :: xs) <> EmptyString.
Proof.
  intros Hx. destruct xs as [| y ys]; simpl; [exact Hx |].
  destruct x; [contradiction | discriminate].
Qed.

Section CacheKey.
Context `{Locale}.

Lemma sorted_params (params : list (string * string)) :
  orders_names (map fst params) ->
  StronglySorted name_le (array_sort compare_names params).
Proof.
  intros (Htotal & Htrans & _).
  apply array_sort_sorted.
  - intros a b Ha Hb. apply Htotal; now apply in_map.
  - intros a b c Ha Hb Hc. apply Htrans; now apply in_map.
Qed.

Lemma sort_insert_values (name : string) (x : string * string)
    (l : list (string * string)) :
  localeCompare (fst x) (fst x) <= 0 ->
  values_of name (sort_insert compare_names x l) = values_of name (x :: l).
Proof.
  intros Hrefl. induction l as [| y l IH]; [reflexivity |].
  cbn [sort_insert].
  destruct (Z.leb_spec (compare_names x y) 0) as [Hle | Hgt]; [reflexivity |].
  rewrite (values_of_cons name y), IH, !values_of_cons.
  destruct (String.eqb_spec (fst x) name) as [Ex | _];
    destruct (String.eqb_spec (fst y) name) as [Ey | _]; try reflexivity.
  exfalso. unfold compare_names in Hgt. rewrite Ey, <- Ex in Hgt. lia.
Qed.

Lemma array_sort_values (name : string) (l : list (string * string)) :
  (forall a, In a (map fst l) -> localeCompare a a <= 0) ->
  values_of name (array_sort compare_names l) = values_of name l.
Proof.
  induction l as [| x l IH]; intros Hrefl; [reflexivity |].
  cbn [array_sort foldr]. fold (array_sort compare_names l).
  rewrite sort_insert_values by (apply Hrefl; now left).
  rewrite !values_of_cons, IH; [reflexivity |].
  intros a Ha. apply Hrefl. now right.
Qed.

Lemma sorted_values_unique (s1 s2 : list (string * string)) :
  (forall p q, In p s1 -> In q s1 -> name_le p q -> name_le q p -> fst p = fst q) ->
  StronglySorted name_le s1 ->
  StronglySorted name_le s2 ->
  (forall name, values_of name s1 = values_of name s2) ->
  s1 = s2.
Proof.
  intros Hanti Hs1. revert s2 Hanti.
  induction Hs1 as [| p s1 Hs1 IH Hp]; intros s2 Hanti Hs2 Hsame.
  - destruct s2 as [| q s2]; [reflexivity |].
    specialize (Hsame (fst q)). rewrite values_of_cons, String.eqb_refl in Hsame.
    discriminate Hsame.
  - destruct s2 as [| q s2].
    { specialize (Hsame (fst p)). rewrite values_of_cons, String.eqb_refl in Hsame.
      discriminate Hsame. }
    inversion Hs2 as [| ? ? Hs2' Hq]; subst.
    assert (Hhead : p = q).
    { pose proof (Hsame (fst p)) as Ep. pose proof (Hsame (fst q)) as Eq.
      rewrite !values_of_cons, String.eqb_refl in Ep, Eq.
      destruct (String.eqb_spec (fst q) (fst p)) as [E | Hne].
      - injection Ep as Ep _. destruct p, q; simpl in *; congruence.
      - exfalso. apply Hne. symmetry.
        destruct (String.eqb_spec (fst p) (fst q)) as [E | _]; [exact E |].
        assert (Hin_p : In p s2).
        { apply values_of_In. rewrite <- Ep. now left. }
        assert (Hin_q : In q s1).
        { apply values_of_In. rewrite Eq. now left. }
        apply Hanti; [now left | now right | |].
        + rewrite Forall_forall in Hp. apply Hp. now apply list_elem_of_In.
        + rewrite Forall_forall in Hq. apply Hq. now apply list_elem_of_In. }
    subst q. f_equal. apply IH; [| exact Hs2' |].
    + intros a b Ha Hb. apply Hanti; now right.
    + intros name. specialize (Hsame name). rewrite !values_of_cons in Hsame.
      destruct (String.eqb (fst p) name); [now injection Hsame | exact Hsame].
Qed.

Lemma same_values_In (l1 l2 : list (string * string)) (p : string * string) :
  (forall name, values_of name l1 = values_of name l2) -> In p l2 -> In p l1.
Proof.
  intros Hsame Hp. apply values_of_In. rewrite Hsame. now apply values_of_In.
Qed.

Lemma sorted_params_stable (params params' : list (string * string)) :
  orders_names (map fst params) ->
  (forall name, values_of name params = values_of name params') ->
  array_sort compare_names params = array_sort compare_names params'.
Proof.
  intros Horder Hsame.
  assert (Hnames : forall a, In a (map fst params') -> In a (map fst params)).
  { intros a Ha. apply in_map_iff in Ha. destruct Ha as (q & <- & Hq).
    apply in_map. exact (same_values_In _ _ _ Hsame Hq). }
  assert (Horder' : orders_names (map fst params')).
  { destruct Horder as (Htotal & Htrans & Hanti).
    split; [| split]; intros;
      [apply Htotal | apply (Htrans a b c) | apply Hanti]; auto. }
  assert (Hrefl : forall a, In a (map fst params) -> localeCompare a a <= 0).
  { intros a Ha. destruct Horder as (Htotal & _). destruct (Htotal a a Ha Ha); assumption. }
  apply sorted_values_unique.
  - intros p q Hp Hq Hpq Hqp.
    apply (Permutation_in _ (array_sort_perm compare_names params)) in Hp, Hq.
    destruct Horder as (_ & _ & Hanti). apply Hanti; auto using in_map.
  - now apply sorted_params.
  - now apply sorted_params.
  - intros name. rewrite !array_sort_values; auto.
Qed.

(** C4 (amended). Two requests with the same path get the same key when
    their query parameters are a rearrangement of one another in which the
    parameters that share a name come in the same order: every name has the
    same list of values in both, as [searchParams.getAll] reads it.  Such
    parameters are the same multiset, and parameters with different names
    may come in any order.  The collation is assumed to order the names.
    The key is the prefix, a colon and the path, followed, when there are
    parameters, by a question mark and the parameters sorted by name; the
    sort is stable, so the parameters that share a name keep the order they
    have in the request. *)
Theorem generateCacheKey_order_independent (r1 r2 : Request) (prefix : string) :
  pathname r1 = pathname r2 ->
  (forall name, searchParams_getAll name r1 = searchParams_getAll name r2) ->
  orders_names (map fst (searchParams r1)) ->
  generateCacheKey r1 prefix = generateCacheKey r2 prefix
  /\ Permutation (searchParams r1) (searchParams r2)
  /\ exists sorted,
       Permutation sorted (searchParams r1)
       /\ StronglySorted name_le sorted
       /\ (forall name, values_of name sorted = searchParams_getAll name r1)
       /\ generateCacheKey r1 prefix
          = prefix +:+ ":" +:+ pathname r1 +:+
              match sorted with
              | [] => EmptyString
              | _ :: _ => "?" +:+ Js.join "&" (map render_param sorted)
              end.
Proof.
  intros Hpath Hsame Horder. split; [| split].
  - unfold generateCacheKey.
    now rewrite Hpath, (sorted_params_stable _ _ Horder Hsame).
  - now apply same_values_Permutation.
  - exists (array_sort compare_names (searchParams r1)).
    split; [apply array_sort_perm |]. split; [now apply sorted_params |].
    split.
    { intros name. apply array_sort_values. intros a Ha.
      destruct Horder as (Htotal & _). destruct (Htotal a a Ha Ha); assumption. }
    unfold generateCacheKey.
    destruct (array_sort compare_names (searchParams r1)) as [| p rest]; [reflexivity |].
    destruct (String.eqb_spec (Js.join "&" (map render_param (p :: rest))) EmptyString) as [E | _];
      [| reflexivity].
    exfalso. revert E. apply join_nonempty, render_param_nonempty.
Qed.

End CacheKey.

(** [?category[]=1&category[]=2&limit=5] and [?limit=5&category[]=1&category[]=2]
    share one key. *)
Lemma generateCacheKey_order_independent_witness :
  @generateCacheKey code_unit_locale
    (a_request "GET" "/api/petitions"
       [("category[]", "1"); ("category[]", "2"); ("limit", "5")] [] None)
    "petitions"
  = @generateCacheKey code_unit_locale
      (a_request "GET" "/api/petitions"
         [("limit", "5"); ("category[]", "1"); ("category[]", "2")] [] None)
      "petitions".
Proof.
  apply (@generateCacheKey_order_independent code_unit_locale
           (a_request "GET" "/api/petitions"
              [("category[]", "1"); ("category[]", "2"); ("limit", "5")] [] None)
           (a_request "GET" "/api/petitions"
              [("limit", "5"); ("category[]", "1"); ("category[]", "2")] [] None)
           "petitions").
  - reflexivity.
  - intros name. change (searchParams_getAll name ?r) with (values_of name (searchParams r)).
    cbn [searchParams a_request]. rewrite !values_of_cons. cbn [fst snd].
    destruct (String.eqb_spec "category[]" name) as [E1 | _];
      destruct (String.eqb_spec "limit" name) as [E2 | _]; try reflexivity.
    exfalso. rewrite <- E1 in E2. discriminate E2.
  - unfold orders_names. simpl.
    repeat split; intros;
      repeat match goal with
             | H : _ \/ _ |- _ => destruct H
             | H : False |- _ => destruct H
             end; subst; try reflexivity; vm_compute in *;
      first [ left; discriminate | right; discriminate | discriminate | congruence | idtac ].
Defined.

(** C4 as stated fails for a parameter that occurs twice: the sort is by name
    and stable, so the two orders of [category[]=1] and [category[]=2] give
    two keys. *)
Lemma generateCacheKey_claim_counterexample :
  let one_two :=
    a_request "GET" "/api/petitions" [("category[]", "1"); ("category[]", "2")] [] None in
  let two_one :=
    a_request "GET" "/api/petitions" [("category[]", "2"); ("category[]", "1")] [] None in
  pathname one_two = pathname two_one
  /\ Permutation (searchParams one_two) (searchParams two_one)
  /\ @generateCacheKey code_unit_locale one_two "petitions" = "petitions:/api/petitions?category[]=1&category[]=2"
  /\ @generateCacheKey code_unit_locale two_one "petitions" = "petitions:/api/petitions?category[]=2&category[]=1"
  /\ @generateCacheKey code_unit_locale one_two "petitions" <> @generateCacheKey code_unit_locale two_one "petitions".
Proof.
  cbv zeta. split; [reflexivity |]. split; [apply perm_swap |].
  split; [reflexivity |]. split; [reflexivity |].
  vm_compute. discriminate.
Qed.

(** ** Validation of a create payload *)

Lemma property_set_same (key : string) (value : json) (fields : list (string * json)) :
  Zod.property key (set_property key value fields) = Some value.
Proof.
  unfold Zod.property. induction fields as [| [k v] rest IH]; simpl.
  - now rewrite String.eqb_refl.
  - destruct (String.eqb_spec k key) as [-> | Hne]; simpl.
    + now rewrite String.eqb_refl.
    + destruct (String.eqb_spec k key); [contradiction | exact IH].
Qed.

Lemma property_set_other (key key' : string) (value : json) (fields : list (string * json)) :
  key' <> key ->
  Zod.property key' (set_property key value fields) = Zod.property key' fields.
Proof.
  intros Hne. unfold Zod.property. induction fields as [| [k v] rest IH]; simpl.
  - destruct (String.eqb_spec key key'); [congruence | reflexivity].
  - destruct (String.eqb_spec k key) as [-> | Hk]; simpl.
    + destruct (String.eqb_spec key key'); [congruence | reflexivity].
    + destruct (String.eqb_spec k key'); [reflexivity | exact IH].
Qed.

Lemma at_key_set_other {A} (key key' : string) (value : json) (schema : Zod.Schema A)
    (fields : list (string * json)) :
  key' <> key ->
  Zod.at_key key' schema (set_property key value fields) = Zod.at_key key' schema fields.
Proof. intros Hne. unfold Zod.at_key. now rewrite property_set_other. Qed.

Lemma str_length_positive (s : string) : (Js.str_length s >? 0) = negb (String.eqb s EmptyString).
Proof. destruct s; reflexivity. Qed.

(** The validation of a local petition whose other properties pass. *)
Lemma createPetitionSchema_local (fields : list (string * json)) (u : string)
    (t d : string) (n : Z) (c : option (list Z)) (i : option string) (l : option string) :
  Zod.property "type" fields = Some (JStr "local") ->
  Zod.property "created_by" fields = Some (JStr u) ->
  Zod.at_key "title" Fields.title fields = (Some t, []) ->
  Zod.at_key "description" Fields.description fields = (Some d, []) ->
  Zod.at_key "target_count" Fields.target_count fields = (Some n, []) ->
  Zod.at_key "category_ids" Fields.category_ids fields = (Some c, []) ->
  Zod.at_key "image_url" Fields.image_url fields = (Some i, []) ->
  Zod.at_key "location" Fields.location fields = (Some l, []) ->
  Zod.safeParse createPetitionSchema (JObj fields)
  = if location_given (Some "local") l then
      Zod.Success {| c_title := t; c_description := d; c_type := "local"; c_location := l;
                     c_target_count := n; c_category_ids := c; c_image_url := i;
                     c_created_by := u |}
    else Zod.Failure [location_issue].
Proof.
  intros Htype Huser Ht Hd Hn Hc Hi Hl.
  unfold Zod.safeParse, createPetitionSchema, Zod.with_checks, createPetitionObject.
  rewrite Ht, Hd, Hn, Hc, Hi, Hl.
  unfold Zod.at_key at 1 2. rewrite Htype, Huser.
  cbn [Fields.type Zod.enum list_includes existsb String.eqb Ascii.eqb Bool.eqb orb
       Fields.created_by Zod.string_ Zod.prefix_issues map app].
  cbn [Zod.run_checks Zod.aborted existsb Zod.refine c_type c_location app].
  destruct (location_given (Some "local") l); reflexivity.
Qed.

Section CreateHandler.
Context {D : Type} `{DatabaseService D} `{Locale}.

(** A JSON create request that fails validation is answered with the
    validation response; nothing else happens. *)
Lemma post_validation_failure
    (context : EventContext) (user : AuthenticatedUser) (fields : list (string * json))
    (issues : list Zod.Issue) (w : World D) :
  method (request context) = "POST" ->
  data_user context = Some user ->
  Js.includes "multipart/form-data"
    (or_else (headers_get "content-type" (request context)) EmptyString) = false ->
  req_json (request context) = Some (JObj fields) ->
  Zod.safeParse createPetitionSchema
    (JObj (set_property "created_by" (JStr (user_id user)) fields)) = Zod.Failure issues ->
  PetitionsIndex.onRequest context w
  = (Ok (createValidationErrorResponse (formatZodError issues) (request context) (env context)),
     w).
Proof.
  intros Hmethod Huser Hjson Hbody Hfail.
  unfold PetitionsIndex.onRequest, handleCORS. rewrite Hmethod, Huser.
  cbn [String.eqb Ascii.eqb Bool.eqb].
  unfold try_catch, PetitionsIndex.post, bind. rewrite Hjson.
  unfold await_json. rewrite Hbody. cbn [ret assign_created_by].
  now rewrite Hfail.
Qed.

(** C3 (amended). For a create payload of type [local] whose other properties
    pass validation: without a location, or with one that is empty once
    trimmed, validation fails with the error of field [location] and the
    response is the 422 body [{ message: 'Validation failed', errors }]; with
    a location that is not empty once trimmed validation passes, and an
    omitted [target_count] is 1000 in the validated object. *)
Theorem create_local_petition_location
    (context : EventContext) (user : AuthenticatedUser) (fields : list (string * json))
    (w : World D) :
  method (request context) = "POST" ->
  data_user context = Some user ->
  Js.includes "multipart/form-data"
    (or_else (headers_get "content-type" (request context)) EmptyString) = false ->
  req_json (request context) = Some (JObj fields) ->
  Zod.property "type" fields = Some (JStr "local") ->
  other_fields_valid fields ->
  let payload := JObj (set_property "created_by" (JStr (user_id user)) fields) in
  (location_blank fields ->
   Zod.safeParse createPetitionSchema payload = Zod.Failure [location_issue]
   /\ exists response,
        PetitionsIndex.onRequest context w = (Ok response, w)
        /\ status response = 422
        /\ body response
           = Some (JSON.stringify
                     (JObj [("message", JStr "Validation failed");
                            ("errors", JArr [FieldError_to_json location_error])])))
  /\ (forall s, Zod.property "location" fields = Some (JStr s) ->
                Js.trim s <> EmptyString ->
                exists data,
                  Zod.safeParse createPetitionSchema payload = Zod.Success data
                  /\ c_type data = "local"
                  /\ c_location data = Some (Js.trim s)
                  /\ (Zod.property "target_count" fields = None ->
                      c_target_count data = 1000)).
Proof.
  intros Hmethod Huser Hjson Hbody Htype (t & d & n & c & i & Ht & Hd & Hn & Hc & Hi).
  cbv zeta.
  set (fields' := set_property "created_by" (JStr (user_id user)) fields).
  assert (Hparse : forall l,
             Zod.at_key "location" Fields.location fields = (Some l, []) ->
             Zod.safeParse createPetitionSchema (JObj fields')
             = if location_given (Some "local") l then
                 Zod.Success {| c_title := t; c_description := d; c_type := "local";
                                c_location := l; c_target_count := n;
                                c_category_ids := c; c_image_url := i;
                                c_created_by := user_id user |}
               else Zod.Failure [location_issue]).
  { intros l Hl. subst fields'.
    apply createPetitionSchema_local;
      rewrite ?property_set_same, ?property_set_other, ?at_key_set_other by discriminate;
      auto. }
  split.
  - intros Hblank.
    assert (Hfail : Zod.safeParse createPetitionSchema (JObj fields')
                    = Zod.Failure [location_issue]).
    { destruct Hblank as [Hnone | (s & Hs & Hempty)].
      - rewrite (Hparse None); [reflexivity |].
        unfold Zod.at_key. now rewrite Hnone.
      - rewrite (Hparse (Some EmptyString)); [reflexivity |].
        unfold Zod.at_key. rewrite Hs. cbn. now rewrite Hempty. }
    split; [exact Hfail |].
    eexists. split; [| split].
    + apply (post_validation_failure context user fields [location_issue] w); auto.
    + reflexivity.
    + reflexivity.
  - intros s Hs Hne.
    assert (Hl : Zod.at_key "location" Fields.location fields = (Some (Some (Js.trim s)), [])).
    { unfold Zod.at_key. rewrite Hs. reflexivity. }
    rewrite (Hparse _ Hl). unfold location_given. cbn [opt_is String.eqb Ascii.eqb Bool.eqb].
    rewrite str_length_positive.
    destruct (String.eqb_spec (Js.trim s) EmptyString) as [E | _]; [contradiction |].
    eexists. split; [reflexivity |]. cbn.
    repeat split. intros Hnone.
    unfold Zod.at_key in Hn. rewrite Hnone in Hn. cbn in Hn. congruence.
Qed.

End CreateHandler.

(** ** Steps that leave the store alone *)

Section Frame.
Context {D : Type}.

Lemma preserves_ret {A} (a : A) : preserves_cache (D := D) (ret a).
Proof. intros w. now split. Qed.

Lemma preserves_throw {A} (e : JsValue) : preserves_cache (D := D) (A := A) (throw e).
Proof. intros w. now split. Qed.

Lemma preserves_bind {A B} (m : M D A) (f : A -> M D B) :
  preserves_cache m -> (forall a, preserves_cache (f a)) -> preserves_cache (bind m f).
Proof.
  intros Hm Hf w. unfold bind. specialize (Hm w).
  destruct (m w) as [[a | e] w1]; simpl in *; [| exact Hm].
  destruct (Hf a w1) as [Hc Hk]. destruct Hm as [Hc' Hk']. split; congruence.
Qed.

Lemma preserves_try_catch {A} (m : M D A) (handler : JsValue -> M D A) :
  preserves_cache m -> (forall e, preserves_cache (handler e)) ->
  preserves_cache (try_catch m handler).
Proof.
  intros Hm Hh w. unfold try_catch. specialize (Hm w).
  destruct (m w) as [[a | e] w1]; simpl in *; [exact Hm |].
  destruct (Hh e w1) as [Hc Hk]. destruct Hm as [Hc' Hk']. split; congruence.
Qed.

Lemma preserves_db_mutate {A} (operation : string) (f : D -> Result A * D) :
  preserves_cache (db_mutate operation f).
Proof. intros w. unfold db_mutate. destruct (f (env_DB w)). now split. Qed.

Lemma preserves_db_query {A} (operation : string) (q : D -> Result A) :
  preserves_cache (db_query operation q).
Proof. intros w. now split. Qed.

Lemma preserves_r2_put (path : string) (object : R2Object) :
  preserves_cache (D := D) (r2_put path object).
Proof.
  intros w. unfold r2_put.
  destruct (match images_faults w with b :: _ => b | [] => false end); now split.
Qed.

Lemma preserves_await_formData (r : Request) : preserves_cache (D := D) (await_formData r).
Proof. intros w. unfold await_formData. destruct (req_formData r); now split. Qed.

Lemma preserves_await_json (r : Request) : preserves_cache (D := D) (await_json r).
Proof. intros w. unfold await_json. destruct (req_json r); now split. Qed.

Lemma preserves_assign_created_by (payload : json) (user : string) :
  preserves_cache (D := D) (assign_created_by payload user).
Proof. intros w. destruct payload; now split. Qed.

Lemma preserves_attach_image `{DatabaseService D}
    (petitionId : Z) (imageFile : option File) (petition : Petition) :
  preserves_cache (attach_image petitionId imageFile petition).
Proof.
  unfold attach_image. destruct imageFile as [file |]; [| apply preserves_ret].
  destruct (file_size file >? 0); [| apply preserves_ret].
  apply preserves_try_catch; [| intros e; apply preserves_ret].
  intros w. cbv beta.
  refine (preserves_bind _ _ _ _ w); [apply preserves_r2_put |].
  intros _. apply preserves_bind; [apply preserves_db_mutate |].
  intros _. apply preserves_ret.
Qed.

Lemma preserves_reliable {A} (m : M D A) (c : Clock) (L : string -> option KVEntry) :
  preserves_cache m ->
  hoare (reliable_cache c L) m (fun _ => reliable_cache c L).
Proof.
  intros Hm w (Hclock & Hrel & Hentries). destruct (Hm w) as [Hc Hk].
  unfold reliable_cache, cache_reliable, cache_entries in *. rewrite Hc, Hk. auto.
Qed.

End Frame.

(** ** Invalidation *)

Section Invalidation.
Context {D : Type}.

(** With a store that does not fail, the deletes delete. *)
Lemma promise_all_deletes (keys : list string) (w : World D) (entries : gmap string KVEntry) :
  env_CACHE w = Some {| kv_entries := entries; kv_faults := [] |} ->
  exists w',
    promise_all (map kv_delete keys) w = (Ok tt, w')
    /\ clock w' = clock w
    /\ env_CACHE w'
       = Some {| kv_entries := foldl (fun m k => delete k m) entries keys; kv_faults := [] |}.
Proof.
  revert w entries. induction keys as [| k keys IH]; intros w entries E; simpl.
  - exists w. now repeat split.
  - unfold kv_delete at 1, kv_call. rewrite E. simpl.
    edestruct (IH (set_CACHE (Some {| kv_entries := delete k entries; kv_faults := [] |})
                     (log_event (KvDelete k) w)) (delete k entries) eq_refl)
      as (w' & -> & Hclock & Hcache).
    exists w'. now repeat split.
Qed.

Lemma lookup_foldl_delete (keys : list string) (entries : gmap string KVEntry) (k : string) :
  foldl (fun m k => delete k m) entries keys !! k
  = if decide (k ∈ keys) then None else entries !! k.
Proof.
  revert entries. induction keys as [| k' keys IH]; intros entries; simpl.
  - destruct (decide (k ∈ [])) as [Hin | _]; [inversion Hin | reflexivity].
  - rewrite IH.
    destruct (decide (k ∈ keys)) as [Hin | Hout].
    + destruct (decide (k ∈ k' :: keys)) as [_ | Hout]; [reflexivity |].
      exfalso. apply Hout. now right.
    + destruct (decide (k ∈ k' :: keys)) as [Hin | Hout'].
      * apply elem_of_cons in Hin as [-> | Hin]; [apply lookup_delete_eq | contradiction].
      * apply lookup_delete_ne. intros ->. apply Hout'. now left.
Qed.

Lemma listed_keys (now : Z) (prefix : string) (entries : gmap string KVEntry) (k : string) :
  k ∈ (fst <$> filter (fun ke => Js.startsWith prefix (fst ke) && kv_live now (snd ke) = true)
                 (map_to_list entries))
  <-> Js.startsWith prefix k && live_entry now (entries !! k) = true.
Proof.
  rewrite list_elem_of_fmap. split.
  - intros ([k' e] & -> & Hin). apply list_elem_of_filter in Hin as [Hp Hin].
    apply elem_of_map_to_list in Hin. simpl in *. now rewrite Hin.
  - intros Hk. destruct (entries !! k) as [e |] eqn:E.
    + exists (k, e). split; [reflexivity |].
      apply list_elem_of_filter. split; [exact Hk | now apply elem_of_map_to_list].
    + simpl in Hk. rewrite andb_false_r in Hk. discriminate.
Qed.

(** With a store that does not fail, an invalidation removes the live entries
    under the prefix and no others. *)
Lemma invalidate_effect (pattern : string) (c : Clock) (L : string -> option KVEntry)
    (w : World D) :
  reliable_cache c L w ->
  exists w',
    invalidateCachePattern pattern w = (Ok tt, w')
    /\ reliable_cache c (purge (epoch_seconds c) pattern L) w'.
Proof.
  intros (Hclock & Hrel & Hentries).
  unfold cache_reliable, cache_entries in *.
  unfold invalidateCachePattern, try_catch, bind, kv_list, kv_call.
  destruct (env_CACHE w) as [kv |] eqn:E.
  - rewrite (Hrel kv eq_refl). cbn [tail].
    set (keys := fst <$> filter _ (map_to_list (kv_entries kv))).
    set (w1 := set_CACHE _ _).
    assert (Hpurged : forall k,
               foldl (fun m k => delete k m) (kv_entries kv) keys !! k
               = purge (epoch_seconds c) pattern L k).
    { intros k. rewrite lookup_foldl_delete. unfold purge. rewrite <- Hentries.
      subst keys. rewrite Hclock.
      destruct (decide (k ∈ _)) as [Hin | Hout].
      - apply listed_keys in Hin. now rewrite Hin.
      - destruct (Js.startsWith pattern k && live_entry (epoch_seconds c) (kv_entries kv !! k))
          eqn:Hk; [| reflexivity].
        exfalso. apply Hout. now apply listed_keys. }
    destruct (Z.of_nat (length keys) >? 0) eqn:Hlen.
    + destruct (promise_all_deletes keys w1 (kv_entries kv) eq_refl)
        as (w' & -> & Hclock' & Hcache').
      exists w'. split; [reflexivity |].
      unfold reliable_cache, cache_reliable, cache_entries. rewrite Hcache'.
      split; [exact (eq_trans Hclock' Hclock) |].
      split; [now intros kv' [= <-] | exact Hpurged].
    + exists w1. split; [reflexivity |].
      unfold reliable_cache, cache_reliable, cache_entries. simpl.
      split; [exact Hclock |]. split; [now intros kv' [= <-] |].
      intros k. rewrite <- Hpurged.
      destruct keys as [| k0 keys']; [reflexivity |].
      rewrite Z.gtb_ltb in Hlen. apply Z.ltb_ge in Hlen. simpl in Hlen. lia.
  - exists w. split; [reflexivity |].
    unfold reliable_cache, cache_reliable, cache_entries. rewrite E.
    split; [exact Hclock |]. split; [discriminate |].
    intros k. unfold purge. rewrite <- Hentries.
    destruct (_ && _); reflexivity.
Qed.

Lemma invalidate_purges (pattern : string) (c : Clock) (L : string -> option KVEntry) :
  hoare (D := D) (reliable_cache c L) (invalidateCachePattern pattern)
    (fun r w' => r = Ok tt /\ reliable_cache c (purge (epoch_seconds c) pattern L) w').
Proof.
  intros w Hw. destruct (invalidate_effect pattern c L w Hw) as (w' & -> & Hw').
  now split.
Qed.

(** A read of a purged key is a miss. *)
Lemma purged_is_miss (key prefix : string) (c : Clock) (L : string -> option KVEntry)
    (w : World D) :
  reliable_cache c (purge (epoch_seconds c) prefix L) w ->
  Js.startsWith prefix key = true ->
  fst (getCachedData key w) = Ok JNull.
Proof.
  intros (Hclock & _ & Hentries) Hprefix. apply getCachedData_uncached.
  intros e He. rewrite Hentries in He.
  unfold purge in He. rewrite Hprefix, Hclock in *. simpl in He.
  destruct (L key) as [e' |]; simpl in He; [| discriminate].
  destruct (kv_live (epoch_seconds c) e') eqn:Hlive; [discriminate |].
  now injection He as <-.
Qed.

End Invalidation.

(** ** The statuses of the responses *)

Section Statuses.
Context {D : Type}.

Lemma responds_ret (S : Response -> Prop) (r : Response) :
  S r -> responds (D := D) S (ret r).
Proof. intros Hr w response w' [= <- _]. exact Hr. Qed.

Lemma responds_bind {A} (S : Response -> Prop) (m : M D A) (f : A -> M D Response) :
  (forall a, responds S (f a)) -> responds S (bind m f).
Proof.
  intros Hf w response w' E. unfold bind in E.
  destruct (m w) as [[a | e] w1]; [| discriminate].
  exact (Hf a w1 response w' E).
Qed.

Lemma responds_try_catch (S : Response -> Prop) (m : M D Response)
    (handler : JsValue -> M D Response) :
  responds S m -> (forall e, responds S (handler e)) -> responds S (try_catch m handler).
Proof.
  intros Hm Hh w response w' E. unfold try_catch in E.
  destruct (m w) as [[a | e] w1] eqn:Em.
  - injection E as <- <-. exact (Hm w a w1 Em).
  - exact (Hh e w1 response w' E).
Qed.

Lemma createCachedResponse_status
    (data : json) (r : Request) (e : Env) (maxAge : Z) (now : Clock) :
  status (createCachedResponse data r e maxAge now) = 304
  \/ status (createCachedResponse data r e maxAge now) = 200.
Proof.
  unfold createCachedResponse. destruct (opt_is _ _); [left | right]; reflexivity.
Qed.

End Statuses.

(** ** The handler of one petition *)

Section PetitionHandler.
Context {D : Type} `{DatabaseService D} `{Locale}.

Lemma get_status (context : EventContext) (petitionId : Z) :
  responds (fun r => status r = 304 \/ status r = 200) (PetitionById.get context petitionId).
Proof.
  intros w response w' E. unfold PetitionById.get in E.
  refine (responds_bind (fun r => status r = 304 \/ status r = 200) _ _ _ w response w' E).
  intros petition. apply responds_ret. apply createCachedResponse_status.
Qed.

Lemma put_status (context : EventContext) (petitionId : Z) :
  responds (fun r => status r = 422 \/ status r = 200) (PetitionById.put context petitionId).
Proof.
  unfold PetitionById.put. apply responds_bind. intros [petitionData imageFile].
  destruct (Zod.safeParse updatePetitionSchema petitionData).
  - repeat (apply responds_bind; intros ?). apply responds_ret. now right.
  - apply responds_ret. now left.
Qed.

Lemma delete_status (petitionId : Z) :
  responds (D := D) (fun r => status r = 200) (PetitionById.delete petitionId).
Proof.
  unfold PetitionById.delete. repeat (apply responds_bind; intros ?).
  now apply responds_ret.
Qed.

(** C10 (amended). For a request that is not a CORS pre-flight, the handler
    answers with the status-400 error response, before it touches the
    database or the cache, exactly when [parseInt] of the [id] parameter is
    NaN; the handler sees the parameter only through [parseInt], so an id
    such as [5abc] is handled as petition 5. *)
Theorem invalid_petition_id (context : EventContext) (w : World D) :
  method (request context) <> "OPTIONS" ->
  (ParseInt.parseInt (params_id context) None = None ->
   PetitionById.onRequest context w
   = (Ok (createCachedErrorResponse (StringValue "Invalid petition ID")
            (request context) (env context) 400), w))
  /\ (forall response w',
        PetitionById.onRequest context w = (Ok response, w') ->
        status response = 400 ->
        ParseInt.parseInt (params_id context) None = None)
  /\ (forall context',
        request context' = request context ->
        env context' = env context ->
        ParseInt.parseInt (params_id context') None
        = ParseInt.parseInt (params_id context) None ->
        PetitionById.onRequest context' w = PetitionById.onRequest context w)
  /\ ParseInt.parseInt "5abc" None = ParseInt.parseInt "5" None.
Proof.
  intros Hmethod.
  assert (Hcors : handleCORS (request context) (env context) = None).
  { unfold handleCORS.
    destruct (String.eqb_spec (method (request context)) "OPTIONS"); [contradiction | reflexivity]. }
  split; [| split; [| split]].
  - intros Hnan. unfold PetitionById.onRequest. rewrite Hcors, Hnan. reflexivity.
  - intros response w' E Hstatus.
    destruct (ParseInt.parseInt (params_id context) None) as [petitionId |] eqn:Hid;
      [| reflexivity].
    exfalso. revert E Hstatus. unfold PetitionById.onRequest. rewrite Hcors, Hid.
    intros E.
    assert (Hok : status response = 304 \/ status response = 200 \/ status response = 422
                  \/ status response = 405 \/ status response = 500);
      [| intros Hstatus; rewrite Hstatus in Hok; intuition discriminate].
    revert w response w' E.
    apply (responds_try_catch
             (fun r => status r = 304 \/ status r = 200 \/ status r = 422
                       \/ status r = 405 \/ status r = 500)).
    + destruct (String.eqb (method (request context)) "GET").
      { intros w0 r w1 E. destruct (get_status context petitionId w0 r w1 E); tauto. }
      destruct (String.eqb (method (request context)) "PUT").
      { intros w0 r w1 E. destruct (put_status context petitionId w0 r w1 E); tauto. }
      destruct (String.eqb (method (request context)) "DELETE").
      { intros w0 r w1 E. pose proof (delete_status petitionId w0 r w1 E). tauto. }
      apply responds_ret. simpl. tauto.
    + intros e. apply responds_ret. simpl. tauto.
  - intros context' Hrequest Henv Hid.
    unfold PetitionById.onRequest, PetitionById.get, PetitionById.put.
    now rewrite Hrequest, Henv, Hid.
  - reflexivity.
Qed.

End PetitionHandler.

(** [GET /api/petitions/abc] is refused with status 400 and leaves the world
    as it was; [GET /api/petitions/5abc] is answered as [GET /api/petitions/5]. *)
Lemma invalid_petition_id_witness :
  let w := world (Some (kv_of [] [])) in
  let get i := a_context (a_request "GET" "/api/petitions/x" [] [] None) i None in
  (exists response,
     @PetitionById.onRequest MemDb MemDb_service code_unit_locale (get "abc") w
     = (Ok response, w)
     /\ status response = 400)
  /\ @PetitionById.onRequest MemDb MemDb_service code_unit_locale (get "5abc") w
     = @PetitionById.onRequest MemDb MemDb_service code_unit_locale (get "5") w.
Proof.
  cbv zeta. split.
  - destruct (@invalid_petition_id MemDb MemDb_service code_unit_locale
                (a_context (a_request "GET" "/api/petitions/x" [] [] None) "abc" None)
                (world (Some (kv_of [] []))) ltac:(discriminate)) as (Hnan & _).
    eexists. split; [exact (Hnan eq_refl) | reflexivity].
  - destruct (@invalid_petition_id MemDb MemDb_service code_unit_locale
                (a_context (a_request "GET" "/api/petitions/x" [] [] None) "5" None)
                (world (Some (kv_of [] []))) ltac:(discriminate)) as (_ & _ & Hsame & _).
    exact (Hsame (a_context (a_request "GET" "/api/petitions/x" [] [] None) "5abc" None)
             eq_refl eq_refl eq_refl).
Defined.

(** C10 as stated fails for a pre-flight request: with an id that is not a
    number the handler answers 204, not 400. *)
Lemma invalid_petition_id_claim_counterexample :
  let preflight :=
    a_context (a_request "OPTIONS" "/api/petitions/abc" [] [] None) "abc" None in
  ParseInt.parseInt (params_id preflight) None = None
  /\ exists response,
       @PetitionById.onRequest MemDb MemDb_service code_unit_locale preflight
         (world (Some (kv_of [] [])))
       = (Ok response, world (Some (kv_of [] [])))
       /\ status response = 204.
Proof.
  cbv zeta. split; [reflexivity |]. eexists. split; reflexivity.
Qed.

(** What the status-400 response carries: the handler hands a string, not an
    [Error], to [createCachedErrorResponse], so the body reads "Unknown error". *)
Lemma invalid_petition_id_body (request : Request) (env : Env) :
  body (createCachedErrorResponse (StringValue "Invalid petition ID") request env 400)
  = Some (JSON.stringify (JObj [("error", JStr "Unknown error")])).
Proof. reflexivity. Qed.

(** ** Mutations and the cache *)

Section Mutations.
Context {D : Type} `{DatabaseService D} `{Locale}.

Lemma cache_reliable_start (w : World D) :
  cache_reliable w ->
  reliable_cache (clock w) (fun k => cache_entries w !! k) w.
Proof. intros Hrel. now repeat split. Qed.

(** The two invalidations that end an update and a delete. *)
Lemma invalidate_both (c : Clock) (L : string -> option KVEntry) (response : Response) :
  hoare (D := D) (reliable_cache c L)
    (bind (invalidateCachePattern "petitions:")
       (fun _ => bind (invalidateCachePattern "petition:") (fun _ => ret response)))
    (fun r w' =>
       forall response', r = Ok response' ->
         reliable_cache c
           (purge (epoch_seconds c) "petition:" (purge (epoch_seconds c) "petitions:" L)) w').
Proof.
  eapply hoare_bind; [apply invalidate_purges | | discriminate].
  intros []. eapply hoare_bind.
  - eapply hoare_consequence; [apply invalidate_purges | | intros r w Hr; exact Hr].
    intros w Hw. apply Hw.
  - intros []. apply hoare_ret. intros w Hw response' _. apply Hw.
  - discriminate.
Qed.

Lemma put_invalidates (context : EventContext) (petitionId : Z)
    (c : Clock) (L : string -> option KVEntry) :
  hoare (reliable_cache c L) (PetitionById.put context petitionId)
    (fun r w' =>
       forall response, r = Ok response -> status response = 200 ->
         reliable_cache c
           (purge (epoch_seconds c) "petition:" (purge (epoch_seconds c) "petitions:" L)) w').
Proof.
  unfold PetitionById.put.
  eapply hoare_bind with (R := fun _ => reliable_cache c L); [| | discriminate].
  { apply preserves_reliable.
    destruct (Js.includes _ _).
    - apply preserves_bind; [apply preserves_await_formData | intros; apply preserves_ret].
    - apply preserves_bind; [apply preserves_await_json | intros; apply preserves_ret]. }
  intros [petitionData imageFile].
  destruct (Zod.safeParse updatePetitionSchema petitionData) as [validatedData | issues].
  - eapply hoare_bind with (R := fun _ => reliable_cache c L); [| | discriminate].
    { apply preserves_reliable, preserves_db_mutate. }
    intros updatedPetition.
    eapply hoare_bind with (R := fun _ => reliable_cache c L); [| | discriminate].
    { apply preserves_reliable, preserves_attach_image. }
    intros updatedPetition'.
    eapply hoare_consequence; [apply (invalidate_both c L) | auto |].
    intros r w Hr response E _. exact (Hr response E).
  - apply hoare_ret. intros w _ response [= <-]. discriminate.
Qed.

Lemma delete_invalidates (petitionId : Z) (c : Clock) (L : string -> option KVEntry) :
  hoare (reliable_cache c L) (PetitionById.delete petitionId)
    (fun r w' =>
       forall response, r = Ok response -> status response = 200 ->
         reliable_cache c
           (purge (epoch_seconds c) "petition:" (purge (epoch_seconds c) "petitions:" L)) w').
Proof.
  unfold PetitionById.delete.
  eapply hoare_bind with (R := fun _ => reliable_cache c L); [| | discriminate].
  { apply preserves_reliable, preserves_db_mutate. }
  intros [].
  eapply hoare_consequence; [apply (invalidate_both c L) | auto |].
  intros r w Hr response E _. exact (Hr response E).
Qed.

Lemma post_invalidates (context : EventContext) (user : AuthenticatedUser)
    (c : Clock) (L : string -> option KVEntry) :
  hoare (reliable_cache c L) (PetitionsIndex.post context user)
    (fun r w' =>
       forall response, r = Ok response -> status response = 200 ->
         reliable_cache c (purge (epoch_seconds c) "petitions:" L) w').
Proof.
  unfold PetitionsIndex.post.
  eapply hoare_bind with (R := fun _ => reliable_cache c L); [| | discriminate].
  { apply preserves_reliable.
    destruct (Js.includes _ _).
    - apply preserves_bind; [apply preserves_await_formData | intros; apply preserves_ret].
    - apply preserves_bind; [apply preserves_await_json |].
      intros petitionData.
      apply preserves_bind; [apply preserves_assign_created_by | intros; apply preserves_ret]. }
  intros [petitionData imageFile].
  destruct (Zod.safeParse createPetitionSchema petitionData) as [validatedData | issues].
  - eapply hoare_bind with (R := fun _ => reliable_cache c L); [| | discriminate].
    { apply preserves_reliable, preserves_db_mutate. }
    intros petition.
    eapply hoare_bind with (R := fun _ => reliable_cache c L); [| | discriminate].
    { apply preserves_reliable, preserves_attach_image. }
    intros petition'.
    eapply hoare_bind; [apply invalidate_purges | | discriminate].
    intros []. apply hoare_ret. intros w Hw response _ _. apply Hw.
  - apply hoare_ret. intros w _ response [= <-]. discriminate.
Qed.

(** C1 (amended). When the store does not fail: after a successful update
    (PUT) or delete (DELETE) a read of any key under [petitions:] or under
    [petition:] is a miss; after a successful create (POST) a read of any key
    under [petitions:] is a miss and the entries outside [petitions:], those
    under [petition:] among them, stay as they were. *)
Theorem mutation_invalidates_caches (context : EventContext) (w : World D) :
  cache_reliable w ->
  (forall response w',
     PetitionById.onRequest context w = (Ok response, w') ->
     method (request context) = "PUT" \/ method (request context) = "DELETE" ->
     status response = 200 ->
     forall key,
       Js.startsWith "petitions:" key = true \/ Js.startsWith "petition:" key = true ->
       fst (getCachedData key w') = Ok JNull)
  /\ (forall response w',
        PetitionsIndex.onRequest context w = (Ok response, w') ->
        method (request context) = "POST" ->
        status response = 200 ->
        (forall key, Js.startsWith "petitions:" key = true ->
                     fst (getCachedData key w') = Ok JNull)
        /\ (forall key, Js.startsWith "petitions:" key = false ->
                        cache_entries w' !! key = cache_entries w !! key)).
Proof.
  intros Hrel. apply cache_reliable_start in Hrel.
  set (c := clock w) in *. set (L := fun k => cache_entries w !! k) in *.
  split.
  - intros response w' E Hmethod Hstatus key Hkey.
    assert (Hflushed :
              reliable_cache c
                (purge (epoch_seconds c) "petition:" (purge (epoch_seconds c) "petitions:" L))
                w').
    { revert E. unfold PetitionById.onRequest, handleCORS.
      destruct (String.eqb_spec (method (request context)) "OPTIONS") as [Ho | _];
        [rewrite Ho in Hmethod; intuition discriminate |].
      unfold try_catch.
      destruct (ParseInt.parseInt (params_id context) None) as [petitionId |].
      - destruct (String.eqb_spec (method (request context)) "GET") as [Hg | _];
          [rewrite Hg in Hmethod; intuition discriminate |].
        destruct (String.eqb_spec (method (request context)) "PUT") as [_ | Hnp].
        + pose proof (put_invalidates context petitionId c L w Hrel) as Hput.
          destruct (PetitionById.put context petitionId w) as [[r | e] w1]; simpl in Hput.
          * intros [= <- <-]. now apply (Hput r).
          * intros [= <- <-]. discriminate.
        + destruct (String.eqb_spec (method (request context)) "DELETE") as [_ | Hnd];
            [| tauto].
          pose proof (delete_invalidates petitionId c L w Hrel) as Hdel.
          destruct (PetitionById.delete petitionId w) as [[r | e] w1]; simpl in Hdel.
          * intros [= <- <-]. now apply (Hdel r).
          * intros [= <- <-]. discriminate.
      - intros [= <- <-]. discriminate. }
    destruct Hkey as [Hkey | Hkey].
    + apply getCachedData_uncached. intros e He.
      destruct Hflushed as (Hclock & _ & Hentries). rewrite Hentries in He.
      unfold purge in He. rewrite Hkey, Hclock in *. simpl in He.
      destruct (Js.startsWith "petition:" key && _); [discriminate |].
      destruct (L key) as [e' |]; simpl in He; [| discriminate].
      destruct (kv_live (epoch_seconds c) e') eqn:Hlive; [discriminate |].
      now injection He as <-.
    + exact (purged_is_miss key "petition:" c _ w' Hflushed Hkey).
  - intros response w' E Hmethod Hstatus.
    assert (Hflushed : reliable_cache c (purge (epoch_seconds c) "petitions:" L) w').
    { revert E. unfold PetitionsIndex.onRequest, handleCORS. rewrite Hmethod.
      cbn [String.eqb Ascii.eqb Bool.eqb]. unfold try_catch.
      destruct (data_user context) as [user |]; [| intros [= <- <-]; discriminate].
      pose proof (post_invalidates context user c L w Hrel) as Hpost.
      destruct (PetitionsIndex.post context user w) as [[r | e] w1]; simpl in Hpost.
      - intros [= <- <-]. now apply (Hpost r).
      - intros [= <- <-]. discriminate. }
    split.
    + intros key Hkey. exact (purged_is_miss key "petitions:" c L w' Hflushed Hkey).
    + intros key Hkey. destruct Hflushed as (_ & _ & Hentries).
      rewrite Hentries. unfold purge. now rewrite Hkey.
Qed.

End Mutations.

(** An update of petition 1 empties both namespaces. *)
Lemma mutation_invalidates_caches_witness :
  let w := world (Some (kv_of [cached_listing; cached_petition] [])) in
  let put := a_context (a_request "PUT" "/api/petitions/1" [] [] (Some retitle)) "1" None in
  let run := @PetitionById.onRequest MemDb MemDb_service code_unit_locale put w in
  fst (getCachedData "petitions:/api/petitions" w) = Ok (JArr [])
  /\ status (response_of run) = 200
  /\ fst (getCachedData "petitions:/api/petitions" (snd run)) = Ok JNull
  /\ fst (getCachedData "petition:/api/petitions/1" (snd run)) = Ok JNull.
Proof.
  cbv zeta.
  set (w := world (Some (kv_of [cached_listing; cached_petition] []))).
  set (put := a_context (a_request "PUT" "/api/petitions/1" [] [] (Some retitle)) "1" None).
  set (run := @PetitionById.onRequest MemDb MemDb_service code_unit_locale put w).
  assert (Hrel : cache_reliable w) by (intros kv [= <-]; reflexivity).
  assert (Hfst : fst run = Ok (response_of run)) by (vm_compute; reflexivity).
  assert (Hstatus : status (response_of run) = 200) by (vm_compute; reflexivity).
  pose proof (eq_trans (surjective_pairing run) (f_equal (fun x => (x, snd run)) Hfst)) as E.
  destruct (@mutation_invalidates_caches MemDb MemDb_service code_unit_locale put w Hrel)
    as [Hput _].
  pose proof (Hput (response_of run) (snd run) E (or_introl eq_refl) Hstatus) as Hmiss.
  split; [vm_compute; reflexivity |]. split; [exact Hstatus |]. split.
  - apply Hmiss. left. reflexivity.
  - apply Hmiss. right. reflexivity.
Defined.

(** C1 as stated fails twice: a successful create leaves the entries under
    [petition:] in the cache, and a successful update whose listing of
    [petitions:] fails leaves the entries under [petitions:] in the cache. *)
Lemma mutation_claim_counterexample :
  let healthy := world (Some (kv_of [cached_listing; cached_petition] [])) in
  let failing := world (Some (kv_of [cached_listing; cached_petition] [true])) in
  let post :=
    a_context (a_request "POST" "/api/petitions" [] []
                 (Some (local_payload [("location", JStr "Manila")]))) EmptyString (Some alice) in
  let put := a_context (a_request "PUT" "/api/petitions/1" [] [] (Some retitle)) "1" None in
  let created := @PetitionsIndex.onRequest MemDb MemDb_service code_unit_locale post healthy in
  let updated := @PetitionById.onRequest MemDb MemDb_service code_unit_locale put failing in
  (status (response_of created) = 200
   /\ fst (getCachedData "petition:/api/petitions/1" (snd created)) = Ok (JObj []))
  /\ (status (response_of updated) = 200
      /\ fst (getCachedData "petitions:/api/petitions" (snd updated)) = Ok (JArr [])).
Proof.
  cbv zeta. repeat split; vm_compute; reflexivity.
Qed.

(** ** Ownership *)

Section Ownership.
Context {D : Type} `{DatabaseService D} `{Locale}.

(** What the guard returns for an authenticated user and an existing
    petition. *)
Lemma requirePetitionOwnership_found
    (request : Request) (env : Env) (petitionId : Z) (w : World D)
    (user : AuthenticatedUser) (p : Petition) :
  fst (getAuthenticatedUser request w) = Ok (Some user) ->
  getPetitionById petitionId (env_DB w) = Ok (Some p) ->
  requirePetitionOwnership request env petitionId w
  = (Ok (if String.eqb (created_by p) (user_id user) then inl user
         else inr (json_response 403
                     (JObj [("error", JStr "Forbidden");
                            ("message", JStr "You can only modify petitions you created")])
                     request env)),
     log_event (DbCall "getPetitionById") (log_event AuthCall w)).
Proof.
  intros Hauth Hfound.
  unfold requirePetitionOwnership, requireAuthentication, bind.
  assert (Hw : snd (getAuthenticatedUser request w) = log_event AuthCall w).
  { unfold getAuthenticatedUser.
    destruct (auth_provider w _) as [| [] [[u |] |]]; try reflexivity.
    destruct (String.eqb (user_id u) EmptyString); reflexivity. }
  destruct (getAuthenticatedUser request w) as [r w1]. simpl in Hauth, Hw. subst r w1.
  cbn [ret]. unfold try_catch, bind, db_query. cbn [env_DB log_event].
  rewrite Hfound. destruct (String.eqb (created_by p) (user_id user)); reflexivity.
Qed.

(** C2. A [PUT] by an authenticated identity that is not the petition's
    [created_by] is answered 403 and the database is left as it was; when the
    identities match the request goes on to the update handler. *)
Theorem put_requires_ownership
    (context : EventContext) (petitionId : Z) (w : World D)
    (user : AuthenticatedUser) (p : Petition) :
  method (request context) = "PUT" ->
  fst (getAuthenticatedUser (request context) w) = Ok (Some user) ->
  getPetitionById petitionId (env_DB w) = Ok (Some p) ->
  let w1 := log_event (DbCall "getPetitionById") (log_event AuthCall w) in
  (created_by p <> user_id user ->
   exists response,
     PetitionById.guarded_onRequest context petitionId w = (Ok response, w1)
     /\ status response = 403
     /\ env_DB w1 = env_DB w
     /\ getPetitionById petitionId (env_DB w1) = Ok (Some p))
  /\ (created_by p = user_id user ->
      PetitionById.guarded_onRequest context petitionId w
      = PetitionById.onRequest
          {| request := request context; env := env context;
             params_id := params_id context; data_user := Some user |} w1).
Proof.
  intros _ Hauth Hfound. cbv zeta.
  unfold PetitionById.guarded_onRequest, bind.
  rewrite (requirePetitionOwnership_found _ _ _ _ _ _ Hauth Hfound).
  split.
  - intros Hne. destruct (String.eqb_spec (created_by p) (user_id user)); [contradiction |].
    eexists. split; [reflexivity |]. split; [reflexivity |]. split; [reflexivity | exact Hfound].
  - intros Heq. destruct (String.eqb_spec (created_by p) (user_id user)); [| contradiction].
    reflexivity.
Qed.

End Ownership.

(** Bob's update of Alice's petition is refused and the petition keeps its
    title; Alice's own update succeeds and empties the cached listing. *)
Lemma put_requires_ownership_witness :
  let w := world (Some (kv_of [cached_listing] [])) in
  let put cookie :=
    a_context (a_request "PUT" "/api/petitions/1" [] [("Cookie", cookie)] (Some retitle))
      "1" None in
  let by_bob :=
    @PetitionById.guarded_onRequest MemDb MemDb_service code_unit_locale
      (put "session=bob") 1 w in
  let by_alice :=
    @PetitionById.guarded_onRequest MemDb MemDb_service code_unit_locale
      (put "session=alice") 1 w in
  (status (response_of by_bob) = 403
   /\ rows (env_DB (snd by_bob)) !! 1 = Some petition_1)
  /\ (status (response_of by_alice) = 200
      /\ title <$> rows (env_DB (snd by_alice)) !! 1 = Some "A brand new title"
      /\ fst (getCachedData "petitions:/api/petitions" (snd by_alice)) = Ok JNull).
Proof.
  cbv zeta.
  set (w := world (Some (kv_of [cached_listing] []))).
  set (put := fun cookie =>
         a_context (a_request "PUT" "/api/petitions/1" [] [("Cookie", cookie)] (Some retitle))
           "1" None).
  assert (Hbob : fst (getAuthenticatedUser (request (put "session=bob")) w) = Ok (Some bob))
    by (vm_compute; reflexivity).
  assert (Halice : fst (getAuthenticatedUser (request (put "session=alice")) w)
                   = Ok (Some alice)) by (vm_compute; reflexivity).
  assert (Hfound : getPetitionById 1 (env_DB w) = Ok (Some petition_1))
    by (vm_compute; reflexivity).
  split.
  - destruct (@put_requires_ownership MemDb MemDb_service code_unit_locale
                (put "session=bob") 1 w bob petition_1 eq_refl Hbob Hfound)
      as [Hrefused _].
    destruct (Hrefused ltac:(discriminate)) as (response & E & Hstatus & Hdb & _).
    unfold response_of. rewrite E. split; [exact Hstatus |]. vm_compute. reflexivity.
  - destruct (@put_requires_ownership MemDb MemDb_service code_unit_locale
                (put "session=alice") 1 w alice petition_1 eq_refl Halice Hfound)
      as [_ Hpermitted].
    unfold response_of. rewrite (Hpermitted eq_refl).
    repeat split; vm_compute; reflexivity.
Defined.

(** The handler of one petition does not look at the caller: without the
    guard in front of it Bob's update of Alice's petition goes through. *)
Lemma onRequest_put_is_unguarded :
  let w := world (Some (kv_of [cached_listing] [])) in
  let put :=
    a_context (a_request "PUT" "/api/petitions/1" [] [("Cookie", "session=bob")]
                 (Some retitle)) "1" (Some bob) in
  let run := @PetitionById.onRequest MemDb MemDb_service code_unit_locale put w in
  status (response_of run) = 200
  /\ title <$> rows (env_DB (snd run)) !! 1 = Some "A brand new title".
Proof.
  cbv zeta. split; vm_compute; reflexivity.
Qed.

(** ** Creating a local petition *)

(** A local petition without a location is refused with the error of field
    [location]; with the location [Manila] it passes, and its target count
    is 1000. *)
Lemma create_local_petition_location_witness :
  let w := world (Some (kv_of [] [])) in
  let post payload :=
    a_context (a_request "POST" "/api/petitions" [] [] (Some payload)) EmptyString (Some alice) in
  (exists response,
     @PetitionsIndex.onRequest MemDb MemDb_service code_unit_locale
       (post (local_payload [])) w = (Ok response, w)
     /\ status response = 422
     /\ body response
        = Some (JSON.stringify
                  (JObj [("message", JStr "Validation failed");
                         ("errors", JArr [FieldError_to_json location_error])])))
  /\ (exists data,
        Zod.safeParse createPetitionSchema
          (JObj (set_property "created_by" (JStr "alice")
                   [("title", JStr a_title); ("description", JStr a_description);
                    ("type", JStr "local"); ("location", JStr "Manila")]))
        = Zod.Success data
        /\ c_location data = Some "Manila"
        /\ c_target_count data = 1000).
Proof.
  cbv zeta.
  set (w := world (Some (kv_of [] []))).
  set (bare := [("title", JStr a_title); ("description", JStr a_description);
                ("type", JStr "local")]).
  set (located := [("title", JStr a_title); ("description", JStr a_description);
                   ("type", JStr "local"); ("location", JStr "Manila")]).
  set (post := fun payload =>
         a_context (a_request "POST" "/api/petitions" [] [] (Some payload)) EmptyString (Some alice)).
  assert (Hjson : Js.includes "multipart/form-data"
                    (or_else (headers_get "content-type" (request (post (JObj bare)))) EmptyString)
                  = false) by (vm_compute; reflexivity).
  assert (Hbare : other_fields_valid bare).
  { exists a_title, a_description, 1000, None, None.
    repeat split; vm_compute; reflexivity. }
  assert (Hlocated : other_fields_valid located).
  { exists a_title, a_description, 1000, None, None.
    repeat split; vm_compute; reflexivity. }
  assert (Htype : Zod.property "type" bare = Some (JStr "local")) by (vm_compute; reflexivity).
  assert (Htype' : Zod.property "type" located = Some (JStr "local"))
    by (vm_compute; reflexivity).
  assert (Hnone : Zod.property "location" bare = None) by (vm_compute; reflexivity).
  assert (Hsome : Zod.property "location" located = Some (JStr "Manila"))
    by (vm_compute; reflexivity).
  assert (Hne : Js.trim "Manila" <> EmptyString) by (vm_compute; discriminate).
  split.
  - destruct (@create_local_petition_location MemDb MemDb_service code_unit_locale
                (post (JObj bare)) alice bare w eq_refl eq_refl Hjson eq_refl Htype Hbare)
      as [Hrefused _].
    destruct (Hrefused (or_introl Hnone)) as (_ & response & E & Hstatus & Hbody).
    exists response. split; [exact E |]. split; [exact Hstatus | exact Hbody].
  - destruct (@create_local_petition_location MemDb MemDb_service code_unit_locale
                (post (JObj located)) alice located w eq_refl eq_refl Hjson eq_refl
                Htype' Hlocated) as [_ Hpasses].
    destruct (Hpasses "Manila" Hsome Hne) as (data & E & _ & Hlocation & Htarget).
    exists data. split; [exact E |]. split; [exact Hlocation |].
    apply Htarget. vm_compute. reflexivity.
Defined.

(** C3 as stated fails twice: a local payload without a location and without
    a title is refused with the error of [title] alone, because the location
    rule is not run after a type error; and a payload whose location is a
    blank is not empty yet does not pass. *)
Lemma create_local_claim_counterexample :
  let w := world (Some (kv_of [] [])) in
  let post payload :=
    a_context (a_request "POST" "/api/petitions" [] [] (Some payload)) EmptyString (Some alice) in
  let untitled := JObj [("description", JStr a_description); ("type", JStr "local")] in
  let blank := local_payload [("location", JStr " ")] in
  let refused :=
    @PetitionsIndex.onRequest MemDb MemDb_service code_unit_locale (post untitled) w in
  (status (response_of refused) = 422
   /\ body (response_of refused)
      = Some (JSON.stringify
                (validation_body [{| field := "title"; message := "Title is required" |}])))
  /\ Zod.safeParse createPetitionSchema
       (JObj (set_property "created_by" (JStr "alice")
                [("title", JStr a_title); ("description", JStr a_description);
                 ("type", JStr "local"); ("location", JStr " ")]))
     = Zod.Failure [location_issue].
Proof.
  cbv zeta. repeat split; vm_compute; reflexivity.
Qed.

(** * Further properties of the handlers and their helpers *)

(** ** What the handlers always do *)

Section HandlerOutcomes.
Context {D : Type} `{DatabaseService D} `{Locale}.

Lemma post_status (context : EventContext) (user : AuthenticatedUser) :
  responds (fun r => status r = 422 \/ status r = 200) (PetitionsIndex.post context user).
Proof.
  unfold PetitionsIndex.post. apply responds_bind. intros [petitionData imageFile].
  destruct (Zod.safeParse createPetitionSchema petitionData).
  - repeat (apply responds_bind; intros ?). apply responds_ret. now right.
  - apply responds_ret. now left.
Qed.

Lemma list_status (context : EventContext) :
  responds (fun r => status r = 401 \/ status r = 304 \/ status r = 200)
    (PetitionsIndex.get context).
Proof.
  intros w response w' E. unfold PetitionsIndex.get in E.
  assert (Hcached : forall petitions,
             status (createCachedResponse petitions (request context) (env context)
                       (5 * 60) (clock w)) = 401
             \/ status (createCachedResponse petitions (request context) (env context)
                          (5 * 60) (clock w)) = 304
             \/ status (createCachedResponse petitions (request context) (env context)
                          (5 * 60) (clock w)) = 200).
  { intros petitions. right. apply createCachedResponse_status. }
  destruct (searchParams_get "userId" (request context)) as [[| c rest] |].
  - refine (responds_bind (fun r => status r = 401 \/ status r = 304 \/ status r = 200)
              _ _ _ w response w' E).
    intros p. now apply responds_ret.
  - destruct (data_user context).
    + refine (responds_bind (fun r => status r = 401 \/ status r = 304 \/ status r = 200)
                _ _ _ w response w' E).
      intros p. now apply responds_ret.
    + injection E as <- _. now left.
  - refine (responds_bind (fun r => status r = 401 \/ status r = 304 \/ status r = 200)
              _ _ _ w response w' E).
    intros p. now apply responds_ret.
Qed.

(** A handler that ends in a [catch] that answers always answers. *)
Lemma try_catch_answers {A} (m : M D A) (a : JsValue -> A) (w : World D) :
  exists x, fst (try_catch m (fun e => ret (a e)) w) = Ok x.
Proof.
  unfold try_catch, ret. destruct (m w) as [[x | e] w1]; simpl; eauto.
Qed.

Lemma handleCORS_preflight (request : Request) (env : Env) :
  (method request = "OPTIONS"
   /\ handleCORS request env
      = Some {| status := 204; body := None; headers := getCorsHeaders request env |})
  \/ (method request <> "OPTIONS" /\ handleCORS request env = None).
Proof.
  unfold handleCORS. destruct (String.eqb_spec (method request) "OPTIONS"); auto.
Qed.

Lemma byId_outcome (context : EventContext) :
  responds (fun r => (method (request context) = "OPTIONS" /\ status r = 204)
                     \/ (method (request context) <> "OPTIONS"
                         /\ In (status r) [200; 304; 400; 405; 422; 500]))
    (PetitionById.onRequest context).
Proof.
  unfold PetitionById.onRequest.
  destruct (handleCORS_preflight (request context) (env context)) as [[Hm ->] | [Hm ->]].
  - apply responds_ret. now left.
  - apply responds_try_catch; [| intros e; apply responds_ret; right; simpl; intuition congruence].
    destruct (ParseInt.parseInt (params_id context) None) as [petitionId |];
      [| apply responds_ret; right; simpl; intuition congruence].
    destruct (String.eqb (method (request context)) "GET").
    { intros w0 r w1 E. right. destruct (get_status context petitionId w0 r w1 E);
        simpl; intuition congruence. }
    destruct (String.eqb (method (request context)) "PUT").
    { intros w0 r w1 E. right. destruct (put_status context petitionId w0 r w1 E);
        simpl; intuition congruence. }
    destruct (String.eqb (method (request context)) "DELETE").
    { intros w0 r w1 E. right. pose proof (delete_status petitionId w0 r w1 E).
      simpl; intuition congruence. }
    apply responds_ret. right. simpl. intuition congruence.
Qed.

Lemma index_outcome (context : EventContext) :
  responds (fun r => (method (request context) = "OPTIONS" /\ status r = 204)
                     \/ (method (request context) <> "OPTIONS"
                         /\ In (status r) [200; 304; 401; 405; 422; 500]))
    (PetitionsIndex.onRequest context).
Proof.
  unfold PetitionsIndex.onRequest.
  destruct (handleCORS_preflight (request context) (env context)) as [[Hm ->] | [Hm ->]].
  - apply responds_ret. now left.
  - apply responds_try_catch; [| intros e; apply responds_ret; right; simpl; intuition congruence].
    destruct (String.eqb (method (request context)) "POST").
    { destruct (data_user context) as [user |];
        [| apply responds_ret; right; simpl; intuition congruence].
      intros w0 r w1 E. right. destruct (post_status context user w0 r w1 E);
        simpl; intuition congruence. }
    destruct (String.eqb (method (request context)) "GET").
    { intros w0 r w1 E. right. destruct (list_status context w0 r w1 E); simpl; intuition congruence. }
    apply responds_ret. right. simpl. intuition congruence.
Qed.

Lemma byId_answers (context : EventContext) (w : World D) :
  exists response, fst (PetitionById.onRequest context w) = Ok response.
Proof.
  unfold PetitionById.onRequest. destruct (handleCORS _ _).
  - now eexists.
  - apply try_catch_answers.
Qed.

Lemma index_answers (context : EventContext) (w : World D) :
  exists response, fst (PetitionsIndex.onRequest context w) = Ok response.
Proof.
  unfold PetitionsIndex.onRequest. destruct (handleCORS _ _).
  - now eexists.
  - apply try_catch_answers.
Qed.

(** Neither handler ever throws, and the status of every response is one of
    the statuses the source spells out: 204 for the pre-flight, 200 and 304
    for reads, 200 for mutations, 400 (by id only), 401 (collection only),
    405, 422, and 500 from the [catch]. *)
Theorem handlers_never_throw (context : EventContext) (w : World D) :
  (exists response,
     fst (PetitionById.onRequest context w) = Ok response
     /\ In (status response) [204; 200; 304; 400; 405; 422; 500])
  /\ (exists response,
        fst (PetitionsIndex.onRequest context w) = Ok response
        /\ In (status response) [204; 200; 304; 401; 405; 422; 500]).
Proof.
  split.
  - destruct (byId_answers context w) as [response E]. exists response.
    split; [exact E |].
    destruct (PetitionById.onRequest context w) as [r w'] eqn:Erun. simpl in E. subst r.
    destruct (byId_outcome context w response w' Erun) as [[_ ->] | [_ Hs]];
      simpl in *; intuition congruence.
  - destruct (index_answers context w) as [response E]. exists response.
    split; [exact E |].
    destruct (PetitionsIndex.onRequest context w) as [r w'] eqn:Erun. simpl in E. subst r.
    destruct (index_outcome context w response w' Erun) as [[_ ->] | [_ Hs]];
      simpl in *; intuition congruence.
Qed.

(** A response has status 204 exactly when the request is a CORS pre-flight
    ([OPTIONS]); the pre-flight is answered with no body and the CORS headers
    of the request, before the id is parsed or the user is looked at, and
    without a call to any collaborator: the world is as it was. *)
Theorem preflight_exactly_options (context : EventContext) (w w' : World D)
    (response : Response) :
  PetitionById.onRequest context w = (Ok response, w')
  \/ PetitionsIndex.onRequest context w = (Ok response, w') ->
  (status response = 204 <-> method (request context) = "OPTIONS")
  /\ (method (request context) = "OPTIONS" ->
      w' = w
      /\ response = {| status := 204; body := None;
                       headers := getCorsHeaders (request context) (env context) |}).
Proof.
  intros Hrun. split.
  - destruct Hrun as [E | E];
      [destruct (byId_outcome context w response w' E) as [[Hm Hs] | [Hm Hs]]
      | destruct (index_outcome context w response w' E) as [[Hm Hs] | [Hm Hs]]];
      split; intros Hx; try tauto;
      exfalso; simpl in Hs; lia.
  - intros Hm.
    assert (Hcors : handleCORS (request context) (env context)
                    = Some {| status := 204; body := None;
                              headers := getCorsHeaders (request context) (env context) |}).
    { destruct (handleCORS_preflight (request context) (env context))
        as [[_ Hc] | [Hn _]]; [exact Hc | contradiction]. }
    destruct Hrun as [E | E];
      [unfold PetitionById.onRequest in E | unfold PetitionsIndex.onRequest in E];
      rewrite Hcors in E; injection E as <- <-; auto.
Qed.

(** ** Refusals come before any effect *)

Lemma pure_ret {A} (a : A) : pure_step (D := D) (ret a).
Proof. now intros w. Qed.

Lemma pure_bind {A B} (m : M D A) (f : A -> M D B) :
  pure_step m -> (forall a, pure_step (f a)) -> pure_step (bind m f).
Proof.
  intros Hm Hf w. unfold bind. specialize (Hm w).
  destruct (m w) as [[a | e] w1]; simpl in *; subst; [apply Hf | reflexivity].
Qed.

Lemma pure_await_formData (r : Request) : pure_step (D := D) (await_formData r).
Proof. intros w. unfold await_formData. now destruct (req_formData r). Qed.

Lemma pure_await_json (r : Request) : pure_step (D := D) (await_json r).
Proof. intros w. unfold await_json. now destruct (req_json r). Qed.

Lemma pure_assign_created_by (payload : json) (user : string) :
  pure_step (D := D) (assign_created_by payload user).
Proof. intros w. now destruct payload. Qed.

Lemma early_ret (late : Response -> Prop) (r : Response) :
  answers_early (D := D) late (ret r).
Proof. intros w response w' [= _ <-]. now right. Qed.

Lemma early_late (late : Response -> Prop) (m : M D Response) :
  responds late m -> answers_early late m.
Proof. intros Hm w response w' E. left. exact (Hm w response w' E). Qed.

Lemma early_bind {A} (late : Response -> Prop) (m : M D A) (f : A -> M D Response) :
  pure_step m -> (forall a, answers_early late (f a)) -> answers_early late (bind m f).
Proof.
  intros Hm Hf w response w' E. unfold bind in E. specialize (Hm w).
  destruct (m w) as [[a | e] w1]; [| discriminate]. simpl in Hm. subst w1.
  exact (Hf a w response w' E).
Qed.

Lemma early_try_catch (late : Response -> Prop) (m : M D Response)
    (handler : JsValue -> Response) :
  answers_early late m -> (forall e, late (handler e)) ->
  answers_early late (try_catch m (fun e => ret (handler e))).
Proof.
  intros Hm Hh w response w' E. unfold try_catch in E.
  destruct (m w) as [[a | e] w1] eqn:Em.
  - injection E as <- <-. exact (Hm w a w1 Em).
  - injection E as <- _. left. apply Hh.
Qed.

Lemma put_early (context : EventContext) (petitionId : Z) :
  answers_early (fun r => status r = 200) (PetitionById.put context petitionId).
Proof.
  unfold PetitionById.put. apply early_bind.
  - destruct (Js.includes _ _).
    + apply pure_bind; [apply pure_await_formData | intros; apply pure_ret].
    + apply pure_bind; [apply pure_await_json | intros; apply pure_ret].
  - intros [petitionData imageFile].
    destruct (Zod.safeParse updatePetitionSchema petitionData); [| apply early_ret].
    apply early_late. repeat (apply responds_bind; intros ?). now apply responds_ret.
Qed.

Lemma post_early (context : EventContext) (user : AuthenticatedUser) :
  answers_early (fun r => status r = 200) (PetitionsIndex.post context user).
Proof.
  unfold PetitionsIndex.post. apply early_bind.
  - destruct (Js.includes _ _).
    + apply pure_bind; [apply pure_await_formData | intros; apply pure_ret].
    + apply pure_bind; [apply pure_await_json |]. intros payload.
      apply pure_bind; [apply pure_assign_created_by | intros; apply pure_ret].
  - intros [petitionData imageFile].
    destruct (Zod.safeParse createPetitionSchema petitionData); [| apply early_ret].
    apply early_late. repeat (apply responds_bind; intros ?). now apply responds_ret.
Qed.

Lemma list_early (context : EventContext) :
  answers_early (fun r => status r = 304 \/ status r = 200) (PetitionsIndex.get context).
Proof.
  intros w response w' E. unfold PetitionsIndex.get in E.
  destruct (searchParams_get "userId" (request context)) as [[| c rest] |];
    try (left;
         refine (responds_bind (fun r => status r = 304 \/ status r = 200)
                   _ _ _ w response w' E);
         intros p; apply responds_ret; apply createCachedResponse_status).
  destruct (data_user context).
  - left.
    refine (responds_bind (fun r => status r = 304 \/ status r = 200)
              _ _ _ w response w' E).
    intros p. apply responds_ret. apply createCachedResponse_status.
  - injection E as _ <-. now right.
Qed.

(** Every response other than 200, 304 and 500 (so: 204, 400, 401, 405 and
    422) is given before any collaborator is called: the database, the cache
    store, the image bucket and the record of calls are as they were.  In
    particular a payload is validated before anything is written. *)
Theorem refusals_touch_nothing (context : EventContext) (w w' : World D)
    (response : Response) :
  PetitionById.onRequest context w = (Ok response, w')
  \/ PetitionsIndex.onRequest context w = (Ok response, w') ->
  status response <> 200 -> status response <> 304 -> status response <> 500 ->
  w' = w.
Proof.
  intros Hrun H200 H304 H500.
  assert (Hearly : answers_early
                     (fun r => status r = 200 \/ status r = 304 \/ status r = 500)
                     (PetitionById.onRequest context)
                   /\ answers_early
                        (fun r => status r = 200 \/ status r = 304 \/ status r = 500)
                        (PetitionsIndex.onRequest context)).
  { split.
    - unfold PetitionById.onRequest. destruct (handleCORS _ _); [apply early_ret |].
      apply (early_try_catch _ _
               (fun e => createCachedErrorResponse e (request context) (env context) 500));
        [| intros e; simpl; tauto].
      destruct (ParseInt.parseInt _ _) as [petitionId |]; [| apply early_ret].
      destruct (String.eqb _ "GET").
      { apply early_late. intros w0 r w1 E.
        destruct (get_status context petitionId w0 r w1 E); tauto. }
      destruct (String.eqb _ "PUT").
      { intros w0 r w1 E. destruct (put_early context petitionId w0 r w1 E); tauto. }
      destruct (String.eqb _ "DELETE").
      { apply early_late. intros w0 r w1 E.
        pose proof (delete_status petitionId w0 r w1 E). tauto. }
      apply early_ret.
    - unfold PetitionsIndex.onRequest. destruct (handleCORS _ _); [apply early_ret |].
      apply (early_try_catch _ _
               (fun e => createCachedErrorResponse e (request context) (env context) 500));
        [| intros e; simpl; tauto].
      destruct (String.eqb _ "POST").
      { destruct (data_user context) as [user |]; [| apply early_ret].
        intros w0 r w1 E. destruct (post_early context user w0 r w1 E); tauto. }
      destruct (String.eqb _ "GET").
      { intros w0 r w1 E. destruct (list_early context w0 r w1 E); tauto. }
      apply early_ret. }
  destruct Hearly as [Hid Hindex].
  destruct Hrun as [E | E];
    [destruct (Hid w response w' E) | destruct (Hindex w response w' E)]; tauto.
Qed.

(** ** A mutation that is not answered with 200 has not touched the cache *)

Lemma succeeds_ret (S : Response -> Prop) (r : Response) :
  S r -> succeeds (D := D) S (ret r).
Proof. intros Hr w. now exists r. Qed.

Lemma succeeds_after {A} (S : Response -> Prop) (m : M D A) (f : A -> M D Response) :
  (forall w, exists a, fst (m w) = Ok a) -> (forall a, succeeds S (f a)) ->
  succeeds S (bind m f).
Proof.
  intros Hm Hf w. unfold bind. destruct (Hm w) as [a Ha].
  destruct (m w) as [r w1]. simpl in Ha. subst r. apply Hf.
Qed.

Lemma invalidate_answers (pattern : string) (w : World D) :
  exists a, fst (invalidateCachePattern pattern w) = Ok a.
Proof.
  unfold invalidateCachePattern.
  match goal with |- context [try_catch ?m _ w] =>
    destruct (try_catch_ret_total m tt w) as (a & w' & ->) end.
  now exists a.
Qed.

Lemma attach_image_answers (petitionId : Z) (imageFile : option File) (petition : Petition)
    (w : World D) :
  exists p, fst (attach_image petitionId imageFile petition w) = Ok p.
Proof.
  unfold attach_image. destruct imageFile as [file |]; [| now eexists].
  destruct (file_size file >? 0); [| now eexists].
  match goal with |- context [try_catch ?m _ w] =>
    destruct (try_catch_ret_total m petition w) as (a & w' & ->) end.
  now exists a.
Qed.

Lemma keeps_of_succeeds (S : Response -> Prop) (m : M D Response) :
  succeeds S m -> keeps_cache_unless S m.
Proof. intros Hm w. left. apply Hm. Qed.

Lemma keeps_of_preserves (S : Response -> Prop) (m : M D Response) :
  preserves_cache m -> keeps_cache_unless S m.
Proof. intros Hm w. right. apply Hm. Qed.

Lemma keeps_bind {A} (S : Response -> Prop) (m : M D A) (f : A -> M D Response) :
  preserves_cache m -> (forall a, keeps_cache_unless S (f a)) ->
  keeps_cache_unless S (bind m f).
Proof.
  intros Hm Hf w. unfold bind. destruct (Hm w) as [Hc _].
  destruct (m w) as [[a | e] w1]; simpl in *; [| now right].
  destruct (Hf a w1) as [Hs | Hk]; [now left | right; congruence].
Qed.

Lemma keeps_try_catch (S : Response -> Prop) (m : M D Response)
    (handler : JsValue -> M D Response) :
  keeps_cache_unless S m -> (forall e, preserves_cache (handler e)) ->
  keeps_cache_unless S (try_catch m handler).
Proof.
  intros Hm Hh w. unfold try_catch. specialize (Hm w).
  destruct (m w) as [[a | e] w1]; simpl in *; [exact Hm |].
  destruct Hm as [(r & Hr & _) | Hk]; [discriminate |].
  right. destruct (Hh e w1) as [Hc _]. congruence.
Qed.

Lemma invalidated_success (patterns : list string) (response : Response) :
  status response = 200 ->
  succeeds (D := D) (fun r => status r = 200)
    (fold_right (fun pattern k => bind (invalidateCachePattern pattern) (fun _ => k))
       (ret response) patterns).
Proof.
  intros Hr. induction patterns as [| pattern rest IH]; simpl.
  - now apply succeeds_ret.
  - apply succeeds_after; [apply invalidate_answers | intros _; exact IH].
Qed.

Lemma put_keeps_cache (context : EventContext) (petitionId : Z) :
  keeps_cache_unless (fun r => status r = 200) (PetitionById.put context petitionId).
Proof.
  unfold PetitionById.put. apply keeps_bind.
  - destruct (Js.includes _ _).
    + apply preserves_bind; [apply preserves_await_formData | intros; apply preserves_ret].
    + apply preserves_bind; [apply preserves_await_json | intros; apply preserves_ret].
  - intros [petitionData imageFile].
    destruct (Zod.safeParse updatePetitionSchema petitionData);
      [| apply keeps_of_preserves, preserves_ret].
    apply keeps_bind; [apply preserves_db_mutate |]. intros updated.
    apply keeps_of_succeeds.
    apply succeeds_after; [apply attach_image_answers |]. intros p.
    refine (invalidated_success ["petitions:"; "petition:"]%string
              (createSuccessResponse _) _).
    reflexivity.
Qed.

Lemma delete_keeps_cache (petitionId : Z) :
  keeps_cache_unless (D := D) (fun r => status r = 200) (PetitionById.delete petitionId).
Proof.
  unfold PetitionById.delete. apply keeps_bind; [apply preserves_db_mutate |]. intros _.
  apply keeps_of_succeeds.
  refine (invalidated_success ["petitions:"; "petition:"]%string
              (createSuccessResponse _) _).
    reflexivity.
Qed.

Lemma post_keeps_cache (context : EventContext) (user : AuthenticatedUser) :
  keeps_cache_unless (fun r => status r = 200) (PetitionsIndex.post context user).
Proof.
  unfold PetitionsIndex.post. apply keeps_bind.
  - destruct (Js.includes _ _).
    + apply preserves_bind; [apply preserves_await_formData | intros; apply preserves_ret].
    + apply preserves_bind; [apply preserves_await_json |]. intros payload.
      apply preserves_bind; [apply preserves_assign_created_by | intros; apply preserves_ret].
  - intros [petitionData imageFile].
    destruct (Zod.safeParse createPetitionSchema petitionData);
      [| apply keeps_of_preserves, preserves_ret].
    apply keeps_bind; [apply preserves_db_mutate |]. intros created.
    apply keeps_of_succeeds.
    apply succeeds_after; [apply attach_image_answers |]. intros p.
    refine (invalidated_success ["petitions:"]%string (createSuccessResponse _) _).
    reflexivity.
Qed.

(** The cache store is written by a request other than a read ([GET]) only
    when the request is answered with 200: a create, update or delete that
    is refused or that fails (the database throws, the body cannot be read)
    leaves every cached entry, and the fault schedule of the store, as they
    were.  Once the database has accepted the mutation nothing can turn the
    answer into a failure: the image upload and the invalidation absorb
    their own errors. *)
Theorem failed_mutation_keeps_cache (context : EventContext) (w w' : World D)
    (response : Response) :
  PetitionById.onRequest context w = (Ok response, w')
  \/ PetitionsIndex.onRequest context w = (Ok response, w') ->
  method (request context) <> "GET" ->
  status response <> 200 ->
  env_CACHE w' = env_CACHE w.
Proof.
  intros Hrun Hget Hfailed.
  apply String.eqb_neq in Hget.
  assert (Hkeeps : keeps_cache_unless (fun r => status r = 200)
                     (PetitionById.onRequest context)
                   /\ keeps_cache_unless (fun r => status r = 200)
                        (PetitionsIndex.onRequest context)).
  { split.
    - unfold PetitionById.onRequest.
      destruct (handleCORS _ _); [apply keeps_of_preserves, preserves_ret |].
      apply keeps_try_catch; [| intros e; apply preserves_ret].
      destruct (ParseInt.parseInt _ _) as [petitionId |];
        [| apply keeps_of_preserves, preserves_ret].
      rewrite Hget.
      destruct (String.eqb _ "PUT"); [apply put_keeps_cache |].
      destruct (String.eqb _ "DELETE"); [apply delete_keeps_cache |].
      apply keeps_of_preserves, preserves_ret.
    - unfold PetitionsIndex.onRequest.
      destruct (handleCORS _ _); [apply keeps_of_preserves, preserves_ret |].
      apply keeps_try_catch; [| intros e; apply preserves_ret].
      destruct (String.eqb _ "POST").
      { destruct (data_user context) as [user |];
          [apply post_keeps_cache | apply keeps_of_preserves, preserves_ret]. }
      rewrite Hget. apply keeps_of_preserves, preserves_ret. }
  destruct Hkeeps as [Hid Hindex].
  destruct Hrun as [E | E];
    [specialize (Hid w) | specialize (Hindex w)]; rewrite E in *; simpl in *.
  - destruct Hid as [(r & [= <-] & Hr) | Hk]; [contradiction | exact Hk].
  - destruct Hindex as [(r & [= <-] & Hr) | Hk]; [contradiction | exact Hk].
Qed.

End HandlerOutcomes.

(** The pre-flight of the collection, with no cache store bound. *)
Lemma preflight_exactly_options_witness :
  let preflight := a_context (a_request "OPTIONS" "/api/petitions" [] [] None)
                     EmptyString None in
  let response := {| status := 204; body := None;
                     headers := getCorsHeaders (request preflight) development |} in
  @PetitionsIndex.onRequest MemDb MemDb_service code_unit_locale preflight (world None)
  = (Ok response, world None)
  /\ (status response = 204 <-> method (request preflight) = "OPTIONS").
Proof.
  cbv zeta.
  assert (E : @PetitionsIndex.onRequest MemDb MemDb_service code_unit_locale
                (a_context (a_request "OPTIONS" "/api/petitions" [] [] None)
                   EmptyString None) (world None)
              = (Ok {| status := 204; body := None;
                       headers := getCorsHeaders
                                    (a_request "OPTIONS" "/api/petitions" [] [] None)
                                    development |}, world None))
    by (vm_compute; reflexivity).
  split; [exact E |].
  exact (proj1 (@preflight_exactly_options MemDb MemDb_service code_unit_locale
                  _ _ _ _ (or_intror E))).
Defined.

(** An update whose title is too short is refused with 422 and nothing is
    touched. *)
Lemma refusals_touch_nothing_witness :
  let w := world (Some (kv_of [cached_listing; cached_petition] [])) in
  let run :=
    @PetitionById.onRequest MemDb MemDb_service code_unit_locale
      (a_context (a_request "PUT" "/api/petitions/1" [] []
                    (Some (JObj [("title"%string, JStr "x")]))) "1" (Some alice)) w in
  status (response_of run) = 422 /\ snd run = w.
Proof.
  cbv zeta.
  set (w := world (Some (kv_of [cached_listing; cached_petition] []))).
  set (context := a_context (a_request "PUT" "/api/petitions/1" [] []
                               (Some (JObj [("title"%string, JStr "x")]))) "1" (Some alice)).
  set (run := @PetitionById.onRequest MemDb MemDb_service code_unit_locale context w).
  assert (E : run = (Ok (response_of run), snd run)) by (vm_compute; reflexivity).
  assert (Hs : status (response_of run) = 422) by (vm_compute; reflexivity).
  split; [exact Hs |].
  apply (@refusals_touch_nothing MemDb MemDb_service code_unit_locale
           context w (snd run) (response_of run) (or_introl E));
    rewrite Hs; discriminate.
Defined.

(** An update of a petition that does not exist fails with 500, and the two
    cached entries stay. *)
Lemma failed_mutation_keeps_cache_witness :
  let w := world (Some (kv_of [cached_listing; cached_petition] [])) in
  let run :=
    @PetitionById.onRequest MemDb MemDb_service code_unit_locale
      (a_context (a_request "PUT" "/api/petitions/99" [] [] (Some retitle))
         "99" (Some alice)) w in
  status (response_of run) = 500 /\ env_CACHE (snd run) = env_CACHE w.
Proof.
  cbv zeta.
  set (w := world (Some (kv_of [cached_listing; cached_petition] []))).
  set (context := a_context (a_request "PUT" "/api/petitions/99" [] [] (Some retitle))
                    "99" (Some alice)).
  set (run := @PetitionById.onRequest MemDb MemDb_service code_unit_locale context w).
  assert (E : run = (Ok (response_of run), snd run)) by (vm_compute; reflexivity).
  assert (Hs : status (response_of run) = 500) by (vm_compute; reflexivity).
  split; [exact Hs |].
  apply (@failed_mutation_keeps_cache MemDb MemDb_service code_unit_locale
           context w (snd run) (response_of run) (or_introl E)).
  - discriminate.
  - rewrite Hs. discriminate.
Defined.

(** ** Errors of the data fetch *)

(** What a read does to the world: one call to the store when it is bound. *)
Lemma getCachedData_effect {D} (key : string) (w : World D) :
  exists v w',
    getCachedData key w = (Ok v, w')
    /\ env_DB w' = env_DB w
    /\ loader_calls w' = loader_calls w
    /\ cache_entries w' = cache_entries w
    /\ env_IMAGES w' = env_IMAGES w.
Proof.
  destruct (env_CACHE w) as [kv |] eqn:E.
  - destruct (getCachedData_bound key w kv E) as (v & ->). eexists _, _.
    split; [reflexivity |]. unfold loader_calls, cache_entries. simpl. rewrite E.
    rewrite count_occ_app. simpl. repeat split. lia.
  - rewrite (getCachedData_unbound key w E). now eexists _, _.
Qed.

Lemma getOrSetCache_failure {D}
    (key : string) (loader : Loader D) (ttl : Z) (w : World D) (e : JsValue) (d' : D) :
  fst (getCachedData key w) = Ok JNull ->
  loader (env_DB w) = (Throw e, d') ->
  fst (getOrSetCache key loader ttl w) = Throw e
  /\ loader_calls (snd (getOrSetCache key loader ttl w)) = S (loader_calls w)
  /\ cache_entries (snd (getOrSetCache key loader ttl w)) = cache_entries w
  /\ env_IMAGES (snd (getOrSetCache key loader ttl w)) = env_IMAGES w
  /\ env_DB (snd (getOrSetCache key loader ttl w)) = d'.
Proof.
  intros Hmiss Hload. unfold getOrSetCache, bind.
  destruct (getCachedData_effect key w) as (v & w1 & E & Hdb & Hcalls & Hentries & Himages).
  rewrite E in *. simpl in Hmiss. injection Hmiss as ->.
  unfold run_loader. rewrite Hdb, Hload. cbn [fst snd].
  unfold loader_calls, cache_entries in *. simpl. rewrite count_occ_app. simpl.
  repeat split; [lia | exact Hentries | exact Himages].
Qed.

(** [getOrSetCache] throws exactly when the lookup misses and the data fetch
    throws, and what it throws is the error of the data fetch.  The fetch has
    then been invoked once and nothing is stored: an error is never cached,
    and no error of the store comes out. *)
Theorem getOrSetCache_throws_loader_error {D}
    (key : string) (loader : Loader D) (ttl : Z) (w : World D) (e : JsValue) :
  let w' := snd (getOrSetCache key loader ttl w) in
  (fst (getOrSetCache key loader ttl w) = Throw e
   <-> fst (getCachedData key w) = Ok JNull /\ fst (loader (env_DB w)) = Throw e)
  /\ (fst (getOrSetCache key loader ttl w) = Throw e ->
      loader_calls w' = S (loader_calls w)
      /\ cache_entries w' = cache_entries w
      /\ env_DB w' = snd (loader (env_DB w))).
Proof.
  cbv zeta. unfold getOrSetCache, bind.
  destruct (getCachedData_effect key w) as (v & w1 & -> & Hdb & Hcalls & Hentries & _).
  cbn [fst snd].
  assert (Hhit : v <> JNull ->
                 (match v with
                  | JNull =>
                      match run_loader loader w1 with
                      | (Ok data, w2) =>
                          bind (try_catch (setCachedData key data ttl) (fun _ => ret tt))
                            (fun _ => ret data) w2
                      | (Throw e0, w2) => (Throw e0, w2)
                      end
                  | _ => ret v w1
                  end) = (Ok v, w1)).
  { intros Hv. now destruct v. }
  destruct v;
    try (rewrite (Hhit ltac:(discriminate)); cbn [fst snd];
         split; [split; [discriminate | intros [[=] _]] | discriminate]).
  clear Hhit. unfold run_loader. rewrite Hdb.
  destruct (loader (env_DB w)) as [[data | e0] d'] eqn:Eload; cbn [fst snd].
  - unfold bind, try_catch.
    destruct (setCachedData_effect key data ttl (set_DB d' (log_event LoaderCall w1)))
      as (w3 & -> & _). cbn [fst snd ret].
    split; [split; [discriminate | intros [_ [=]]] | discriminate].
  - split.
    + split; [intros [= ->]; now split | intros [_ [= ->]]; reflexivity].
    + intros _. unfold loader_calls, cache_entries in *. simpl.
      rewrite count_occ_app. simpl. repeat split; [lia | exact Hentries].
Qed.

(** The fetch of a petition that does not exist, with the store unbound. *)
Lemma getOrSetCache_throws_loader_error_witness :
  let run :=
    getOrSetCache "petition:/api/petitions/99"
      (@PetitionById.petition_loader MemDb MemDb_service 99) 600 (world None) in
  fst run = Throw (ErrorObject "Petition not found")
  /\ loader_calls (snd run) = 1%nat
  /\ cache_entries (snd run) = ∅.
Proof.
  cbv zeta.
  assert (E : fst (getOrSetCache "petition:/api/petitions/99"
                     (@PetitionById.petition_loader MemDb MemDb_service 99) 600
                     (world None))
              = Throw (ErrorObject "Petition not found")) by (vm_compute; reflexivity).
  split; [exact E |].
  destruct (proj2 (getOrSetCache_throws_loader_error "petition:/api/petitions/99"
                     (@PetitionById.petition_loader MemDb MemDb_service 99) 600
                     (world None) (ErrorObject "Petition not found")) E)
    as (Hcalls & Hentries & _).
  split; [exact Hcalls | exact Hentries].
Defined.

(** ** Reading one petition *)

Section ReadOnePetition.
Context {D : Type} `{DatabaseService D} `{Locale}.

(** [GET /api/petitions/{id}] with a numeric id.  A petition that is not in
    the database (and not in the cache) is answered with status 500 and the
    message [Petition not found], not with 404, since the data fetch throws
    and the handler's [catch] answers; nothing is cached for it.  A cached
    petition is served without a call to the database; a petition that is
    found is served as it is in the database. *)
Theorem get_petition_outcomes (context : EventContext) (petitionId : Z) (w : World D) :
  method (request context) = "GET" ->
  ParseInt.parseInt (params_id context) None = Some petitionId ->
  let key := generateCacheKey (request context) "petition" in
  let run := PetitionById.onRequest context w in
  let answer data :=
    createCachedResponse data (request context) (env context) (10 * 60) (clock w) in
  (fst (getCachedData key w) = Ok JNull ->
   getPetitionById petitionId (env_DB w) = Ok None ->
   fst run = Ok (createCachedErrorResponse (ErrorObject "Petition not found")
                   (request context) (env context) 500)
   /\ cache_entries (snd run) = cache_entries w
   /\ env_DB (snd run) = env_DB w)
  /\ (forall p, fst (getCachedData key w) = Ok JNull ->
      getPetitionById petitionId (env_DB w) = Ok (Some p) ->
      fst run = Ok (answer (Petition_to_json p)) /\ env_DB (snd run) = env_DB w)
  /\ (forall v, fst (getCachedData key w) = Ok v -> v <> JNull ->
      fst run = Ok (answer v)
      /\ env_DB (snd run) = env_DB w
      /\ loader_calls (snd run) = loader_calls w).
Proof.
  intros Hget Hid. cbv zeta.
  assert (Hcors : handleCORS (request context) (env context) = None).
  { unfold handleCORS. now rewrite Hget. }
  unfold PetitionById.onRequest. rewrite Hcors, Hid, Hget.
  change (String.eqb "GET" "GET") with true. cbv iota.
  unfold PetitionById.get, try_catch, bind.
  set (key := generateCacheKey (request context) "petition").
  set (loader := PetitionById.petition_loader petitionId).
  split; [| split].
  - intros Hmiss Hnone.
    assert (Hload : loader (env_DB w) = (Throw (ErrorObject "Petition not found"), env_DB w)).
    { unfold loader, PetitionById.petition_loader. now rewrite Hnone. }
    destruct (getOrSetCache_failure key loader (10 * 60) w _ _ Hmiss Hload)
      as (Hr & _ & Hentries & _ & Hdb).
    destruct (getOrSetCache key loader (10 * 60) w) as [r w1]. simpl in *. subst r.
    simpl. auto.
  - intros p Hmiss Hsome.
    assert (Hload : loader (env_DB w) = (Ok (Petition_to_json p), env_DB w)).
    { unfold loader, PetitionById.petition_loader. now rewrite Hsome. }
    destruct (getOrSetCache_miss key loader (10 * 60) w _ _ Hmiss Hload)
      as (Hr & _ & Hdb & _).
    destruct (getOrSetCache key loader (10 * 60) w) as [r w1]. simpl in *. subst r.
    simpl. auto.
  - intros v Hv Hnn.
    destruct (getOrSetCache_hit key loader (10 * 60) w v Hv Hnn) as (Hr & Hcalls & Hdb).
    destruct (getOrSetCache key loader (10 * 60) w) as [r w1]. simpl in *. subst r.
    simpl. auto.
Qed.

End ReadOnePetition.

(** A petition that does not exist: 500, and the store stays empty. *)
Lemma get_petition_outcomes_witness :
  let w := world (Some (kv_of [] [])) in
  let run :=
    @PetitionById.onRequest MemDb MemDb_service code_unit_locale
      (a_context (a_request "GET" "/api/petitions/99" [] [] None) "99" None) w in
  status (response_of run) = 500 /\ cache_entries (snd run) = ∅.
Proof.
  cbv zeta.
  set (w := world (Some (kv_of [] []))).
  set (context := a_context (a_request "GET" "/api/petitions/99" [] [] None) "99" None).
  assert (Hmiss : fst (getCachedData
                         (@generateCacheKey code_unit_locale (request context) "petition") w)
                  = Ok JNull) by (vm_compute; reflexivity).
  destruct (@get_petition_outcomes MemDb MemDb_service code_unit_locale context 99 w
              eq_refl eq_refl) as (Hmissing & _).
  destruct (Hmissing Hmiss eq_refl) as (Hr & Hentries & _).
  unfold response_of. rewrite Hr. split; [reflexivity | exact Hentries].
Defined.

(** ** The authentication guards *)

(** What [getAuthenticatedUser] gives in terms of the answer of the session
    provider. *)
Lemma getAuthenticatedUser_cases {D} (request : Request) (w : World D) :
  exists r,
    getAuthenticatedUser request w = (Ok r, log_event AuthCall w)
    /\ match r with
       | Some user =>
           user_id user <> EmptyString
           /\ auth_provider w (session_request_for request)
              = AuthResponds true (Some (Some user))
       | None =>
           forall user,
             auth_provider w (session_request_for request)
             = AuthResponds true (Some (Some user)) ->
             user_id user = EmptyString
       end.
Proof.
  unfold getAuthenticatedUser. fold (session_request_for request).
  destruct (auth_provider w (session_request_for request)) as [| [] [[user |] |]] eqn:E;
    try (exists None; split; [reflexivity | discriminate]).
  destruct (String.eqb_spec (user_id user) EmptyString) as [Hid | Hid].
  - exists None. split; [reflexivity |]. now intros user' [= <-].
  - exists (Some user). split; [reflexivity |]. now split.
Qed.

(** [getAuthenticatedUser] fails closed: it never throws, it makes one call
    to the session provider and touches nothing else, and it returns a user
    exactly when the provider answers the session request (the endpoint
    [/auth/session] on the origin of the request, with the request's cookie)
    with an [ok] response whose session carries that user and the user has a
    non-empty id.  A rejecting provider, a response that is not [ok], a body
    that is not JSON, a session without a user and a user without an id all
    give [null]. *)
Theorem getAuthenticatedUser_fails_closed {D} (request : Request) (w : World D) :
  exists r,
    getAuthenticatedUser request w = (Ok r, log_event AuthCall w)
    /\ (forall user,
          r = Some user
          <-> auth_provider w (session_request_for request)
              = AuthResponds true (Some (Some user))
              /\ user_id user <> EmptyString)
    /\ session_url (session_request_for request) = url_origin request +:+ "/auth/session"
    /\ (forall cookie, headers_get "Cookie" request = Some cookie ->
        session_cookie (session_request_for request) = cookie).
Proof.
  destruct (getAuthenticatedUser_cases request w) as (r & E & Hr).
  exists r. split; [exact E |]. split; [| split; [reflexivity |]].
  - intros user. split.
    + intros ->. tauto.
    + intros [Hp Hid]. destruct r as [user' |].
      * destruct Hr as [_ Hp']. congruence.
      * now specialize (Hr user Hp).
  - intros cookie Hcookie. simpl. rewrite Hcookie. unfold or_else.
    destruct (String.eqb_spec cookie EmptyString); congruence.
Qed.

Section OwnershipGuard.
Context {D : Type} `{DatabaseService D}.

(** The guard, case by case on the user and on the answer of the database. *)
Lemma requirePetitionOwnership_cases
    (request : Request) (env : Env) (petitionId : Z) (w : World D) :
  let run := requirePetitionOwnership request env petitionId w in
  match fst (getAuthenticatedUser request w) with
  | Ok None =>
      exists response,
        run = (Ok (inr response), log_event AuthCall w) /\ status response = 401
  | Ok (Some user) =>
      snd run = log_event (DbCall "getPetitionById") (log_event AuthCall w)
      /\ match getPetitionById petitionId (env_DB w) with
         | Ok (Some p) =>
             if String.eqb (created_by p) (user_id user) then fst run = Ok (inl user)
             else exists response, fst run = Ok (inr response) /\ status response = 403
         | Ok None =>
             exists response, fst run = Ok (inr response) /\ status response = 404
         | Throw _ =>
             fst run
             = Ok (inr (json_response 500
                          (JObj [("error", JStr "Internal server error")]) request env))
         end
  | Throw _ => False
  end.
Proof.
  cbv zeta. unfold requirePetitionOwnership, requireAuthentication, bind.
  destruct (getAuthenticatedUser_cases request w) as (r & -> & _). cbn [fst].
  destruct r as [user |]; [| eexists; split; reflexivity].
  unfold try_catch, bind, db_query, ret. cbn beta iota.
  change (env_DB (log_event AuthCall w)) with (env_DB w).
  destruct (getPetitionById petitionId (env_DB w)) as [[p |] | e]; cbn.
  - destruct (String.eqb (created_by p) (user_id user)); cbn; eauto.
  - eauto.
  - auto.
Qed.

(** The ownership guard is sound: it permits a user only when that user is
    the authenticated user of the request and the petition exists and was
    created by that user. *)
Theorem ownership_guard_sound
    (request : Request) (env : Env) (petitionId : Z) (w : World D)
    (user : AuthenticatedUser) :
  fst (requirePetitionOwnership request env petitionId w) = Ok (inl user) ->
  fst (getAuthenticatedUser request w) = Ok (Some user)
  /\ user_id user <> EmptyString
  /\ exists p, getPetitionById petitionId (env_DB w) = Ok (Some p)
               /\ created_by p = user_id user.
Proof.
  intros Hpermit.
  pose proof (requirePetitionOwnership_cases request env petitionId w) as Hcases.
  cbv zeta in Hcases.
  destruct (getAuthenticatedUser_cases request w) as (r & Eauth & Hr).
  rewrite Eauth in *. cbn [fst] in *.
  destruct r as [user' |].
  - destruct Hcases as [_ Hcases]. destruct Hr as [Hid _].
    destruct (getPetitionById petitionId (env_DB w)) as [[p |] | e].
    + destruct (String.eqb_spec (created_by p) (user_id user')) as [Hown | Hown].
      * rewrite Hcases in Hpermit. injection Hpermit as ->. eauto.
      * destruct Hcases as (response & E & _). congruence.
    + destruct Hcases as (response & E & _). congruence.
    + congruence.
  - destruct Hcases as (response & E & _). rewrite E in Hpermit. discriminate.
Qed.

(** The ownership guard never throws and writes nothing: the database, the
    cache store and the image bucket are as they were.  A refusal is 401
    when nobody is authenticated (the database is then not asked), 404 when
    the petition does not exist, 403 when it belongs to somebody else, and
    500 with the fixed message [Internal server error] when the database
    throws; there is no other outcome. *)
Theorem ownership_guard_refusals
    (request : Request) (env : Env) (petitionId : Z) (w : World D) :
  let run := requirePetitionOwnership request env petitionId w in
  let authenticated := fst (getAuthenticatedUser request w) in
  let petition := getPetitionById petitionId (env_DB w) in
  exists guard,
    fst run = Ok guard
    /\ env_DB (snd run) = env_DB w
    /\ env_CACHE (snd run) = env_CACHE w
    /\ env_IMAGES (snd run) = env_IMAGES w
    /\ forall response, guard = inr response ->
         (status response = 401 /\ authenticated = Ok None
          /\ snd run = log_event AuthCall w)
         \/ (status response = 404 /\ petition = Ok None
             /\ exists user, authenticated = Ok (Some user))
         \/ (status response = 403
             /\ exists user p, authenticated = Ok (Some user) /\ petition = Ok (Some p)
                               /\ created_by p <> user_id user)
         \/ (response = json_response 500
                          (JObj [("error", JStr "Internal server error")]) request env
             /\ exists user e, authenticated = Ok (Some user) /\ petition = Throw e).
Proof.
  cbv zeta.
  pose proof (requirePetitionOwnership_cases request env petitionId w) as Hcases.
  cbv zeta in Hcases.
  destruct (fst (getAuthenticatedUser request w)) as [[user |] | e]; [| | contradiction].
  - destruct Hcases as [Hw Hcases]. rewrite Hw. cbn [env_DB env_CACHE env_IMAGES log_event].
    destruct (getPetitionById petitionId (env_DB w)) as [[p |] | e].
    + destruct (String.eqb_spec (created_by p) (user_id user)) as [Hown | Hown].
      * eexists. split; [exact Hcases |]. repeat split. discriminate.
      * destruct Hcases as (response & E & Hs). eexists. split; [exact E |].
        repeat split. intros r [= <-]. right. right. left. eauto 6.
    + destruct Hcases as (response & E & Hs). eexists. split; [exact E |].
      repeat split. intros r [= <-]. right. left. eauto.
    + eexists. split; [exact Hcases |]. repeat split.
      intros r [= <-]. right. right. right. eauto.
  - destruct Hcases as (response & E & Hs). rewrite E. cbn [fst snd].
    eexists. split; [reflexivity |]. repeat split. intros r [= <-]. left. auto.
Qed.

End OwnershipGuard.

(** Alice may modify petition 1, which she created. *)
Lemma ownership_guard_sound_witness :
  let request := a_request "PUT" "/api/petitions/1" [] [("Cookie", "session=alice")] None in
  fst (requirePetitionOwnership request development 1 (world None)) = Ok (inl alice)
  /\ exists p, getPetitionById 1 (env_DB (world None)) = Ok (Some p)
               /\ created_by p = user_id alice.
Proof.
  cbv zeta.
  assert (E : fst (requirePetitionOwnership
                     (a_request "PUT" "/api/petitions/1" [] [("Cookie", "session=alice")] None)
                     development 1 (world None))
              = Ok (inl alice)) by (vm_compute; reflexivity).
  split; [exact E |].
  exact (proj2 (proj2 (ownership_guard_sound _ _ _ _ _ E))).
Defined.

(** ** The image of a petition *)

Lemma split_last_no_separator (sep : ascii) (s : string) :
  Js.has_char sep (Js.split_last sep s) = false.
Proof.
  induction s as [| c s IH]; [reflexivity |]. simpl.
  destruct (Js.has_char sep s) eqn:Hs; [exact IH |].
  destruct (Ascii.eqb c sep) eqn:Hc; [exact Hs |].
  simpl. now rewrite Hc, Hs.
Qed.

Lemma or_else_some_nonempty (s fallback : string) :
  fallback <> EmptyString -> or_else (Some s) fallback <> EmptyString.
Proof.
  intros Hf. unfold or_else. destruct (String.eqb_spec s EmptyString); congruence.
Qed.

Lemma or_else_some_cases (s fallback : string) :
  or_else (Some s) fallback = s \/ or_else (Some s) fallback = fallback.
Proof. unfold or_else. destruct (String.eqb s EmptyString); auto. Qed.

Section PetitionImage.
Context {D : Type} `{DatabaseService D}.

(** The image step of a create or an update never throws, and it is all or
    nothing for the petition that is returned: the petition carries an image
    URL only when the file was stored in the bucket and the database accepted
    the URL; in every other case (no file, an empty file, a failed upload, a
    failed database update) the petition is returned as it was.  The URL is
    [https://images.petition.ph/petitions/{id}/image.{extension}], the file
    is stored under the path of the URL, and the extension is never empty and
    never contains a dot.  Without a file, or with an empty one, nothing is
    called at all. *)
Theorem attach_image_all_or_nothing
    (petitionId : Z) (imageFile : option File) (petition : Petition) (w : World D) :
  let run := attach_image petitionId imageFile petition w in
  exists p,
    fst run = Ok p
    /\ env_CACHE (snd run) = env_CACHE w
    /\ (p = petition
        \/ exists file extension url,
             imageFile = Some file /\ file_size file > 0
             /\ extension <> EmptyString /\ Js.has_char "." extension = false
             /\ url = "https://images.petition.ph/petitions/"
                      +:+ Js.number_toString petitionId +:+ "/image." +:+ extension
             /\ p = set_image_url url petition
             /\ images_faults w <> true :: tail (images_faults w)
             /\ (exists object,
                   env_IMAGES (snd run)
                     !! ("petitions/" +:+ Js.number_toString petitionId
                         +:+ "/image." +:+ extension) = Some object
                   /\ r2_file object = file
                   /\ r2_contentType object = file_type file)
             /\ (exists row,
                   fst (updatePetition petitionId (image_only url) (env_DB w)) = Ok row))
    /\ (imageFile = None \/ (exists file, imageFile = Some file /\ file_size file <= 0) ->
        p = petition /\ snd run = w)
    /\ (forall file rest, imageFile = Some file -> images_faults w = true :: rest ->
        p = petition /\ env_DB (snd run) = env_DB w /\ env_IMAGES (snd run) = env_IMAGES w).
Proof.
  cbv zeta. unfold attach_image.
  destruct imageFile as [file |].
  2: { exists petition. cbn. repeat split; auto; intros; discriminate. }
  destruct (file_size file >? 0) eqn:Hsize.
  2: { exists petition. cbn. repeat split; auto; intros; discriminate. }
  apply Z.gtb_lt in Hsize.
  set (extension := or_else (Some (Js.split_last "." (file_name file))) "jpg").
  assert (Hne : extension <> EmptyString) by (apply or_else_some_nonempty; discriminate).
  assert (Hdot : Js.has_char "." extension = false).
  { destruct (or_else_some_cases (Js.split_last "." (file_name file)) "jpg") as [E | E];
      unfold extension; rewrite E; [apply split_last_no_separator | reflexivity]. }
  unfold try_catch, bind, r2_put, db_mutate, ret. cbn beta.
  destruct (images_faults w) as [| [] rest] eqn:Hfaults; cbn [fst snd tail].
  - (* the upload succeeds *)
    cbn [env_DB set_IMAGES log_event].
    destruct (updatePetition petitionId _ (env_DB w)) as [[row | e] d] eqn:Hupdate;
      cbn [fst snd env_CACHE set_DB set_IMAGES log_event].
    + eexists. split; [reflexivity |]. split; [reflexivity |]. split.
      * right. exists file, extension. eexists.
        repeat split; try reflexivity; try assumption; try lia; try discriminate.
        -- eexists. cbn [env_IMAGES set_DB log_event set_IMAGES].
           split; [apply lookup_insert_eq | split; reflexivity].
        -- exists row. exact (f_equal fst Hupdate).
      * split; [intros [[=] | (f & [= <-] & Hle)]; lia | intros f r _ [=]].
    + exists petition. split; [reflexivity |]. split; [reflexivity |].
      split; [now left |].
      split; [intros [[=] | (f & [= <-] & Hle)]; lia | intros f r _ [=]].
  - (* the upload fails *)
    exists petition. cbn. split; [reflexivity |]. split; [reflexivity |].
    split; [now left |].
    split; [intros [[=] | (f & [= <-] & Hle)]; lia | auto].
  - cbn [env_DB set_IMAGES log_event].
    destruct (updatePetition petitionId _ (env_DB w)) as [[row | e] d] eqn:Hupdate;
      cbn [fst snd env_CACHE set_DB set_IMAGES log_event].
    + eexists. split; [reflexivity |]. split; [reflexivity |]. split.
      * right. exists file, extension. eexists.
        repeat split; try reflexivity; try assumption; try lia; try discriminate.
        -- eexists. cbn [env_IMAGES set_DB log_event set_IMAGES].
           split; [apply lookup_insert_eq | split; reflexivity].
        -- exists row. exact (f_equal fst Hupdate).
      * split; [intros [[=] | (f & [= <-] & Hle)]; lia | intros f r _ [=]].
    + exists petition. split; [reflexivity |]. split; [reflexivity |].
      split; [now left |].
      split; [intros [[=] | (f & [= <-] & Hle)]; lia | intros f r _ [=]].
Qed.

End PetitionImage.

(** ** Trimming *)

Lemma trimStart_length (s : string) : (String.length (Js.trimStart s) <= String.length s)%nat.
Proof.
  induction s as [| c s IH]; simpl; [lia |].
  destruct (Js.is_space c); simpl; lia.
Qed.

Lemma trimEnd_length (s : string) : (String.length (Js.trimEnd s) <= String.length s)%nat.
Proof.
  induction s as [| c s IH]; simpl; [lia |].
  destruct (Js.trimEnd s); [destruct (Js.is_space c) |]; simpl in *; lia.
Qed.

Lemma trim_length (s : string) : Js.str_length (Js.trim s) <= Js.str_length s.
Proof.
  unfold Js.str_length, Js.trim.
  pose proof (trimEnd_length (Js.trimStart s)). pose proof (trimStart_length s). lia.
Qed.

(** A string that [trimStart] leaves alone does not begin with a blank. *)
Lemma trimStart_fixed (c : ascii) (s : string) :
  Js.trimStart (String c s) = String c s <-> Js.is_space c = false.
Proof.
  simpl. destruct (Js.is_space c); split; try reflexivity; try discriminate.
  intros E. pose proof (trimStart_length s) as Hlen. rewrite E in Hlen. simpl in Hlen. lia.
Qed.

Lemma trimStart_idempotent (s : string) : Js.trimStart (Js.trimStart s) = Js.trimStart s.
Proof.
  induction s as [| c s IH]; [reflexivity |]. simpl.
  destruct (Js.is_space c) eqn:Hc; [exact IH |]. simpl. now rewrite Hc.
Qed.

Lemma trimEnd_idempotent (s : string) : Js.trimEnd (Js.trimEnd s) = Js.trimEnd s.
Proof.
  induction s as [| c s IH]; [reflexivity |]. simpl.
  destruct (Js.trimEnd s) as [| d t] eqn:Et.
  - destruct (Js.is_space c) eqn:Hc; [reflexivity |]. simpl. now rewrite Hc.
  - change (Js.trimEnd (String c (String d t)))
      with (match Js.trimEnd (String d t) with
            | EmptyString => if Js.is_space c then EmptyString else String c EmptyString
            | u => String c u
            end).
    now rewrite IH.
Qed.

Lemma trimEnd_keeps_start (s : string) :
  Js.trimStart s = s -> Js.trimStart (Js.trimEnd s) = Js.trimEnd s.
Proof.
  destruct s as [| c s]; [reflexivity |]. intros E. apply trimStart_fixed in E.
  simpl. destruct (Js.trimEnd s); [rewrite E |]; simpl; now rewrite E.
Qed.

Lemma trim_idempotent (s : string) : Js.trim (Js.trim s) = Js.trim s.
Proof.
  unfold Js.trim.
  rewrite (trimEnd_keeps_start (Js.trimStart s) (trimStart_idempotent s)).
  apply trimEnd_idempotent.
Qed.

(** ** Fields of a multipart form *)

(** [getStringField] gives a value exactly when the first value of the
    field is a string that is not blank, and the value it gives is that
    string trimmed: it is never empty and trimming it again changes nothing.
    A field that is absent, a file, or a blank string is [undefined]. *)
Theorem getStringField_trimmed (formData : FormData) (fieldName s : string) :
  (getStringField formData fieldName = Some s
   <-> exists value, formData_get fieldName formData = Some (FormString value)
                     /\ s = Js.trim value /\ Js.trim value <> EmptyString)
  /\ (getStringField formData fieldName = Some s -> s <> EmptyString /\ Js.trim s = s).
Proof.
  unfold getStringField.
  destruct (formData_get fieldName formData) as [[value | f] |].
  - rewrite str_length_positive.
    destruct (String.eqb_spec (Js.trim value) EmptyString) as [Hblank | Hblank]; simpl.
    + split; [split; [discriminate | intros (v & [= <-] & _ & Hne); contradiction]
             | discriminate].
    + split.
      * split; [intros [= <-]; eauto | intros (v & [= <-] & -> & _); reflexivity].
      * intros [= <-]. split; [exact Hblank | apply trim_idempotent].
  - split; [split; [discriminate | intros (v & [=] & _)] | discriminate].
  - split; [split; [discriminate | intros (v & [=] & _)] | discriminate].
Qed.

(** ** What the schemas accept *)

Lemma prefix_issues_nil (key : string) (issues : list Zod.Issue) :
  Zod.prefix_issues key issues = [] <-> issues = [].
Proof. unfold Zod.prefix_issues. destruct issues; simpl; split; congruence. Qed.

Lemma at_key_accepts {A} (key : string) (schema : Zod.Schema A)
    (fields : list (string * json)) (v : A) :
  Zod.at_key key schema fields = (Some v, [])
  <-> schema (Zod.property key fields) = (Some v, []).
Proof.
  unfold Zod.at_key. destruct (schema (Zod.property key fields)) as [o issues].
  split.
  - intros [= -> Hnil]. apply prefix_issues_nil in Hnil. now subst.
  - intros [= -> ->]. reflexivity.
Qed.

Lemma optional_accepts {A} (schema : Zod.Schema A) (input : option json) (o : option A) :
  Zod.optional schema input = (Some o, [])
  <-> (input = None /\ o = None)
      \/ (exists v, o = Some v /\ input <> None /\ schema input = (Some v, [])).
Proof.
  unfold Zod.optional. destruct input as [j |].
  - destruct (schema (Some j)) as [[v |] issues]; simpl; split.
    + intros [= <- ->]. right. exists v. repeat split. discriminate.
    + intros [[[=] _] | (v' & -> & _ & [= -> ->])]. reflexivity.
    + discriminate.
    + intros [[[=] _] | (v' & _ & _ & [=])].
  - split.
    + intros [= <-]. now left.
    + intros [[_ ->] | (v & _ & Hne & _)]; [reflexivity | contradiction].
Qed.

Lemma string_accepts (error : option json -> string) (input : option json) (s : string) :
  Zod.string_ error input = (Some s, []) <-> input = Some (JStr s).
Proof.
  unfold Zod.string_. destruct input as [[] |]; split; congruence.
Qed.

Lemma title_accepts (input : option json) (t : string) :
  Fields.title input = (Some t, [])
  <-> exists raw, input = Some (JStr raw) /\ t = Js.trim raw
                  /\ 10 <= Js.str_length raw <= 150.
Proof.
  unfold Fields.title, Zod.with_checks, Zod.string_.
  destruct input as [[| | | raw | |] |];
    try (split; [discriminate | intros (r & [=] & _)]).
  cbn [Zod.run_checks Zod.aborted existsb Zod.min_length Zod.max_length Zod.trim app].
  destruct (Z.ltb_spec (Js.str_length raw) 10) as [Hshort | Hmin];
    cbn [Zod.run_checks Zod.aborted existsb Zod.continues Zod.continuing negb orb app].
  - destruct (Js.str_length raw >? 150);
      cbn [Zod.run_checks Zod.aborted existsb Zod.continues Zod.continuing negb orb app];
      (split; [discriminate | intros (r & [= <-] & _ & Hlen); lia]).
  - destruct (Z.gtb_spec (Js.str_length raw) 150) as [Hlong | Hmax];
      cbn [Zod.run_checks Zod.aborted existsb Zod.continues Zod.continuing negb orb app].
    + split; [discriminate | intros (r & [= <-] & _ & Hlen); lia].
    + split.
      * intros [= <-]. exists raw. repeat split; lia.
      * intros (r & [= <-] & -> & _). reflexivity.
Qed.

Lemma description_accepts (input : option json) (d : string) :
  Fields.description input = (Some d, [])
  <-> exists raw, input = Some (JStr raw) /\ d = Js.trim raw
                  /\ 100 <= Js.str_length raw.
Proof.
  unfold Fields.description, Zod.with_checks, Zod.string_.
  destruct input as [[| | | raw | |] |];
    try (split; [discriminate | intros (r & [=] & _)]).
  cbn [Zod.run_checks Zod.aborted existsb Zod.min_length Zod.trim app].
  destruct (Z.ltb_spec (Js.str_length raw) 100) as [Hshort | Hmin];
    cbn [Zod.run_checks Zod.aborted existsb Zod.continues Zod.continuing negb orb app].
  - split; [discriminate | intros (r & [= <-] & _ & Hlen); lia].
  - split.
    + intros [= <-]. exists raw. repeat split; lia.
    + intros (r & [= <-] & -> & _). reflexivity.
Qed.

Lemma type_accepts (input : option json) (t : string) :
  Fields.type input = (Some t, [])
  <-> input = Some (JStr t) /\ (t = "local" \/ t = "national").
Proof.
  unfold Fields.type, Zod.enum, list_includes.
  destruct input as [[| | | raw | |] |];
    try (split; [discriminate | intros [[=] _]]).
  cbn [existsb orb].
  destruct (String.eqb_spec raw "local") as [-> | Hlocal]; cbn [orb].
  - split; [intros [= <-]; auto | intros [[= <-] _]; reflexivity].
  - destruct (String.eqb_spec raw "national") as [-> | Hnational]; cbn [orb].
    + split; [intros [= <-]; auto | intros [[= <-] _]; reflexivity].
    + split; [discriminate | intros [[= <-] [-> | ->]]; contradiction].
Qed.

Lemma status_accepts (input : option json) (s : string) :
  Fields.status input = (Some s, [])
  <-> input = Some (JStr s) /\ (s = "active" \/ s = "completed" \/ s = "closed").
Proof.
  unfold Fields.status, Zod.enum, list_includes.
  destruct input as [[| | | raw | |] |];
    try (split; [discriminate | intros [[=] _]]).
  cbn [existsb orb].
  destruct (String.eqb_spec raw "active") as [-> | Hactive]; cbn [orb];
    [split; [intros [= <-]; auto | intros [[= <-] _]; reflexivity] |].
  destruct (String.eqb_spec raw "completed") as [-> | Hcompleted]; cbn [orb];
    [split; [intros [= <-]; auto | intros [[= <-] _]; reflexivity] |].
  destruct (String.eqb_spec raw "closed") as [-> | Hclosed]; cbn [orb];
    [split; [intros [= <-]; auto | intros [[= <-] _]; reflexivity] |].
  split; [discriminate | intros [[= <-] [-> | [-> | ->]]]; contradiction].
Qed.

Lemma target_count_checked_accepts (input : option json) (n : Z) :
  Fields.target_count_checked input = (Some n, [])
  <-> input = Some (JNum n) /\ 1 <= n <= 1000000.
Proof.
  unfold Fields.target_count_checked, Zod.with_checks, Zod.number.
  destruct input as [[| | z | | |] |];
    try (split; [discriminate | intros [[=] _]]).
  cbn [Zod.run_checks Zod.aborted existsb Zod.int Zod.min Zod.max app].
  destruct (Z.gtb_spec (Z.abs z) Zod.MAX_SAFE_INTEGER) as [Hbig | Hsafe];
    destruct (Z.ltb_spec z 1) as [Hlow | Hmin];
    destruct (Z.gtb_spec z 1000000) as [Hhigh | Hmax];
    cbn [Zod.run_checks Zod.aborted existsb Zod.continues Zod.continuing negb orb app];
    try (split; [discriminate | intros [[= <-] Hrange]; lia]).
  - exfalso. unfold Zod.MAX_SAFE_INTEGER in Hbig. lia.
  - split; [intros [= <-]; split; [reflexivity | lia] | intros [[= <-] _]; reflexivity].
Qed.

Lemma location_accepts (input : option json) (l : option string) :
  Fields.location input = (Some l, [])
  <-> (input = None /\ l = None)
      \/ (exists raw, input = Some (JStr raw) /\ l = Some (Js.trim raw)).
Proof.
  unfold Fields.location. rewrite optional_accepts. split.
  - intros [Hnone | (v & -> & Hne & Hv)]; [now left | right].
    unfold Zod.with_checks, Zod.string_ in Hv.
    destruct input as [[| | | raw | |] |]; try discriminate.
    cbn in Hv. injection Hv as <-. eauto.
  - intros [Hnone | (raw & -> & ->)]; [now left | right].
    exists (Js.trim raw). repeat split. discriminate.
Qed.

Lemma app_nil_both {A} (l1 l2 : list A) : (l1 ++ l2)%list = [] -> l1 = [] /\ l2 = [].
Proof. destruct l1; simpl; [intros ->; auto | discriminate]. Qed.

(** The create schema accepts a payload exactly when every property is
    accepted by its own schema and the location rule holds. *)
Lemma createPetitionSchema_accepts (input : json) (data : CreateData) :
  Zod.safeParse createPetitionSchema input = Zod.Success data ->
  exists fields,
    input = JObj fields
    /\ Fields.title (Zod.property "title" fields) = (Some (c_title data), [])
    /\ Fields.description (Zod.property "description" fields)
       = (Some (c_description data), [])
    /\ Fields.type (Zod.property "type" fields) = (Some (c_type data), [])
    /\ Fields.location (Zod.property "location" fields) = (Some (c_location data), [])
    /\ Fields.target_count (Zod.property "target_count" fields)
       = (Some (c_target_count data), [])
    /\ Fields.created_by (Zod.property "created_by" fields) = (Some (c_created_by data), [])
    /\ location_given (Some (c_type data)) (c_location data) = true.
Proof.
  unfold Zod.safeParse, createPetitionSchema, Zod.with_checks, createPetitionObject.
  destruct input as [| | | | | fields]; try discriminate.
  intros Hparse. exists fields. split; [reflexivity |].
  rewrite <- !at_key_accepts.
  destruct (Zod.at_key "title" Fields.title fields) as [v1 i1].
  destruct (Zod.at_key "description" Fields.description fields) as [v2 i2].
  destruct (Zod.at_key "type" Fields.type fields) as [v3 i3].
  destruct (Zod.at_key "location" Fields.location fields) as [v4 i4].
  destruct (Zod.at_key "target_count" Fields.target_count fields) as [v5 i5].
  destruct (Zod.at_key "category_ids" Fields.category_ids fields) as [v6 i6].
  destruct (Zod.at_key "image_url" Fields.image_url fields) as [v7 i7].
  destruct (Zod.at_key "created_by" Fields.created_by fields) as [v8 i8].
  destruct v1 as [t |]; [| destruct (_ ++ _)%list in Hparse; discriminate].
  destruct v2 as [d |]; [| destruct (_ ++ _)%list in Hparse; discriminate].
  destruct v3 as [ty |]; [| destruct (_ ++ _)%list in Hparse; discriminate].
  destruct v4 as [l |]; [| destruct (_ ++ _)%list in Hparse; discriminate].
  destruct v5 as [n |]; [| destruct (_ ++ _)%list in Hparse; discriminate].
  destruct v6 as [c |]; [| destruct (_ ++ _)%list in Hparse; discriminate].
  destruct v7 as [i |]; [| destruct (_ ++ _)%list in Hparse; discriminate].
  destruct v8 as [u |]; [| destruct (_ ++ _)%list in Hparse; discriminate].
  cbn [Zod.run_checks] in Hparse.
  destruct (Zod.aborted _) eqn:Haborted in Hparse.
  - destruct (i1 ++ i2 ++ i3 ++ i4 ++ i5 ++ i6 ++ i7 ++ i8)%list eqn:Hissues;
      [discriminate Haborted | discriminate Hparse].
  - unfold Zod.refine in Hparse. cbn [c_type c_location] in Hparse.
    destruct (location_given (Some ty) l) eqn:Hlocation.
    + rewrite app_nil_r in Hparse.
      destruct (i1 ++ i2 ++ i3 ++ i4 ++ i5 ++ i6 ++ i7 ++ i8)%list eqn:Hissues;
        [| discriminate Hparse].
      injection Hparse as <-. cbn [c_title c_description c_type c_location
                                   c_target_count c_created_by].
      repeat (apply app_nil_both in Hissues; destruct Hissues as [-> Hissues]).
      subst. auto 10.
    + destruct (_ ++ _)%list eqn:Hissues in Hparse; [| discriminate Hparse].
      apply app_nil_both in Hissues. destruct Hissues as [_ [=]].
Qed.

(** Whatever [createPetitionSchema] lets through satisfies the bounds the
    handler and the database rely on: the type is [local] or [national]; the
    target count is between 1 and 1,000,000; a local petition has a location
    that is not empty; the title and the description are the trimmed
    strings of the payload, so trimming them again changes nothing, and the
    title has at most 150 characters; the owner is the [created_by] string of
    the payload.  The lower bounds of the lengths (10 and 100) hold for the
    strings of the payload, which are measured before they are trimmed. *)
Theorem createPetitionSchema_sound (input : json) (data : CreateData) :
  Zod.safeParse createPetitionSchema input = Zod.Success data ->
  exists fields,
    input = JObj fields
    /\ (c_type data = "local" \/ c_type data = "national")
    /\ 1 <= c_target_count data <= 1000000
    /\ (c_type data = "local" ->
        exists l, c_location data = Some l /\ l <> EmptyString /\ Js.trim l = l)
    /\ (exists raw, Zod.property "title" fields = Some (JStr raw)
                    /\ c_title data = Js.trim raw
                    /\ 10 <= Js.str_length raw <= 150)
    /\ (exists raw, Zod.property "description" fields = Some (JStr raw)
                    /\ c_description data = Js.trim raw
                    /\ 100 <= Js.str_length raw)
    /\ Js.str_length (c_title data) <= 150
    /\ Js.trim (c_title data) = c_title data
    /\ Js.trim (c_description data) = c_description data
    /\ Zod.property "created_by" fields = Some (JStr (c_created_by data)).
Proof.
  intros Hparse.
  destruct (createPetitionSchema_accepts input data Hparse)
    as (fields & -> & Ht & Hd & Hty & Hl & Hn & Hu & Hrule).
  exists fields. split; [reflexivity |].
  apply title_accepts in Ht. destruct Ht as (rawt & Hpt & Et & Hlt).
  apply description_accepts in Hd. destruct Hd as (rawd & Hpd & Ed & Hld).
  apply type_accepts in Hty. destruct Hty as (Hpty & Hty).
  apply location_accepts in Hl.
  apply string_accepts in Hu.
  split; [exact Hty |]. split.
  { unfold Fields.target_count, Zod.default_ in Hn.
    destruct (Zod.property "target_count" fields) as [j |].
    - apply target_count_checked_accepts in Hn. tauto.
    - injection Hn as <-. lia. }
  split.
  { intros Hlocal. rewrite Hlocal in Hrule. unfold location_given in Hrule. simpl in Hrule.
    destruct (c_location data) as [l |]; [| discriminate]. exists l.
    split; [reflexivity |]. split.
    - intros ->. discriminate.
    - destruct Hl as [[_ [=]] | (raw & _ & [= ->])]. apply trim_idempotent. }
  split; [eauto |]. split; [eauto |].
  rewrite Et, Ed, !trim_idempotent.
  pose proof (trim_length rawt). repeat split; try lia. exact Hu.
Qed.

(** A national petition without a location. *)
Lemma createPetitionSchema_sound_witness :
  let payload :=
    JObj [("title"%string, JStr a_title); ("description"%string, JStr a_description);
          ("type"%string, JStr "national"); ("created_by"%string, JStr "alice")] in
  exists data,
    Zod.safeParse createPetitionSchema payload = Zod.Success data
    /\ 1 <= c_target_count data <= 1000000.
Proof.
  cbv zeta.
  assert (E : exists data,
             Zod.safeParse createPetitionSchema
               (JObj [("title"%string, JStr a_title);
                      ("description"%string, JStr a_description);
                      ("type"%string, JStr "national");
                      ("created_by"%string, JStr "alice")]) = Zod.Success data).
  { eexists. vm_compute. reflexivity. }
  destruct E as (data & E). exists data. split; [exact E |].
  destruct (createPetitionSchema_sound _ _ E) as (fields & _ & _ & Hn & _). exact Hn.
Defined.

Lemma target_count_update_accepts (input : option json) (o : option Z) :
  Zod.optional_of_default Fields.target_count input = (Some o, [])
  <-> exists n, o = Some n
                /\ ((input = None /\ n = 1000)
                    \/ (input = Some (JNum n) /\ 1 <= n <= 1000000)).
Proof.
  unfold Zod.optional_of_default, Fields.target_count, Zod.default_.
  destruct input as [j |].
  - destruct (Fields.target_count_checked (Some j)) as [[v |] issues] eqn:Echecked;
      simpl; split.
    + intros [= <- ->]. exists v. split; [reflexivity | right].
      now apply target_count_checked_accepts.
    + intros (n & [= ->] & [[[=] _] | Hn]).
      apply target_count_checked_accepts in Hn. congruence.
    + discriminate.
    + intros (n & -> & [[[=] _] | Hn]).
      apply target_count_checked_accepts in Hn. congruence.
  - simpl. split.
    + intros [= <-]. exists 1000. split; [reflexivity | now left].
    + intros (n & -> & [[_ ->] | [[=] _]]). reflexivity.
Qed.

Lemma updatePetitionSchema_accepts (input : json) (data : UpdateData) :
  Zod.safeParse updatePetitionSchema input = Zod.Success data ->
  exists fields,
    input = JObj fields
    /\ Zod.optional Fields.title (Zod.property "title" fields) = (Some (u_title data), [])
    /\ Zod.optional Fields.description (Zod.property "description" fields)
       = (Some (u_description data), [])
    /\ Zod.optional Fields.type (Zod.property "type" fields) = (Some (u_type data), [])
    /\ Fields.location (Zod.property "location" fields) = (Some (u_location data), [])
    /\ Zod.optional_of_default Fields.target_count (Zod.property "target_count" fields)
       = (Some (u_target_count data), [])
    /\ Zod.optional Fields.status (Zod.property "status" fields) = (Some (u_status data), [])
    /\ location_given (u_type data) (u_location data) = true.
Proof.
  unfold Zod.safeParse, updatePetitionSchema, Zod.with_checks, updatePetitionObject.
  destruct input as [| | | | | fields]; try discriminate.
  intros Hparse. exists fields. split; [reflexivity |].
  rewrite <- !at_key_accepts.
  destruct (Zod.at_key "title" _ fields) as [v1 i1].
  destruct (Zod.at_key "description" _ fields) as [v2 i2].
  destruct (Zod.at_key "type" _ fields) as [v3 i3].
  destruct (Zod.at_key "location" Fields.location fields) as [v4 i4].
  destruct (Zod.at_key "target_count" _ fields) as [v5 i5].
  destruct (Zod.at_key "category_ids" Fields.category_ids fields) as [v6 i6].
  destruct (Zod.at_key "image_url" Fields.image_url fields) as [v7 i7].
  destruct (Zod.at_key "status" _ fields) as [v8 i8].
  destruct v1 as [t |]; [| destruct (_ ++ _)%list in Hparse; discriminate].
  destruct v2 as [d |]; [| destruct (_ ++ _)%list in Hparse; discriminate].
  destruct v3 as [ty |]; [| destruct (_ ++ _)%list in Hparse; discriminate].
  destruct v4 as [l |]; [| destruct (_ ++ _)%list in Hparse; discriminate].
  destruct v5 as [n |]; [| destruct (_ ++ _)%list in Hparse; discriminate].
  destruct v6 as [c |]; [| destruct (_ ++ _)%list in Hparse; discriminate].
  destruct v7 as [i |]; [| destruct (_ ++ _)%list in Hparse; discriminate].
  destruct v8 as [s |]; [| destruct (_ ++ _)%list in Hparse; discriminate].
  cbn [Zod.run_checks] in Hparse.
  destruct (Zod.aborted _) eqn:Haborted in Hparse.
  - destruct (i1 ++ i2 ++ i3 ++ i4 ++ i5 ++ i6 ++ i7 ++ i8)%list eqn:Hissues;
      [discriminate Haborted | discriminate Hparse].
  - unfold Zod.refine in Hparse. cbn [u_type u_location] in Hparse.
    destruct (location_given ty l) eqn:Hlocation.
    + rewrite app_nil_r in Hparse.
      destruct (i1 ++ i2 ++ i3 ++ i4 ++ i5 ++ i6 ++ i7 ++ i8)%list eqn:Hissues;
        [| discriminate Hparse].
      injection Hparse as <-. cbn [u_title u_description u_type u_location
                                   u_target_count u_status].
      repeat (apply app_nil_both in Hissues; destruct Hissues as [-> Hissues]).
      subst. auto 10.
    + destruct (_ ++ _)%list eqn:Hissues in Hparse; [| discriminate Hparse].
      apply app_nil_both in Hissues. destruct Hissues as [_ [=]].
Qed.

(** Whatever [updatePetitionSchema] lets through: every property that is
    given satisfies the bound of the create schema (the title is the trimmed
    string of a payload string of 10 to 150 characters, the description of
    one of at least 100, the type is [local] or [national], the status is
    [active], [completed] or [closed]); a change of the type to [local] comes
    with a location that is not empty; a title, description, type, location
    or status that the payload does not carry is not in the validated update
    either.  The target count is different: the validated update always
    carries one, between 1 and 1,000,000; it is the number of the payload,
    and 1000 when the payload has none. *)
Theorem updatePetitionSchema_sound (input : json) (data : UpdateData) :
  Zod.safeParse updatePetitionSchema input = Zod.Success data ->
  exists fields,
    input = JObj fields
    /\ (forall t, u_title data = Some t ->
        exists raw, Zod.property "title" fields = Some (JStr raw)
                    /\ t = Js.trim raw /\ 10 <= Js.str_length raw <= 150)
    /\ (forall d, u_description data = Some d ->
        exists raw, Zod.property "description" fields = Some (JStr raw)
                    /\ d = Js.trim raw /\ 100 <= Js.str_length raw)
    /\ (forall ty, u_type data = Some ty -> ty = "local" \/ ty = "national")
    /\ (exists n, u_target_count data = Some n
                  /\ 1 <= n <= 1000000
                  /\ (Zod.property "target_count" fields = None -> n = 1000)
                  /\ (forall v, Zod.property "target_count" fields = Some v -> v = JNum n))
    /\ (forall s, u_status data = Some s ->
        s = "active" \/ s = "completed" \/ s = "closed")
    /\ (u_type data = Some "local" ->
        exists l, u_location data = Some l /\ l <> EmptyString)
    /\ (Zod.property "title" fields = None -> u_title data = None)
    /\ (Zod.property "description" fields = None -> u_description data = None)
    /\ (Zod.property "type" fields = None -> u_type data = None)
    /\ (Zod.property "location" fields = None -> u_location data = None)
    /\ (Zod.property "status" fields = None -> u_status data = None).
Proof.
  intros Hparse.
  destruct (updatePetitionSchema_accepts input data Hparse)
    as (fields & -> & Ht & Hd & Hty & Hl & Hn & Hs & Hrule).
  exists fields. split; [reflexivity |].
  apply optional_accepts in Ht, Hd, Hty, Hs. apply location_accepts in Hl.
  apply target_count_update_accepts in Hn.
  repeat split.
  - intros t Et. destruct Ht as [[_ E] | (v & E & _ & Hv)]; [congruence |].
    apply title_accepts in Hv. assert (t = v) by congruence. now subst.
  - intros d Ed. destruct Hd as [[_ E] | (v & E & _ & Hv)]; [congruence |].
    apply description_accepts in Hv. assert (d = v) by congruence. now subst.
  - intros ty Ety. destruct Hty as [[_ E] | (v & E & _ & Hv)]; [congruence |].
    apply type_accepts in Hv. destruct Hv as [_ Hv]. congruence.
  - destruct Hn as (n & En & Hn). exists n. split; [exact En |].
    destruct Hn as [[Hnone ->] | [Hsome Hrange]].
    + split; [lia |]. split; [reflexivity |]. intros v Ev. congruence.
    + split; [exact Hrange |]. split; intros; congruence.
  - intros s Es. destruct Hs as [[_ E] | (v & E & _ & Hv)]; [congruence |].
    apply status_accepts in Hv. destruct Hv as [_ Hv]. congruence.
  - intros Hlocal. rewrite Hlocal in Hrule. unfold location_given in Hrule.
    simpl in Hrule. destruct (u_location data) as [l |]; [| discriminate].
    exists l. split; [reflexivity |]. intros ->. discriminate.
  - intros Hnone. destruct Ht as [[_ E] | (v & _ & Hne & _)]; [exact E | contradiction].
  - intros Hnone. destruct Hd as [[_ E] | (v & _ & Hne & _)]; [exact E | contradiction].
  - intros Hnone. destruct Hty as [[_ E] | (v & _ & Hne & _)]; [exact E | contradiction].
  - intros Hnone. destruct Hl as [[_ E] | (raw & Hraw & _)]; [exact E | congruence].
  - intros Hnone. destruct Hs as [[_ E] | (v & _ & Hne & _)]; [exact E | contradiction].
Qed.

(** The update that changes the title of a petition. *)
Lemma updatePetitionSchema_sound_witness :
  exists data,
    Zod.safeParse updatePetitionSchema retitle = Zod.Success data
    /\ u_type data = None
    /\ u_target_count data = Some 1000.
Proof.
  assert (E : exists data, Zod.safeParse updatePetitionSchema retitle = Zod.Success data).
  { eexists. vm_compute. reflexivity. }
  destruct E as (data & E). exists data. split; [exact E |].
  destruct (updatePetitionSchema_sound _ _ E)
    as (fields & Hfields & _ & _ & _ & (n & En & _ & Hdefault & _) & _ & _ & _ & _ & Htype & _).
  injection Hfields as <-. split; [apply Htype; reflexivity |].
  rewrite En, Hdefault; reflexivity.
Defined.

(** ** Reads leave the database alone *)

Section DatabaseUntouched.
Context {D : Type}.

Lemma keeps_ret {A} (a : A) : keeps_database (D := D) (ret a).
Proof. intros w. now split. Qed.

Lemma keeps_database_bind {A B} (m : M D A) (f : A -> M D B) :
  keeps_database m -> (forall a, keeps_database (f a)) -> keeps_database (bind m f).
Proof.
  intros Hm Hf w. unfold bind. specialize (Hm w).
  destruct (m w) as [[a | e] w1]; simpl in *; [| exact Hm].
  destruct (Hf a w1) as [Hd Hi]. destruct Hm as [Hd' Hi']. split; congruence.
Qed.

Lemma keeps_database_try_catch {A} (m : M D A) (handler : JsValue -> M D A) :
  keeps_database m -> (forall e, keeps_database (handler e)) ->
  keeps_database (try_catch m handler).
Proof.
  intros Hm Hh w. unfold try_catch. specialize (Hm w).
  destruct (m w) as [[a | e] w1]; simpl in *; [exact Hm |].
  destruct (Hh e w1) as [Hd Hi]. destruct Hm as [Hd' Hi']. split; congruence.
Qed.

Lemma keeps_kv_call {A} (ev : Event)
    (op : Z -> gmap string KVEntry -> Result A * gmap string KVEntry) :
  keeps_database (D := D) (kv_call ev op).
Proof.
  intros w. unfold kv_call. destruct (env_CACHE w) as [kv |]; [| now split].
  destruct (match kv_faults kv with b :: _ => b | [] => false end); [now split |].
  destruct (op _ _). now split.
Qed.

Lemma keeps_promise_all (ms : list (M D unit)) :
  (forall m, In m ms -> keeps_database m) -> keeps_database (promise_all ms).
Proof.
  induction ms as [| m rest IH]; intros Hms w; simpl; [now split |].
  destruct (Hms m (or_introl eq_refl) w) as [Hd Hi].
  destruct (m w) as [r w1]. simpl in *.
  destruct (IH (fun m' Hin => Hms m' (or_intror Hin)) w1) as [Hd' Hi'].
  destruct (promise_all rest w1) as [r' w2]. simpl in *. split; congruence.
Qed.

Lemma keeps_getCachedData (key : string) : keeps_database (D := D) (getCachedData key).
Proof.
  unfold getCachedData. apply keeps_database_try_catch; [| intros; apply keeps_ret].
  intros w. destruct (env_CACHE w); [apply keeps_kv_call | now split].
Qed.

Lemma keeps_setCachedData (key : string) (data : json) (ttl : Z) :
  keeps_database (D := D) (setCachedData key data ttl).
Proof.
  unfold setCachedData. apply keeps_database_try_catch; [| intros; apply keeps_ret].
  destruct (_ >? _); [apply keeps_ret | apply keeps_kv_call].
Qed.

Lemma keeps_invalidateCachePattern (pattern : string) :
  keeps_database (D := D) (invalidateCachePattern pattern).
Proof.
  unfold invalidateCachePattern.
  apply keeps_database_try_catch; [| intros; apply keeps_ret].
  apply keeps_database_bind; [apply keeps_kv_call |]. intros keys.
  destruct (_ >? _); [| apply keeps_ret].
  apply keeps_promise_all. intros m Hin. apply in_map_iff in Hin.
  destruct Hin as (key & <- & _). apply keeps_kv_call.
Qed.

(** A data fetch that only reads: the database it hands back is the one it
    was given. *)
Lemma keeps_getOrSetCache (key : string) (loader : Loader D) (ttl : Z) :
  (forall d, snd (loader d) = d) ->
  keeps_database (getOrSetCache key loader ttl).
Proof.
  intros Hreads. unfold getOrSetCache.
  apply keeps_database_bind; [apply keeps_getCachedData |]. intros cached.
  assert (Hmiss : keeps_database
                    (bind (run_loader loader)
                       (fun data =>
                          bind (try_catch (setCachedData key data ttl) (fun _ => ret tt))
                            (fun _ => ret data)))).
  { apply keeps_database_bind.
    - intros w. unfold run_loader. specialize (Hreads (env_DB w)).
      destruct (loader (env_DB w)) as [r d]. simpl in *. now subst.
    - intros data. apply keeps_database_bind; [| intros; apply keeps_ret].
      apply keeps_database_try_catch; [apply keeps_setCachedData | intros; apply keeps_ret]. }
  destruct cached; first [exact Hmiss | apply keeps_ret].
Qed.

End DatabaseUntouched.

Section ReadsAreReads.
Context {D : Type} `{DatabaseService D} `{Locale}.

(** A [GET], of one petition or of a listing, never writes to the database
    or to the image bucket, whatever the cache store does and whether the
    read is answered with 200, 304, 401 or 500; the only store a read may
    write to is the cache. *)
Theorem reads_leave_database (context : EventContext) (w : World D) :
  method (request context) = "GET" ->
  (env_DB (snd (PetitionById.onRequest context w)) = env_DB w
   /\ env_IMAGES (snd (PetitionById.onRequest context w)) = env_IMAGES w)
  /\ (env_DB (snd (PetitionsIndex.onRequest context w)) = env_DB w
      /\ env_IMAGES (snd (PetitionsIndex.onRequest context w)) = env_IMAGES w).
Proof.
  intros Hget.
  assert (Hcors : handleCORS (request context) (env context) = None).
  { unfold handleCORS. now rewrite Hget. }
  split.
  - revert w. change (keeps_database (PetitionById.onRequest context)).
    unfold PetitionById.onRequest. rewrite Hcors, Hget.
    apply keeps_database_try_catch; [| intros; apply keeps_ret].
    destruct (ParseInt.parseInt _ _) as [petitionId |]; [| apply keeps_ret].
    change (String.eqb "GET" "GET") with true. cbv iota.
    intros w. unfold PetitionById.get.
    apply (keeps_database_bind
             (getOrSetCache _ (PetitionById.petition_loader petitionId) (10 * 60))
             (fun petition => ret (createCachedResponse petition _ _ (10 * 60) (clock w)))).
    + apply keeps_getOrSetCache. intros d. unfold PetitionById.petition_loader.
      reflexivity.
    + intros; apply keeps_ret.
  - revert w. change (keeps_database (PetitionsIndex.onRequest context)).
    unfold PetitionsIndex.onRequest. rewrite Hcors, Hget.
    apply keeps_database_try_catch; [| intros; apply keeps_ret].
    change (String.eqb "GET" "POST") with false.
    change (String.eqb "GET" "GET") with true. cbv iota.
    intros w. unfold PetitionsIndex.get.
    destruct (searchParams_get "userId" (request context)) as [[| c rest] |].
    + apply (keeps_database_bind
               (getOrSetCache _ (PetitionsIndex.list_loader _) (5 * 60))
               (fun petitions =>
                  ret (createCachedResponse petitions _ _ (5 * 60) (clock w)))).
      * apply keeps_getOrSetCache. reflexivity.
      * intros; apply keeps_ret.
    + destruct (data_user context); [| apply keeps_ret].
      apply (keeps_database_bind
               (getOrSetCache _ (PetitionsIndex.list_loader _) (5 * 60))
               (fun petitions =>
                  ret (createCachedResponse petitions _ _ (5 * 60) (clock w)))).
      * apply keeps_getOrSetCache. reflexivity.
      * intros; apply keeps_ret.
    + apply (keeps_database_bind
               (getOrSetCache _ (PetitionsIndex.list_loader _) (5 * 60))
               (fun petitions =>
                  ret (createCachedResponse petitions _ _ (5 * 60) (clock w)))).
      * apply keeps_getOrSetCache. reflexivity.
      * intros; apply keeps_ret.
Qed.

End ReadsAreReads.

(** A read of petition 1. *)
Lemma reads_leave_database_witness :
  let w := world (Some (kv_of [] [])) in
  env_DB (snd (@PetitionById.onRequest MemDb MemDb_service code_unit_locale
                 (a_context (a_request "GET" "/api/petitions/1" [] [] None) "1" None) w))
  = db_1.
Proof.
  cbv zeta.
  exact (proj1 (proj1 (@reads_leave_database MemDb MemDb_service code_unit_locale
                         (a_context (a_request "GET" "/api/petitions/1" [] [] None) "1" None)
                         (world (Some (kv_of [] []))) eq_refl))).
Defined.

(** ** The owner of a created petition *)

Lemma owner_of_json {D} (payload : json) (user : string) (w w' : World D)
    (petitionData : json) (data : CreateData) :
  assign_created_by payload user w = (Ok petitionData, w') ->
  Zod.safeParse createPetitionSchema petitionData = Zod.Success data ->
  c_created_by data = user.
Proof.
  intros Hassign Hparse.
  destruct (createPetitionSchema_accepts _ _ Hparse) as (fields & -> & Hfields).
  destruct Hfields as (_ & _ & _ & _ & _ & Hu & _). apply string_accepts in Hu.
  destruct payload; try discriminate. injection Hassign as <- _.
  rewrite property_set_same in Hu. congruence.
Qed.

Lemma bind_ok_inv {D A B} (m : M D A) (f : A -> M D B) (w w' : World D) (b : B) :
  bind m f w = (Ok b, w') ->
  exists a w1, m w = (Ok a, w1) /\ f a w1 = (Ok b, w').
Proof.
  unfold bind. destruct (m w) as [[a | e] w1]; [eauto | discriminate].
Qed.

Section CreatedPetition.
Context {D : Type} `{DatabaseService D} `{Locale}.

Lemma owner_of_form (formData : FormData) (user : AuthenticatedUser) (data : CreateData) :
  Zod.safeParse createPetitionSchema (fst (PetitionsIndex.create_from_form formData user))
  = Zod.Success data ->
  c_created_by data = user_id user.
Proof.
  intros Hparse.
  destruct (createPetitionSchema_accepts _ _ Hparse) as (fields & Hfields & Hrest).
  destruct Hrest as (_ & _ & _ & _ & _ & Hu & _). apply string_accepts in Hu.
  unfold PetitionsIndex.create_from_form in Hfields. cbn [fst] in Hfields.
  injection Hfields as <-.
  destruct (getStringField formData "location"),
    (getIntegerField formData "target_count"); cbn in Hu; congruence.
Qed.

Lemma attach_image_database
    (petitionId : Z) (imageFile : option File) (petition : Petition) (w : World D) :
  env_DB (snd (attach_image petitionId imageFile petition w)) = env_DB w
  \/ exists url,
       env_DB (snd (attach_image petitionId imageFile petition w))
       = snd (updatePetition petitionId (image_only url) (env_DB w)).
Proof.
  unfold attach_image. destruct imageFile as [file |]; [| now left].
  destruct (file_size file >? 0); [| now left].
  unfold try_catch, bind, r2_put, db_mutate, ret. cbn beta.
  destruct (match images_faults w with b :: _ => b | [] => false end); [now left |].
  cbn [env_DB set_IMAGES log_event]. right.
  match goal with
  | |- context [updatePetition petitionId (image_only ?url) (env_DB w)] => exists url
  end.
  destruct (updatePetition petitionId _ (env_DB w)) as [[row | e] d]; reflexivity.
Qed.

(** A petition is created for the authenticated user, whatever the payload
    says: when [POST /api/petitions] is answered with 200, the database was
    asked to create a petition from validated data whose [created_by] is the
    id of the user of the request and whose [image_url] is empty, and the
    database is the one this call returned, or that one after the update
    that stores the image URL.  A [created_by] sent by the client is
    overwritten (JSON) or never read (multipart). *)
Theorem created_petition_belongs_to_user
    (context : EventContext) (user : AuthenticatedUser) (w w' : World D)
    (response : Response) :
  method (request context) = "POST" ->
  data_user context = Some user ->
  PetitionsIndex.onRequest context w = (Ok response, w') ->
  status response = 200 ->
  exists data petition d,
    c_created_by data = user_id user
    /\ c_image_url data = Some EmptyString
    /\ createPetition data (env_DB w) = (Ok petition, d)
    /\ (env_DB w' = d
        \/ exists url,
             env_DB w' = snd (updatePetition (id petition) (image_only url) d)).
Proof.
  intros Hpost Huser Hrun Hok.
  unfold PetitionsIndex.onRequest, handleCORS in Hrun. rewrite Hpost, Huser in Hrun.
  change (String.eqb "POST" "OPTIONS") with false in Hrun.
  change (String.eqb "POST" "POST") with true in Hrun. cbv iota in Hrun.
  unfold try_catch in Hrun.
  destruct (PetitionsIndex.post context user w) as [[r | e] w1] eqn:Epost.
  2: { injection Hrun as <- _. discriminate Hok. }
  injection Hrun as -> ->.
  unfold PetitionsIndex.post in Epost.
  apply bind_ok_inv in Epost. destruct Epost as ([petitionData imageFile] & w0 & Ebody & Epost).
  assert (Hbody : w0 = w
                  /\ forall data,
                       Zod.safeParse createPetitionSchema petitionData = Zod.Success data ->
                       c_created_by data = user_id user).
  { destruct (Js.includes _ _).
    - apply bind_ok_inv in Ebody. destruct Ebody as (fd & w1 & Eform & [= <- <- <-]).
      pose proof (pure_await_formData (D := D) (request context) w) as Hpure.
      rewrite Eform in Hpure. simpl in Hpure. subst w1.
      split; [reflexivity |]. intros data. apply owner_of_form.
    - apply bind_ok_inv in Ebody. destruct Ebody as (payload & w1 & Ejson & Ebody).
      apply bind_ok_inv in Ebody. destruct Ebody as (p' & w2 & Eassign & [= <- <- <-]).
      pose proof (pure_await_json (D := D) (request context) w) as Hpure.
      rewrite Ejson in Hpure. simpl in Hpure. subst w1.
      pose proof (pure_assign_created_by (D := D) payload (user_id user) w) as Hpure.
      rewrite Eassign in Hpure. simpl in Hpure. subst w2.
      split; [reflexivity |]. intros data. exact (owner_of_json _ _ _ _ _ _ Eassign). }
  destruct Hbody as [-> Howner].
  destruct (Zod.safeParse createPetitionSchema petitionData) as [data | issues] eqn:Eparse.
  2: { injection Epost as <- _. discriminate Hok. }
  specialize (Howner data eq_refl).
  apply bind_ok_inv in Epost. destruct Epost as (petition & w2 & Ecreate & Epost).
  apply bind_ok_inv in Epost. destruct Epost as (p & w3 & Eimage & Epost).
  apply bind_ok_inv in Epost. destruct Epost as ([] & w4 & Einvalidate & [= _ <-]).
  unfold db_mutate in Ecreate.
  destruct (createPetition (PetitionsIndex.with_empty_image data) (env_DB w))
    as [r d] eqn:Edb.
  injection Ecreate as -> <-.
  exists (PetitionsIndex.with_empty_image data), petition, d.
  split; [exact Howner |]. split; [reflexivity |]. split; [exact Edb |].
  pose proof (keeps_invalidateCachePattern (D := D) "petitions:" w3) as [Hdb _].
  rewrite Einvalidate in Hdb. simpl in Hdb. rewrite Hdb.
  pose proof (attach_image_database (id petition) imageFile petition
                (set_DB d (log_event (DbCall "createPetition") w))) as Himage.
  rewrite Eimage in Himage. exact Himage.
Qed.

End CreatedPetition.

(** Alice creates a petition whose payload names Bob as its creator. *)
Lemma created_petition_belongs_to_user_witness :
  exists data petition d,
    c_created_by data = "alice"
    /\ createPetition data db_1 = (Ok petition, d).
Proof.
  set (w := world (Some (kv_of [] []))).
  set (context :=
         a_context
           (a_request "POST" "/api/petitions" [] []
              (Some (JObj [("title"%string, JStr a_title);
                           ("description"%string, JStr a_description);
                           ("type"%string, JStr "national");
                           ("created_by"%string, JStr "bob")])))
           EmptyString (Some alice)).
  set (run := @PetitionsIndex.onRequest MemDb MemDb_service code_unit_locale context w).
  assert (E : run = (Ok (response_of run), snd run)) by (vm_compute; reflexivity).
  assert (Hs : status (response_of run) = 200) by (vm_compute; reflexivity).
  destruct (@created_petition_belongs_to_user MemDb MemDb_service code_unit_locale
              context alice w (snd run) (response_of run) eq_refl eq_refl E Hs)
    as (data & petition & d & Howner & _ & Hcreate & _).
  exists data, petition, d. split; [exact Howner | exact Hcreate].
Defined.

(** ** Deleting a petition *)

Section DeletePetition.
Context {D : Type} `{DatabaseService D} `{Locale}.

(** [DELETE /api/petitions/{id}] with a numeric id asks the database to
    delete the petition and answers for the database: 200 with the message
    [Petition deleted successfully] when the call returns, and 500 with the
    error of the database, and the cache as it was, when it throws.  The
    handler itself checks neither that the petition exists nor whose it is. *)
Theorem delete_answers_for_database
    (context : EventContext) (petitionId : Z) (w : World D) :
  method (request context) = "DELETE" ->
  ParseInt.parseInt (params_id context) None = Some petitionId ->
  let run := PetitionById.onRequest context w in
  env_DB (snd run) = snd (deletePetition petitionId (env_DB w))
  /\ match fst (deletePetition petitionId (env_DB w)) with
     | Ok _ =>
         fst run
         = Ok (createSuccessResponse
                 (JObj [("message", JStr "Petition deleted successfully")]))
     | Throw e =>
         fst run = Ok (createCachedErrorResponse e (request context) (env context) 500)
         /\ env_CACHE (snd run) = env_CACHE w
     end.
Proof.
  intros Hdelete Hid. cbv zeta.
  unfold PetitionById.onRequest, handleCORS. rewrite Hdelete, Hid.
  change (String.eqb "DELETE" "OPTIONS") with false.
  change (String.eqb "DELETE" "GET") with false.
  change (String.eqb "DELETE" "PUT") with false.
  change (String.eqb "DELETE" "DELETE") with true. cbv iota.
  unfold try_catch, PetitionById.delete, bind, db_mutate.
  destruct (deletePetition petitionId (env_DB w)) as [[[] | e] d]; cbn [fst snd].
  2: { cbn. auto. }
  set (w1 := set_DB d (log_event (DbCall "deletePetition") w)).
  destruct (invalidate_answers "petitions:" w1) as ([] & E1).
  pose proof (keeps_invalidateCachePattern (D := D) "petitions:" w1) as [Hdb1 _].
  destruct (invalidateCachePattern "petitions:" w1) as [r1 w2]. simpl in E1, Hdb1. subst r1.
  destruct (invalidate_answers "petition:" w2) as ([] & E2).
  pose proof (keeps_invalidateCachePattern (D := D) "petition:" w2) as [Hdb2 _].
  destruct (invalidateCachePattern "petition:" w2) as [r2 w3]. simpl in E2, Hdb2. subst r2.
  cbn. split; [congruence | reflexivity].
Qed.

(** The handler of one petition never looks at the caller: its answer and
    its effects are the same whoever is authenticated, and when nobody is.
    The listing handler asks for a user when [userId] is given, but any user
    will do: the answer does not depend on who the user is. *)
Theorem handlers_ignore_identity
    (r : Request) (e : Env) (i : string) (user user' : option AuthenticatedUser)
    (w : World D) :
  PetitionById.onRequest
    {| request := r; env := e; params_id := i; data_user := user |} w
  = PetitionById.onRequest
      {| request := r; env := e; params_id := i; data_user := user' |} w
  /\ (method r = "GET" -> is_Some user -> is_Some user' ->
      PetitionsIndex.onRequest
        {| request := r; env := e; params_id := i; data_user := user |} w
      = PetitionsIndex.onRequest
          {| request := r; env := e; params_id := i; data_user := user' |} w).
Proof.
  split; [reflexivity |].
  intros Hget [u ->] [u' ->].
  unfold PetitionsIndex.onRequest, handleCORS. cbn [request env].
  rewrite Hget.
  change (String.eqb "GET" "OPTIONS") with false.
  change (String.eqb "GET" "POST") with false.
  change (String.eqb "GET" "GET") with true. cbv iota.
  unfold try_catch, PetitionsIndex.get. cbn [request env data_user].
  destruct (searchParams_get "userId" r) as [[| c rest] |]; reflexivity.
Qed.

End DeletePetition.

(** Deleting petition 1 of the example database. *)
Lemma delete_answers_for_database_witness :
  let w := world (Some (kv_of [cached_listing] [])) in
  let run :=
    @PetitionById.onRequest MemDb MemDb_service code_unit_locale
      (a_context (a_request "DELETE" "/api/petitions/1" [] [] None) "1" None) w in
  status (response_of run) = 200 /\ rows (env_DB (snd run)) !! 1 = None.
Proof.
  cbv zeta.
  destruct (@delete_answers_for_database MemDb MemDb_service code_unit_locale
              (a_context (a_request "DELETE" "/api/petitions/1" [] [] None) "1" None)
              1 (world (Some (kv_of [cached_listing] []))) eq_refl eq_refl)
    as [Hdb Hresponse].
  unfold response_of. split.
  - simpl in Hresponse. rewrite Hresponse. reflexivity.
  - rewrite Hdb. reflexivity.
Defined.

(** ** Cache keys and ETags are not injective *)

Lemma prefix_append (p rest : string) : String.prefix p (p +:+ rest) = true.
Proof.
  induction p as [| c p IH]; [now destruct rest |].
  change (String c p +:+ rest) with (String c (p +:+ rest)). simpl.
  destruct (Ascii.ascii_dec c c); [exact IH | contradiction].
Qed.

Lemma string_app_assoc (a b c : string) : (a +:+ b) +:+ c = a +:+ (b +:+ c).
Proof.
  induction a as [| x a IH]; [reflexivity |].
  change (String x ((a +:+ b) +:+ c) = String x (a +:+ (b +:+ c))). now rewrite IH.
Qed.

(** Every key made for a prefix lies in the namespace of the prefix, the
    one [invalidateCachePattern] lists; the keys of single petitions
    ([petition:]) and those of listings ([petitions:]) lie in namespaces
    neither of which contains the other, so an invalidation of one leaves
    the other alone. *)
Theorem cache_key_namespaces `{Locale} (request : Request) (prefix : string) :
  Js.startsWith (prefix +:+ ":") (generateCacheKey request prefix) = true
  /\ Js.startsWith "petition:" (generateCacheKey request "petitions") = false
  /\ Js.startsWith "petitions:" (generateCacheKey request "petition") = false.
Proof.
  unfold Js.startsWith, generateCacheKey. split; [| split; reflexivity].
  rewrite <- (string_app_assoc prefix ":"). apply prefix_append.
Qed.

(** The key does not separate a value from the parameters that follow it: a
    request with the one parameter [k = v&k'=v'] and a request with the two
    parameters [k = v] and [k' = v'] of the same path share their cache key,
    so one is answered with what was cached for the other. *)
Theorem cache_key_collision `{Locale}
    (request request' : Request) (prefix k v k' v' : string) :
  pathname request = pathname request' ->
  searchParams request = [(k, v +:+ "&" +:+ k' +:+ "=" +:+ v')] ->
  searchParams request' = [(k, v); (k', v')] ->
  localeCompare k k' <= 0 ->
  generateCacheKey request prefix = generateCacheKey request' prefix.
Proof.
  intros Hpath Hone Htwo Horder. unfold generateCacheKey.
  rewrite Hpath, Hone, Htwo. unfold array_sort. simpl foldr.
  unfold compare_names. cbn [fst].
  destruct (Z.leb_spec (localeCompare k k') 0) as [_ | Hgt]; [| lia].
  cbn [map Js.join]. unfold render_param. cbn [fst snd].
  now rewrite !string_app_assoc.
Qed.

Lemma cache_key_collision_witness :
  @generateCacheKey code_unit_locale
    (a_request "GET" "/api/petitions" [("limit", "1&type=local")] [] None) "petitions"
  = @generateCacheKey code_unit_locale
      (a_request "GET" "/api/petitions" [("limit", "1"); ("type", "local")] [] None)
      "petitions".
Proof.
  apply (@cache_key_collision code_unit_locale _ _ "petitions" "limit" "1" "type" "local");
    try reflexivity.
  vm_compute. discriminate.
Defined.

Lemma to_int32_periodic (x k : Z) : Js.to_int32 (x + k * 2 ^ 32) = Js.to_int32 x.
Proof.
  unfold Js.to_int32.
  replace (x + k * 2 ^ 32 + 2 ^ 31) with (x + 2 ^ 31 + k * 2 ^ 32) by lia.
  now rewrite Z_mod_plus_full.
Qed.

Lemma to_int32_wraps (x : Z) : exists k, Js.to_int32 x = x + k * 2 ^ 32.
Proof.
  exists (- ((x + 2 ^ 31) / 2 ^ 32)). unfold Js.to_int32.
  pose proof (Z.div_mod (x + 2 ^ 31) (2 ^ 32) ltac:(lia)). lia.
Qed.

(** One round of the loop of [generateETag] is [31 * hash + char], wrapped. *)
Lemma etag_hash_step (c : ascii) (rest : string) (hash : Z) :
  etag_hash (String c rest) hash = etag_hash rest (Js.to_int32 (31 * hash + Js.charCode c)).
Proof.
  cbn [etag_hash]. f_equal. rewrite Z.shiftl_mul_pow2 by lia.
  destruct (to_int32_wraps hash) as (k0 & ->).
  destruct (to_int32_wraps ((hash + k0 * 2 ^ 32) * 2 ^ 5)) as (k1 & ->).
  replace ((hash + k0 * 2 ^ 32) * 2 ^ 5 + k1 * 2 ^ 32 - hash + Js.charCode c)
    with (31 * hash + Js.charCode c + (32 * k0 + k1) * 2 ^ 32) by lia.
  apply to_int32_periodic.
Qed.

Lemma etag_hash_app (a b : string) (hash : Z) :
  etag_hash (a +:+ b) hash = etag_hash b (etag_hash a hash).
Proof.
  revert hash. induction a as [| c a IH]; intros hash; [reflexivity |].
  change (String c a +:+ b) with (String c (a +:+ b)).
  cbn [etag_hash]. apply IH.
Qed.

Lemma etag_hash_Aa_BB (hash : Z) : etag_hash "Aa" hash = etag_hash "BB" hash.
Proof.
  rewrite !etag_hash_step. cbn [etag_hash].
  change (Js.charCode "A") with 65. change (Js.charCode "a") with 97.
  change (Js.charCode "B") with 66.
  destruct (to_int32_wraps (31 * hash + 65)) as (k & ->).
  destruct (to_int32_wraps (31 * hash + 66)) as (k' & ->).
  replace (31 * (31 * hash + 65 + k * 2 ^ 32) + 97)
    with (961 * hash + 2112 + (31 * k) * 2 ^ 32) by lia.
  replace (31 * (31 * hash + 66 + k' * 2 ^ 32) + 66)
    with (961 * hash + 2112 + (31 * k') * 2 ^ 32) by lia.
  now rewrite !to_int32_periodic.
Qed.

Lemma escape_all_app (a b : string) :
  JSON.escape_all (a +:+ b) = JSON.escape_all a +:+ JSON.escape_all b.
Proof.
  induction a as [| c a IH]; [reflexivity |].
  change (String c a +:+ b) with (String c (a +:+ b)).
  cbn [JSON.escape_all]. now rewrite IH, string_app_assoc.
Qed.

Lemma string_app_inv_head (a b c : string) : a +:+ b = a +:+ c -> b = c.
Proof.
  induction a as [| x a IH]; [auto |].
  change (String x (a +:+ b) = String x (a +:+ c) -> b = c). intros [= E]. auto.
Qed.

(** The ETag does not tell every change of the data: the 32-bit hash of
    [generateETag] is the same for two strings that differ only in that one
    has [Aa] where the other has [BB].  A client that holds the ETag of the
    one is therefore answered 304, with no body, when the data has become
    the other. *)
Theorem generateETag_collision
    (s t : string) (request : Request) (env : Env) (maxAge : Z) (now : Clock) :
  let old := JStr (s +:+ "Aa" +:+ t) in
  let new := JStr (s +:+ "BB" +:+ t) in
  old <> new
  /\ generateETag old = generateETag new
  /\ (headers_get "If-None-Match" request = Some (generateETag old) ->
      createCachedResponse new request env maxAge now
      = {| status := 304; body := None;
           headers := obj_spread (getCorsHeaders request env)
                        [("ETag", generateETag old);
                         ("Cache-Control", cache_control maxAge)] |}).
Proof.
  cbv zeta.
  assert (Hetag : generateETag (JStr (s +:+ "Aa" +:+ t))
                  = generateETag (JStr (s +:+ "BB" +:+ t))).
  { unfold generateETag. do 3 f_equal.
    cbn [JSON.stringify]. unfold JSON.quote. rewrite !etag_hash_step. f_equal.
    rewrite !escape_all_app, !string_app_assoc.
    rewrite !(etag_hash_app (JSON.escape_all s)).
    change (JSON.escape_all "Aa") with "Aa". change (JSON.escape_all "BB") with "BB".
    rewrite !(etag_hash_app "Aa"), !(etag_hash_app "BB").
    now rewrite etag_hash_Aa_BB. }
  split; [| split; [exact Hetag |]].
  - intros [= E]. apply string_app_inv_head in E. discriminate E.
  - intros Hclient. unfold createCachedResponse. rewrite Hclient, <- Hetag.
    unfold opt_is. now rewrite String.eqb_refl.
Qed.

(** ** CORS headers of the responses *)

Section ResponseHeaders.
Context {D : Type} `{DatabaseService D} `{Locale}.

Lemma cached_response_cors (data : json) (request : Request) (env : Env) (maxAge : Z)
    (now : Clock) :
  cors_aware request env (createCachedResponse data request env maxAge now).
Proof.
  unfold createCachedResponse. destruct (opt_is _ _); split; reflexivity.
Qed.

Lemma error_response_cors (error : JsValue) (request : Request) (env : Env) (code : Z) :
  cors_aware request env (createCachedErrorResponse error request env code).
Proof. split; reflexivity. Qed.

Lemma validation_response_cors (errors : list FieldError) (request : Request) (env : Env) :
  cors_aware request env (createValidationErrorResponse errors request env).
Proof. split; reflexivity. Qed.

Lemma success_response_cors (data : json) : cors_legacy (createSuccessResponse data).
Proof. split; reflexivity. Qed.

(** The answer to a successful create, update or delete is built by the
    deprecated [createSuccessResponse]: it allows any origin ([*]) and has
    no [Access-Control-Allow-Credentials] header, whatever the [Origin] of
    the request.  Every other response of the two handlers (the pre-flight,
    the reads, and every refusal and failure) carries the headers
    [getCorsHeaders] computes for the request, with the credentials flag. *)
Theorem mutation_success_has_legacy_cors (context : EventContext) (w w' : World D)
    (response : Response) :
  PetitionById.onRequest context w = (Ok response, w')
  \/ PetitionsIndex.onRequest context w = (Ok response, w') ->
  if String.eqb (method (request context)) "GET"
     || String.eqb (method (request context)) "OPTIONS"
     || negb (status response =? 200)
  then cors_aware (request context) (env context) response
  else cors_legacy response.
Proof.
  intros Hrun.
  set (aware := cors_aware (request context) (env context)).
  assert (Hmutation : forall m : M D Response,
             responds (fun r => (status r = 200 /\ cors_legacy r)
                                \/ (status r <> 200 /\ aware r)) m ->
             forall w0 r w1, m w0 = (Ok r, w1) ->
               if negb (status r =? 200) then aware r else cors_legacy r).
  { intros m Hm w0 r w1 E. destruct (Hm w0 r w1 E) as [[Hs Hl] | [Hs Ha]].
    - now rewrite Hs.
    - destruct (Z.eqb_spec (status r) 200); [contradiction | exact Ha]. }
  assert (Hput : forall petitionId,
             responds (fun r => (status r = 200 /\ cors_legacy r)
                                \/ (status r <> 200 /\ aware r))
               (PetitionById.put context petitionId)).
  { intros petitionId. unfold PetitionById.put. apply responds_bind.
    intros [petitionData imageFile].
    destruct (Zod.safeParse updatePetitionSchema petitionData).
    - repeat (apply responds_bind; intros ?). apply responds_ret. left.
      split; [reflexivity | apply success_response_cors].
    - apply responds_ret. right. split; [discriminate | apply validation_response_cors]. }
  assert (Hdelete : forall petitionId,
             responds (D := D) (fun r => (status r = 200 /\ cors_legacy r)
                                         \/ (status r <> 200 /\ aware r))
               (PetitionById.delete petitionId)).
  { intros petitionId. unfold PetitionById.delete.
    repeat (apply responds_bind; intros ?). apply responds_ret. left.
    split; [reflexivity | apply success_response_cors]. }
  assert (Hpost : forall user,
             responds (fun r => (status r = 200 /\ cors_legacy r)
                                \/ (status r <> 200 /\ aware r))
               (PetitionsIndex.post context user)).
  { intros user. unfold PetitionsIndex.post. apply responds_bind.
    intros [petitionData imageFile].
    destruct (Zod.safeParse createPetitionSchema petitionData).
    - repeat (apply responds_bind; intros ?). apply responds_ret. left.
      split; [reflexivity | apply success_response_cors].
    - apply responds_ret. right. split; [discriminate | apply validation_response_cors]. }
  assert (Hget : forall petitionId,
             responds aware (PetitionById.get context petitionId)).
  { intros petitionId w0 r w1 E. unfold PetitionById.get in E.
    refine (responds_bind aware _ _ _ w0 r w1 E).
    intros petition. apply responds_ret. apply cached_response_cors. }
  assert (Hlist : responds aware (PetitionsIndex.get context)).
  { intros w0 r w1 E. unfold PetitionsIndex.get in E.
    destruct (searchParams_get "userId" (request context)) as [[| c rest] |];
      try (refine (responds_bind aware _ _ _ w0 r w1 E);
           intros petitions; apply responds_ret; apply cached_response_cors).
    destruct (data_user context).
    - refine (responds_bind aware _ _ _ w0 r w1 E).
      intros petitions. apply responds_ret. apply cached_response_cors.
    - injection E as <- _. apply error_response_cors. }
  assert (Herror : forall (e : JsValue) (code : Z) (b : bool) (w0 : World D) r w1,
             code <> 200 ->
             ret (createCachedErrorResponse e (request context) (env context) code) w0
             = (Ok r, w1) ->
             if b || negb (status r =? 200) then aware r else cors_legacy r).
  { intros e code b w0 r w1 Hcode [= <- _]. simpl status.
    destruct (Z.eqb_spec code 200); [contradiction |].
    rewrite orb_true_r. apply error_response_cors. }
  destruct Hrun as [E | E].
  - unfold PetitionById.onRequest, handleCORS in E.
    destruct (String.eqb (method (request context)) "OPTIONS") eqn:Hoptions.
    { injection E as <- _. rewrite orb_true_r. split; reflexivity. }
    rewrite orb_false_r. unfold try_catch in E.
    match type of E with context [match ?m w with _ => _ end] =>
      destruct (m w) as [[r | e] w1] eqn:Einner end.
    2: { exact (Herror e 500 _ w1 response w' ltac:(discriminate) E). }
    injection E as -> ->.
    destruct (ParseInt.parseInt _ _) as [petitionId |].
    2: { exact (Herror _ 400 _ w response w' ltac:(discriminate) Einner). }
    destruct (String.eqb (method (request context)) "GET").
    { exact (Hget petitionId w response w' Einner). }
    destruct (String.eqb (method (request context)) "PUT").
    { exact (Hmutation _ (Hput petitionId) w response w' Einner). }
    destruct (String.eqb (method (request context)) "DELETE").
    { exact (Hmutation _ (Hdelete petitionId) w response w' Einner). }
    exact (Herror _ 405 _ w response w' ltac:(discriminate) Einner).
  - unfold PetitionsIndex.onRequest, handleCORS in E.
    destruct (String.eqb (method (request context)) "OPTIONS") eqn:Hoptions.
    { injection E as <- _. rewrite orb_true_r. split; reflexivity. }
    rewrite orb_false_r. unfold try_catch in E.
    match type of E with context [match ?m w with _ => _ end] =>
      destruct (m w) as [[r | e] w1] eqn:Einner end.
    2: { exact (Herror e 500 _ w1 response w' ltac:(discriminate) E). }
    injection E as -> ->.
    destruct (String.eqb (method (request context)) "POST") eqn:Hpostm.
    { assert (Hnot : String.eqb (method (request context)) "GET" = false).
      { apply String.eqb_eq in Hpostm. now rewrite Hpostm. }
      rewrite Hnot.
      destruct (data_user context) as [user |].
      - exact (Hmutation _ (Hpost user) w response w' Einner).
      - exact (Herror _ 401 false w response w' ltac:(discriminate) Einner). }
    destruct (String.eqb (method (request context)) "GET").
    { exact (Hlist w response w' Einner). }
    exact (Herror _ 405 _ w response w' ltac:(discriminate) Einner).
Qed.

End ResponseHeaders.

(** A delete sent from the production site is answered for any origin. *)
Lemma mutation_success_has_legacy_cors_witness :
  let run :=
    @PetitionById.onRequest MemDb MemDb_service code_unit_locale
      (a_context (a_request "DELETE" "/api/petitions/1" []
                    [("Origin", "https://petition.ph")] None) "1" None)
      (world None) in
  cors_legacy (response_of run).
Proof.
  cbv zeta.
  set (context := a_context (a_request "DELETE" "/api/petitions/1" []
                               [("Origin", "https://petition.ph")] None) "1" None).
  set (run := @PetitionById.onRequest MemDb MemDb_service code_unit_locale context
                (world None)).
  assert (E : run = (Ok (response_of run), snd run)) by (vm_compute; reflexivity).
  assert (Hs : status (response_of run) = 200) by (vm_compute; reflexivity).
  pose proof (@mutation_success_has_legacy_cors MemDb MemDb_service code_unit_locale
                context (world None) (snd run) (response_of run) (or_introl E)) as Hcors.
  rewrite Hs in Hcors. exact Hcors.
Defined.

(** ** Updating a petition *)

Section UpdatePetition.
Context {D : Type} `{DatabaseService D} `{Locale}.

Lemma attach_image_result
    (petitionId : Z) (imageFile : option File) (petition p : Petition) (w w' : World D) :
  attach_image petitionId imageFile petition w = (Ok p, w') ->
  p = petition \/ exists url, p = set_image_url url petition.
Proof.
  unfold attach_image. destruct imageFile as [file |]; [| intros [= <- _]; now left].
  destruct (file_size file >? 0); [| intros [= <- _]; now left].
  unfold try_catch, bind, r2_put, db_mutate, ret. cbn beta.
  destruct (match images_faults w with b :: _ => b | [] => false end);
    [intros [= <- _]; now left |].
  cbn [env_DB set_IMAGES log_event].
  destruct (updatePetition petitionId _ (env_DB w)) as [[row | e] d];
    intros [= <- _]; [right; eauto | now left].
Qed.

(** When [PUT /api/petitions/{id}] is answered with 200, the payload of the
    request (the JSON body, or the object built from the fields of the form)
    passed [updatePetitionSchema], the database accepted the update of
    petition [id] with the validated data, and the body of the response is
    the petition the database returned, with the image URL when an image was
    stored.  The database is the one that update returned, or that one after
    the update that stores the image URL.  The validated data always carry a
    target count: an update whose payload has none hands [target_count: 1000]
    to the database. *)
Theorem update_applies_validated_data
    (context : EventContext) (petitionId : Z) (w w' : World D) (response : Response) :
  method (request context) = "PUT" ->
  ParseInt.parseInt (params_id context) None = Some petitionId ->
  PetitionById.onRequest context w = (Ok response, w') ->
  status response = 200 ->
  exists payload data updated d p,
    (req_json (request context) = Some payload
     \/ exists formData, req_formData (request context) = Some formData
                         /\ payload = fst (PetitionById.update_from_form formData))
    /\ Zod.safeParse updatePetitionSchema payload = Zod.Success data
    /\ (exists n, u_target_count data = Some n
                  /\ 1 <= n <= 1000000
                  /\ forall fields, payload = JObj fields ->
                                    Zod.property "target_count" fields = None -> n = 1000)
    /\ updatePetition petitionId data (env_DB w) = (Ok updated, d)
    /\ (env_DB w' = d
        \/ exists url, env_DB w' = snd (updatePetition petitionId (image_only url) d))
    /\ (p = updated \/ exists url, p = set_image_url url updated)
    /\ body response = Some (JSON.stringify (Petition_to_json p)).
Proof.
  intros Hput Hid Hrun Hok.
  unfold PetitionById.onRequest, handleCORS in Hrun. rewrite Hput, Hid in Hrun.
  change (String.eqb "PUT" "OPTIONS") with false in Hrun.
  change (String.eqb "PUT" "GET") with false in Hrun.
  change (String.eqb "PUT" "PUT") with true in Hrun. cbv iota in Hrun.
  unfold try_catch in Hrun.
  destruct (PetitionById.put context petitionId w) as [[r | e] w1] eqn:Eput.
  2: { injection Hrun as <- _. discriminate Hok. }
  injection Hrun as -> ->.
  unfold PetitionById.put in Eput.
  apply bind_ok_inv in Eput. destruct Eput as ([payload imageFile] & w0 & Ebody & Eput).
  assert (Hbody : w0 = w
                  /\ (req_json (request context) = Some payload
                      \/ exists formData,
                           req_formData (request context) = Some formData
                           /\ payload = fst (PetitionById.update_from_form formData))).
  { destruct (Js.includes _ _).
    - apply bind_ok_inv in Ebody. destruct Ebody as (fd & w1 & Eform & [= <- <- <-]).
      pose proof (pure_await_formData (D := D) (request context) w) as Hpure.
      rewrite Eform in Hpure. simpl in Hpure. subst w1.
      split; [reflexivity |]. right. exists fd. split; [| reflexivity].
      unfold await_formData in Eform.
      destruct (req_formData (request context)); [now injection Eform as -> | discriminate].
    - apply bind_ok_inv in Ebody. destruct Ebody as (p0 & w1 & Ejson & [= <- <- <-]).
      pose proof (pure_await_json (D := D) (request context) w) as Hpure.
      rewrite Ejson in Hpure. simpl in Hpure. subst w1.
      split; [reflexivity |]. left.
      unfold await_json in Ejson.
      destruct (req_json (request context)); [now injection Ejson as -> | discriminate]. }
  destruct Hbody as [-> Hpayload].
  destruct (Zod.safeParse updatePetitionSchema payload) as [data | issues] eqn:Eparse.
  2: { injection Eput as <- _. discriminate Hok. }
  apply bind_ok_inv in Eput. destruct Eput as (updated & w2 & Eupdate & Eput).
  apply bind_ok_inv in Eput. destruct Eput as (p & w3 & Eimage & Eput).
  apply bind_ok_inv in Eput. destruct Eput as ([] & w4 & Einv1 & Eput).
  apply bind_ok_inv in Eput. destruct Eput as ([] & w5 & Einv2 & [= <- <-]).
  unfold db_mutate in Eupdate.
  destruct (updatePetition petitionId data (env_DB w)) as [r d] eqn:Edb.
  injection Eupdate as -> <-.
  exists payload, data, updated, d, p.
  split; [exact Hpayload |]. split; [exact Eparse |].
  split.
  { destruct (updatePetitionSchema_accepts payload data Eparse)
      as (fields & -> & _ & _ & _ & _ & Hn & _).
    apply target_count_update_accepts in Hn. destruct Hn as (n & En & Hn).
    exists n. split; [exact En |].
    destruct Hn as [[Hnone ->] | [Hsome Hrange]].
    - split; [lia | reflexivity].
    - split; [exact Hrange |]. intros fields' [= <-] Hnone. congruence. }
  split; [exact Edb |].
  split; [| split; [exact (attach_image_result _ _ _ _ _ _ Eimage) | reflexivity]].
  pose proof (keeps_invalidateCachePattern (D := D) "petitions:" w3) as [Hdb1 _].
  rewrite Einv1 in Hdb1. simpl in Hdb1.
  pose proof (keeps_invalidateCachePattern (D := D) "petition:" w4) as [Hdb2 _].
  rewrite Einv2 in Hdb2. simpl in Hdb2. rewrite Hdb2, Hdb1.
  pose proof (attach_image_database petitionId imageFile updated
                (set_DB d (log_event (DbCall "updatePetition") w))) as Himage.
  rewrite Eimage in Himage. exact Himage.
Qed.

End UpdatePetition.

(** The title of petition 1 is changed. *)
Lemma update_applies_validated_data_witness :
  exists data updated d,
    Zod.safeParse updatePetitionSchema retitle = Zod.Success data
    /\ u_target_count data = Some 1000
    /\ updatePetition 1 data db_1 = (Ok updated, d).
Proof.
  set (w := world (Some (kv_of [cached_listing] []))).
  set (context := a_context (a_request "PUT" "/api/petitions/1" [] [] (Some retitle))
                    "1" (Some alice)).
  set (run := @PetitionById.onRequest MemDb MemDb_service code_unit_locale context w).
  assert (E : run = (Ok (response_of run), snd run)) by (vm_compute; reflexivity).
  assert (Hs : status (response_of run) = 200) by (vm_compute; reflexivity).
  destruct (@update_applies_validated_data MemDb MemDb_service code_unit_locale
              context 1 w (snd run) (response_of run) eq_refl eq_refl E Hs)
    as (payload & data & updated & d & p & Hpayload & Hparse & Hcount & Hupdate & _).
  exists data, updated, d.
  destruct Hpayload as [[= <-] | (fd & [=] & _)].
  split; [exact Hparse |]. split; [| exact Hupdate].
  destruct Hcount as (n & En & _ & Hdefault).
  rewrite En, (Hdefault _ eq_refl eq_refl). reflexivity.
Defined.

(** ** The footprint of the handlers in the cache store *)

Section CacheChange.
Context {D : Type}.
Variable R : string -> option KVEntry -> option KVEntry -> Prop.
Hypothesis R_refl : forall k a, R k a a.
Hypothesis R_trans : forall k a b c, R k a b -> R k b c -> R k a c.

Lemma change_preserves {A} (m : M D A) : preserves_cache m -> cache_change R m.
Proof.
  intros Hm w k. destruct (Hm w) as [Hc _]. unfold cache_entries. rewrite Hc. apply R_refl.
Qed.

Lemma change_ret {A} (a : A) : cache_change (D := D) R (ret a).
Proof. intros w k. apply R_refl. Qed.

Lemma change_bind {A B} (m : M D A) (f : A -> M D B) :
  cache_change R m -> (forall a, cache_change R (f a)) -> cache_change R (bind m f).
Proof.
  intros Hm Hf w k. unfold bind. specialize (Hm w k).
  destruct (m w) as [[a | e] w1]; simpl in *; [| exact Hm].
  exact (R_trans _ _ _ _ Hm (Hf a w1 k)).
Qed.

Lemma change_try_catch {A} (m : M D A) (handler : JsValue -> M D A) :
  cache_change R m -> (forall e, cache_change R (handler e)) ->
  cache_change R (try_catch m handler).
Proof.
  intros Hm Hh w k. unfold try_catch. specialize (Hm w k).
  destruct (m w) as [[a | e] w1]; simpl in *; [exact Hm |].
  exact (R_trans _ _ _ _ Hm (Hh e w1 k)).
Qed.

Lemma change_kv_call {A} (ev : Event)
    (op : Z -> gmap string KVEntry -> Result A * gmap string KVEntry) :
  (forall now entries k, R k (entries !! k) (snd (op now entries) !! k)) ->
  cache_change (D := D) R (kv_call ev op).
Proof.
  intros Hop w k. unfold kv_call, cache_entries.
  destruct (env_CACHE w) as [kv |] eqn:E; [| simpl; rewrite E; apply R_refl].
  destruct (match kv_faults kv with b :: _ => b | [] => false end); simpl;
    [apply R_refl |].
  specialize (Hop (epoch_seconds (clock w)) (kv_entries kv) k).
  destruct (op _ _). exact Hop.
Qed.

Lemma change_promise_all (ms : list (M D unit)) :
  (forall m, In m ms -> cache_change R m) -> cache_change R (promise_all ms).
Proof.
  induction ms as [| m rest IH]; intros Hms w k; simpl; [apply R_refl |].
  pose proof (Hms m (or_introl eq_refl) w k) as Hm.
  destruct (m w) as [r w1]. simpl in Hm.
  pose proof (IH (fun m' Hin => Hms m' (or_intror Hin)) w1 k) as Hrest.
  destruct (promise_all rest w1) as [r' w2]. simpl in *.
  exact (R_trans _ _ _ _ Hm Hrest).
Qed.

Lemma change_getCachedData (key : string) : cache_change (D := D) R (getCachedData key).
Proof.
  unfold getCachedData. apply change_try_catch; [| intros; apply change_ret].
  intros w k. destruct (env_CACHE w) eqn:E; [| apply R_refl].
  apply change_kv_call. intros now entries k'.
  destruct (entries !! key) as [e |]; [| apply R_refl].
  destruct (kv_live now e); [| apply R_refl].
  destruct (JSON.parse (kv_value e)); apply R_refl.
Qed.

End CacheChange.

Lemma only_keys_refl (K : string -> Prop) k a : only_keys K k a a.
Proof. now left. Qed.

Lemma only_keys_trans (K : string -> Prop) k a b c :
  only_keys K k a b -> only_keys K k b c -> only_keys K k a c.
Proof. unfold only_keys. intros [-> | Hk] [-> | Hk']; auto. Qed.

Lemma removed_in_refl (K : string -> Prop) k a : removed_in K k a a.
Proof. now left. Qed.

Lemma removed_in_trans (K : string -> Prop) k a b c :
  removed_in K k a b -> removed_in K k b c -> removed_in K k a c.
Proof. unfold removed_in. intros [-> | Hk] [-> | Hk']; auto. Qed.

Lemma removed_in_weaken {D A} (K K' : string -> Prop) (m : M D A) :
  (forall k, K k -> K' k) -> cache_change (removed_in K) m -> cache_change (removed_in K') m.
Proof.
  intros HK Hm w k. destruct (Hm w k) as [E | [E Hk]]; [now left | right; auto].
Qed.

Section Footprint.
Context {D : Type}.

Lemma setCachedData_footprint (key : string) (data : json) (ttl : Z) :
  cache_change (D := D) (only_keys (eq key)) (setCachedData key data ttl).
Proof.
  unfold setCachedData.
  apply change_try_catch;
    [apply only_keys_trans | | intros; apply change_ret, only_keys_refl].
  destruct (_ >? _); [apply change_ret, only_keys_refl |].
  apply change_kv_call; [apply only_keys_refl |]. intros now entries k. simpl.
  destruct (decide (key = k)) as [-> | Hne]; [now right | left].
  now apply lookup_insert_ne.
Qed.

Lemma getOrSetCache_footprint (key : string) (loader : Loader D) (ttl : Z) :
  cache_change (only_keys (eq key)) (getOrSetCache key loader ttl).
Proof.
  unfold getOrSetCache.
  apply change_bind;
    [apply only_keys_trans
    | apply change_getCachedData; [apply only_keys_refl | apply only_keys_trans] |].
  intros cached.
  assert (Hmiss : cache_change (only_keys (eq key))
                    (bind (run_loader loader)
                       (fun data =>
                          bind (try_catch (setCachedData key data ttl) (fun _ => ret tt))
                            (fun _ => ret data)))).
  { apply change_bind; [apply only_keys_trans | |].
    - apply change_preserves; [apply only_keys_refl |].
      intros w. unfold run_loader. destruct (loader (env_DB w)). now split.
    - intros data.
      apply change_bind;
        [apply only_keys_trans | | intros; apply change_ret, only_keys_refl].
      apply change_try_catch;
        [apply only_keys_trans | apply setCachedData_footprint
        | intros; apply change_ret, only_keys_refl]. }
  destruct cached; first [exact Hmiss | apply change_ret, only_keys_refl].
Qed.

Lemma invalidate_footprint (pattern : string) :
  cache_change (D := D) (removed_in (fun k => Js.startsWith pattern k = true))
    (invalidateCachePattern pattern).
Proof.
  set (K := fun k => Js.startsWith pattern k = true).
  intros w k. unfold invalidateCachePattern, try_catch, bind.
  unfold kv_list at 1, kv_call at 1.
  destruct (env_CACHE w) as [kv |] eqn:E; [| apply removed_in_refl].
  destruct (match kv_faults kv with b :: _ => b | [] => false end).
  { unfold cache_entries. simpl. rewrite E. apply removed_in_refl. }
  set (keys := fst <$> filter _ (map_to_list (kv_entries kv))).
  set (w1 := set_CACHE _ _).
  assert (Hsame : cache_entries w !! k = cache_entries w1 !! k).
  { unfold cache_entries. subst w1. simpl. now rewrite E. }
  rewrite Hsame.
  assert (Hdeletes : cache_change (D := D) (removed_in K)
                       (promise_all (map kv_delete keys))).
  { apply (removed_in_weaken (fun k => k ∈ keys)).
    - intros k' Hin. subst keys. apply listed_keys in Hin.
      apply andb_true_iff in Hin. apply Hin.
    - apply change_promise_all; [apply removed_in_refl | apply removed_in_trans |].
      intros m Hin. apply in_map_iff in Hin. destruct Hin as (key & <- & Hkey).
      apply change_kv_call; [apply removed_in_refl |]. intros now entries k'. simpl.
      destruct (decide (key = k')) as [<- | Hne].
      + right. split; [apply lookup_delete_eq | now apply list_elem_of_In].
      + left. now apply lookup_delete_ne. }
  destruct (Z.of_nat (length keys) >? 0).
  - specialize (Hdeletes w1 k).
    destruct (promise_all (map kv_delete keys) w1) as [[[] | e] w2]; exact Hdeletes.
  - apply removed_in_refl.
Qed.

End Footprint.

Lemma generateCacheKey_prefix `{Locale} (request : Request) (prefix : string) :
  Js.startsWith (prefix +:+ ":") (generateCacheKey request prefix) = true.
Proof.
  unfold Js.startsWith, generateCacheKey.
  rewrite <- (string_app_assoc prefix ":"). apply prefix_append.
Qed.

Section HandlerFootprint.
Context {D : Type} `{DatabaseService D} `{Locale}.

Lemma mutation_tail_footprint {A} (patterns : list string) (K : string -> Prop) (a : A) :
  (forall pattern k, In pattern patterns -> Js.startsWith pattern k = true -> K k) ->
  cache_change (D := D) (removed_in K)
    (fold_right (fun pattern k => bind (invalidateCachePattern pattern) (fun _ => k))
       (ret a) patterns).
Proof.
  intros HK. induction patterns as [| pattern rest IH]; simpl.
  - apply change_ret, removed_in_refl.
  - apply change_bind; [apply removed_in_trans | |].
    + apply (removed_in_weaken (fun k => Js.startsWith pattern k = true)).
      * intros k Hk. apply (HK pattern k); [now left | exact Hk].
      * apply invalidate_footprint.
    + intros _. apply IH. intros p k Hin. apply HK. now right.
Qed.

Lemma put_footprint (context : EventContext) (petitionId : Z) :
  cache_change (removed_in petition_key) (PetitionById.put context petitionId).
Proof.
  unfold PetitionById.put. apply change_bind; [apply removed_in_trans | |].
  - apply change_preserves; [apply removed_in_refl |]. destruct (Js.includes _ _).
    + apply preserves_bind; [apply preserves_await_formData | intros; apply preserves_ret].
    + apply preserves_bind; [apply preserves_await_json | intros; apply preserves_ret].
  - intros [petitionData imageFile].
    destruct (Zod.safeParse updatePetitionSchema petitionData);
      [| apply change_ret, removed_in_refl].
    apply change_bind; [apply removed_in_trans | |].
    { apply change_preserves; [apply removed_in_refl | apply preserves_db_mutate]. }
    intros updated. apply change_bind; [apply removed_in_trans | |].
    { apply change_preserves; [apply removed_in_refl | apply preserves_attach_image]. }
    intros p.
    apply (mutation_tail_footprint ["petitions:"; "petition:"]%string petition_key).
    intros pattern k [<- | [<- | []]] Hk; [now left | now right].
Qed.

Lemma delete_footprint (petitionId : Z) :
  cache_change (D := D) (removed_in petition_key) (PetitionById.delete petitionId).
Proof.
  unfold PetitionById.delete. apply change_bind; [apply removed_in_trans | |].
  { apply change_preserves; [apply removed_in_refl | apply preserves_db_mutate]. }
  intros _.
  apply (mutation_tail_footprint ["petitions:"; "petition:"]%string petition_key).
  intros pattern k [<- | [<- | []]] Hk; [now left | now right].
Qed.

Lemma post_footprint (context : EventContext) (user : AuthenticatedUser) :
  cache_change (removed_in (fun k => Js.startsWith "petitions:" k = true))
    (PetitionsIndex.post context user).
Proof.
  unfold PetitionsIndex.post. apply change_bind; [apply removed_in_trans | |].
  - apply change_preserves; [apply removed_in_refl |]. destruct (Js.includes _ _).
    + apply preserves_bind; [apply preserves_await_formData | intros; apply preserves_ret].
    + apply preserves_bind; [apply preserves_await_json |]. intros payload.
      apply preserves_bind; [apply preserves_assign_created_by | intros; apply preserves_ret].
  - intros [petitionData imageFile].
    destruct (Zod.safeParse createPetitionSchema petitionData);
      [| apply change_ret, removed_in_refl].
    apply change_bind; [apply removed_in_trans | |].
    { apply change_preserves; [apply removed_in_refl | apply preserves_db_mutate]. }
    intros created. apply change_bind; [apply removed_in_trans | |].
    { apply change_preserves; [apply removed_in_refl | apply preserves_attach_image]. }
    intros p.
    apply (mutation_tail_footprint ["petitions:"]%string
             (fun k => Js.startsWith "petitions:" k = true)).
    intros pattern k [<- | []] Hk. exact Hk.
Qed.

Lemma get_footprint (context : EventContext) (petitionId : Z) :
  cache_change (only_keys (eq (generateCacheKey (request context) "petition")))
    (PetitionById.get context petitionId).
Proof.
  intros w. unfold PetitionById.get.
  apply (change_bind _ (only_keys_trans _)
           (getOrSetCache _ (PetitionById.petition_loader petitionId) (10 * 60))
           (fun petition => ret (createCachedResponse petition _ _ (10 * 60) (clock w)))).
  - apply getOrSetCache_footprint.
  - intros; apply change_ret, only_keys_refl.
Qed.

Lemma list_footprint (context : EventContext) :
  cache_change (only_keys (eq (generateCacheKey (request context) "petitions")))
    (PetitionsIndex.get context).
Proof.
  intros w. unfold PetitionsIndex.get.
  destruct (searchParams_get "userId" (request context)) as [[| c rest] |];
    try (apply (change_bind _ (only_keys_trans _)
                  (getOrSetCache _ (PetitionsIndex.list_loader _) (5 * 60))
                  (fun petitions =>
                     ret (createCachedResponse petitions _ _ (5 * 60) (clock w))));
         [apply getOrSetCache_footprint | intros; apply change_ret, only_keys_refl]).
  destruct (data_user context); [| apply change_ret, only_keys_refl].
  apply (change_bind _ (only_keys_trans _)
           (getOrSetCache _ (PetitionsIndex.list_loader _) (5 * 60))
           (fun petitions => ret (createCachedResponse petitions _ _ (5 * 60) (clock w))));
    [apply getOrSetCache_footprint | intros; apply change_ret, only_keys_refl].
Qed.

(** The footprint of the handlers in the cache store, whatever the store
    does (any fault schedule, bound or not).  A read writes at most the
    entry of its own cache key.  A create, update or delete adds and changes
    nothing: an entry is as it was or it is gone, and it can be gone only
    under [petitions:] (and, for an update or a delete, [petition:]).  So no
    request ever touches an entry outside the two namespaces. *)
Theorem handler_cache_footprint (context : EventContext) (w : World D) (k : string) :
  let before := cache_entries w !! k in
  let after_one := cache_entries (snd (PetitionById.onRequest context w)) !! k in
  let after_all := cache_entries (snd (PetitionsIndex.onRequest context w)) !! k in
  (method (request context) = "GET" ->
   (k <> generateCacheKey (request context) "petition" -> after_one = before)
   /\ (k <> generateCacheKey (request context) "petitions" -> after_all = before))
  /\ (method (request context) <> "GET" ->
      (after_one = before \/ (after_one = None /\ petition_key k))
      /\ (after_all = before
          \/ (after_all = None /\ Js.startsWith "petitions:" k = true)))
  /\ (~ petition_key k -> after_one = before /\ after_all = before).
Proof.
  cbv zeta.
  assert (Hone_get : method (request context) = "GET" ->
            cache_change (only_keys (eq (generateCacheKey (request context) "petition")))
              (PetitionById.onRequest context)).
  { intros Hget. unfold PetitionById.onRequest, handleCORS. rewrite Hget.
    change (String.eqb "GET" "OPTIONS") with false. cbv iota.
    apply change_try_catch;
      [apply only_keys_trans | | intros; apply change_ret, only_keys_refl].
    destruct (ParseInt.parseInt _ _) as [petitionId |];
      [| apply change_ret, only_keys_refl].
    change (String.eqb "GET" "GET") with true. cbv iota. apply get_footprint. }
  assert (Hall_get : method (request context) = "GET" ->
            cache_change (only_keys (eq (generateCacheKey (request context) "petitions")))
              (PetitionsIndex.onRequest context)).
  { intros Hget. unfold PetitionsIndex.onRequest, handleCORS. rewrite Hget.
    change (String.eqb "GET" "OPTIONS") with false.
    change (String.eqb "GET" "POST") with false.
    change (String.eqb "GET" "GET") with true. cbv iota.
    apply change_try_catch;
      [apply only_keys_trans | | intros; apply change_ret, only_keys_refl].
    apply list_footprint. }
  assert (Hone_other : method (request context) <> "GET" ->
            cache_change (removed_in petition_key) (PetitionById.onRequest context)).
  { intros Hget. apply String.eqb_neq in Hget.
    unfold PetitionById.onRequest.
    destruct (handleCORS _ _); [apply change_ret, removed_in_refl |].
    apply change_try_catch;
      [apply removed_in_trans | | intros; apply change_ret, removed_in_refl].
    destruct (ParseInt.parseInt _ _) as [petitionId |];
      [| apply change_ret, removed_in_refl].
    rewrite Hget.
    destruct (String.eqb _ "PUT"); [apply put_footprint |].
    destruct (String.eqb _ "DELETE"); [apply delete_footprint |].
    apply change_ret, removed_in_refl. }
  assert (Hall_other : method (request context) <> "GET" ->
            cache_change (removed_in (fun k => Js.startsWith "petitions:" k = true))
              (PetitionsIndex.onRequest context)).
  { intros Hget. apply String.eqb_neq in Hget.
    unfold PetitionsIndex.onRequest.
    destruct (handleCORS _ _); [apply change_ret, removed_in_refl |].
    apply change_try_catch;
      [apply removed_in_trans | | intros; apply change_ret, removed_in_refl].
    destruct (String.eqb _ "POST").
    { destruct (data_user context) as [user |];
        [apply post_footprint | apply change_ret, removed_in_refl]. }
    rewrite Hget. apply change_ret, removed_in_refl. }
  split; [| split].
  - intros Hget. split; intros Hk.
    + destruct (Hone_get Hget w k) as [E | E]; [exact E | congruence].
    + destruct (Hall_get Hget w k) as [E | E]; [exact E | congruence].
  - intros Hget. split.
    + exact (Hone_other Hget w k).
    + exact (Hall_other Hget w k).
  - intros Houtside.
    destruct (String.eqb_spec (method (request context)) "GET") as [Hget | Hget]; split.
    + destruct (Hone_get Hget w k) as [E | <-]; [exact E |].
      exfalso. apply Houtside. right.
      exact (generateCacheKey_prefix (request context) "petition").
    + destruct (Hall_get Hget w k) as [E | <-]; [exact E |].
      exfalso. apply Houtside. left.
      exact (generateCacheKey_prefix (request context) "petitions").
    + destruct (Hone_other Hget w k) as [E | [_ Hk]]; [exact E | contradiction].
    + destruct (Hall_other Hget w k) as [E | [_ Hk]]; [exact E |].
      exfalso. apply Houtside. now left.
Qed.

End HandlerFootprint.

(** ** [JSON.parse] reads back what [JSON.stringify] wrote *)

Lemma parse_digits_uint (d : Decimal.uint) (acc : Z) :
  ParseInt.parse_digits 10 (NilEmpty.string_of_uint d) (Some acc) = Some (uint_value d acc).
Proof.
  revert acc. induction d; intros acc; [reflexivity | ..]; cbn; apply IHd.
Qed.

Lemma uint_value_of_uint_acc (d : Decimal.uint) (acc : positive) :
  Zpos (Pos.of_uint_acc d acc) = uint_value d (Zpos acc).
Proof.
  revert acc. induction d; intros acc; [reflexivity | ..]; cbn [Pos.of_uint_acc uint_value];
    rewrite IHd; f_equal; lia.
Qed.

Lemma uint_value_of_uint (d : Decimal.uint) : Z.of_N (Pos.of_uint d) = uint_value d 0.
Proof.
  induction d; [reflexivity | exact IHd | ..];
    cbn [Pos.of_uint uint_value Z.of_N]; rewrite uint_value_of_uint_acc; reflexivity.
Qed.

Lemma uint_value_to_uint (p : positive) : uint_value (Pos.to_uint p) 0 = Zpos p.
Proof. now rewrite <- uint_value_of_uint, DecimalPos.Unsigned.of_to. Qed.

Lemma take_digits_uint (d : Decimal.uint) (rest : string) :
  number_end rest = true ->
  JSON.take_digits (NilEmpty.string_of_uint d +:+ rest) = (NilEmpty.string_of_uint d, rest).
Proof.
  intros Hend. induction d; cbn [NilEmpty.string_of_uint];
    [| match goal with
       | |- context [String ?c ?s +:+ rest] =>
           change (String c s +:+ rest) with (String c (s +:+ rest))
       end;
       cbn; rewrite IHd; reflexivity ..].
  change (JSON.take_digits rest = (EmptyString, rest)).
  destruct rest as [| c rest]; [reflexivity |]. simpl in *.
  destruct (JSON.is_digit c); [discriminate | reflexivity].
Qed.

(** The numeral of a positive number is not empty and has no leading zero. *)
Lemma nzhead_head (d : Decimal.uint) :
  match Decimal.nzhead d with Decimal.D0 _ => False | _ => True end.
Proof. induction d; simpl; auto. Qed.

Lemma to_uint_head (p : positive) :
  match Pos.to_uint p with Decimal.Nil | Decimal.D0 _ => False | _ => True end.
Proof.
  pose proof (DecimalPos.Unsigned.to_of (Pos.to_uint p)) as Hnorm.
  rewrite DecimalPos.Unsigned.of_to in Hnorm. simpl in Hnorm.
  pose proof (DecimalPos.Unsigned.to_uint_nonzero p) as Hnz.
  pose proof (nzhead_head (Pos.to_uint p)) as Hhead.
  unfold Decimal.unorm in Hnorm.
  destruct (Decimal.nzhead (Pos.to_uint p)) eqn:E; rewrite Hnorm in *; try exact I;
    try contradiction.
Qed.

Lemma number_end_continues (rest : string) :
  number_end rest = true ->
  match rest with
  | String "." _ | String "e" _ | String "E" _ => true
  | _ => false
  end = false.
Proof.
  destruct rest as [| c rest]; [reflexivity |].
  destruct c as [[] [] [] [] [] [] [] []]; try reflexivity; intros Hend;
    vm_compute in Hend; discriminate Hend.
Qed.

Lemma parse_number_signed (negative : bool) (d : Decimal.uint) (rest : string) :
  match d with
  | Decimal.Nil => False
  | Decimal.D0 Decimal.Nil => True
  | Decimal.D0 _ => False
  | _ => True
  end ->
  number_end rest = true ->
  JSON.parse_number
    ((if negative then String "-" (NilEmpty.string_of_uint d)
      else NilEmpty.string_of_uint d) +:+ rest)
  = Some ((if negative then -1 else 1) * uint_value d 0, rest).
Proof.
  intros Hhead Hend. unfold JSON.parse_number.
  pose proof (take_digits_uint d rest Hend) as Htake.
  pose proof (number_end_continues rest Hend) as Hcontinues.
  destruct negative;
    [change (String "-" (NilEmpty.string_of_uint d) +:+ rest)
       with (String "-" (NilEmpty.string_of_uint d +:+ rest)) |];
    (destruct d as [| [] | d | d | d | d | d | d | d | d | d]; try contradiction;
     cbn [NilEmpty.string_of_uint] in *;
     match goal with
     | |- context [String ?c ?s +:+ rest] =>
         change (String c s +:+ rest) with (String c (s +:+ rest)) in *
     end;
     cbv iota beta; rewrite Htake; cbv iota beta; rewrite Hcontinues;
     cbn [andb negb ParseInt.parse_digits];
     match goal with
     | |- context [ParseInt.digit_value ?c] =>
         let v := eval vm_compute in (ParseInt.digit_value c) in
         change (ParseInt.digit_value c) with v
     end;
     cbv iota beta;
     match goal with |- context [?a <? 10] => change (a <? 10) with true end;
     cbv iota; rewrite ?parse_digits_uint; reflexivity).
Qed.

Lemma parse_number_toString (z : Z) (rest : string) :
  number_end rest = true ->
  JSON.parse_number (Js.number_toString z +:+ rest) = Some (z, rest).
Proof.
  intros Hend. unfold Js.number_toString.
  destruct z as [| p | p]; cbn [Z.to_int NilZero.string_of_int].
  - exact (parse_number_signed false (Decimal.D0 Decimal.Nil) rest I Hend).
  - pose proof (to_uint_head p) as Hhead. pose proof (uint_value_to_uint p) as Hvalue.
    unfold NilZero.string_of_uint.
    destruct (Pos.to_uint p) eqn:E; try contradiction; rewrite <- E in *;
      rewrite (parse_number_signed false) by (rewrite ?E; auto);
      rewrite Hvalue; reflexivity.
  - pose proof (to_uint_head p) as Hhead. pose proof (uint_value_to_uint p) as Hvalue.
    unfold NilZero.string_of_uint.
    destruct (Pos.to_uint p) eqn:E; try contradiction; rewrite <- E in *;
      rewrite (parse_number_signed true) by (rewrite ?E; auto);
      rewrite Hvalue; reflexivity.
Qed.

Lemma parse_string_escape (c : ascii) (text : string) :
  JSON.parse_string_body (JSON.escape c +:+ text)
  = match JSON.parse_string_body text with
    | Some (body, rest) => Some (String c body, rest)
    | None => None
    end.
Proof.
  destruct c as [[] [] [] [] [] [] [] []]; reflexivity.
Qed.

Lemma parse_string_quoted (s rest : string) :
  JSON.parse_string_body (JSON.escape_all s +:+ String JSON.dquote rest) = Some (s, rest).
Proof.
  induction s as [| c s IH]; [reflexivity |].
  cbn [JSON.escape_all]. rewrite string_app_assoc, parse_string_escape, IH. reflexivity.
Qed.

Lemma json_nested_ind (P : json -> Prop) :
  P JNull -> (forall b, P (JBool b)) -> (forall z, P (JNum z)) -> (forall s, P (JStr s)) ->
  (forall items, Forall P items -> P (JArr items)) ->
  (forall fields, Forall (fun kv => P (snd kv)) fields -> P (JObj fields)) ->
  forall v, P v.
Proof.
  intros Hnull Hbool Hnum Hstr Harr Hobj. fix IH 1.
  intros [| b | z | s | items | fields];
    [exact Hnull | apply Hbool | apply Hnum | apply Hstr | |].
  - apply Harr. induction items as [| x rest IHrest]; constructor; [apply IH | exact IHrest].
  - apply Hobj. induction fields as [| [k x] rest IHrest]; constructor;
      [apply IH | exact IHrest].
Qed.

Lemma substring_all (s : string) : String.substring 0 (String.length s) s = s.
Proof. induction s as [| c s IH]; [reflexivity |]. simpl. now rewrite IH. Qed.

Lemma number_toString_head (z : Z) :
  exists c s, Js.number_toString z = String c s /\ numeral_head c = true.
Proof.
  unfold Js.number_toString. destruct z as [| p | p]; cbn [Z.to_int NilZero.string_of_int].
  - now exists "0"%char, EmptyString.
  - pose proof (to_uint_head p) as Hhead. unfold NilZero.string_of_uint.
    destruct (Pos.to_uint p); try contradiction; cbn [NilEmpty.string_of_uint];
      eexists _, _; split; reflexivity.
  - eexists _, _; split; reflexivity.
Qed.

Lemma stringify_head (v : json) :
  exists c s, JSON.stringify v = String c s /\ value_head c = true.
Proof.
  destruct v as [| [] | z | s | items | fields]; cbn [JSON.stringify];
    try (eexists _, _; split; reflexivity).
  destruct (number_toString_head z) as (c & s & -> & Hc). exists c, s.
  split; [reflexivity |]. unfold value_head. now rewrite Hc.
Qed.

Lemma parse_value_numeral (c : ascii) (s : string) (fuel : nat) :
  numeral_head c = true ->
  JSON.parse_value (S fuel) (String c s)
  = match JSON.parse_number (String c s) with
    | Some (z, rest) => Some (JNum z, rest)
    | None => None
    end.
Proof.
  destruct c as [[] [] [] [] [] [] [] []]; intros Hc; vm_compute in Hc;
    first [discriminate Hc | reflexivity].
Qed.

Lemma parse_value_array (c : ascii) (s : string) (fuel : nat) :
  value_head c = true ->
  JSON.parse_value (S fuel) (String "[" (String c s))
  = match JSON.parse_elements fuel (String c s) with
    | Some (items, rest) => Some (JArr items, rest)
    | None => None
    end.
Proof.
  destruct c as [[] [] [] [] [] [] [] []]; intros Hc; vm_compute in Hc;
    first [discriminate Hc | reflexivity].
Qed.

Lemma parse_elements_S (fuel : nat) (s : string) :
  JSON.parse_elements (S fuel) s
  = match JSON.parse_value fuel s with
    | Some (v, rest) =>
        match JSON.skip_ws rest with
        | String "," rest' =>
            match JSON.parse_elements fuel rest' with
            | Some (vs, rest'') => Some (v :: vs, rest'')
            | None => None
            end
        | String "]" rest' => Some ([v], rest')
        | _ => None
        end
    | None => None
    end.
Proof. reflexivity. Qed.

Lemma parse_members_quoted (fuel : nat) (s : string) :
  JSON.parse_members (S fuel) (String JSON.dquote s)
  = match JSON.parse_string_body s with
    | Some (k, rest) =>
        match JSON.skip_ws rest with
        | String ":" rest' =>
            match JSON.parse_value fuel rest' with
            | Some (v, rest'') =>
                match JSON.skip_ws rest'' with
                | String "," rest3 =>
                    match JSON.parse_members fuel rest3 with
                    | Some (fs, rest4) => Some ((k, v) :: fs, rest4)
                    | None => None
                    end
                | String "}" rest3 => Some ([(k, v)], rest3)
                | _ => None
                end
            | None => None
            end
        | _ => None
        end
    | None => None
    end.
Proof. reflexivity. Qed.

Lemma parse_elements_round (items : list json) :
  Forall round_trips items -> items <> [] ->
  forall fuel rest,
    (fold_right (fun x acc => S (Nat.max (parse_fuel x) acc)) O items <= fuel)%nat ->
    JSON.parse_elements fuel (Js.join "," (map JSON.stringify items) +:+ String "]" rest)
    = Some (items, rest).
Proof.
  induction 1 as [| x items Hx Hitems IH]; [contradiction |]. intros _ fuel rest Hfuel.
  cbn [fold_right] in Hfuel. destruct fuel as [| fuel]; [lia |].
  rewrite parse_elements_S. destruct items as [| y items].
  - cbn [map Js.join]. rewrite (Hx fuel (String "]" rest)) by (reflexivity || lia).
    reflexivity.
  - change (Js.join "," (map JSON.stringify (x :: y :: items)))
      with (JSON.stringify x +:+ "," +:+ Js.join "," (map JSON.stringify (y :: items))).
    rewrite !string_app_assoc.
    change ("," +:+ ?t) with (String "," t).
    rewrite (Hx fuel) by (reflexivity || lia).
    change (JSON.skip_ws (String "," ?t)) with (String "," t). cbv iota.
    rewrite IH by (discriminate || lia). reflexivity.
Qed.

Lemma parse_members_round (fields : list (string * json)) :
  Forall (fun kv => round_trips (snd kv)) fields -> fields <> [] ->
  forall fuel rest,
    (fold_right (fun kv acc => S (Nat.max (let '(_, x) := kv in parse_fuel x) acc))
       O fields <= fuel)%nat ->
    JSON.parse_members fuel
      (Js.join ","
         (map (fun kv => let '(k, v) := kv in JSON.quote k +:+ ":" +:+ JSON.stringify v)
              fields) +:+ String "}" rest)
    = Some (fields, rest).
Proof.
  induction 1 as [| [k x] fields Hx Hfields IH]; [contradiction |].
  intros _ fuel rest Hfuel.
  cbn [fold_right] in Hfuel. destruct fuel as [| fuel]; [lia |]. simpl in Hx.
  destruct fields as [| [k' y] fields].
  - cbn [map Js.join]. unfold JSON.quote.
    repeat first [ rewrite string_app_assoc
                 | progress change (String ?c ?a +:+ ?b) with (String c (a +:+ b))
                 | progress change (EmptyString +:+ ?b) with b ].
    rewrite parse_members_quoted, parse_string_quoted.
    change (JSON.skip_ws (String ":" ?t)) with (String ":" t). cbv iota.
    rewrite (Hx fuel (String "}" rest)) by (reflexivity || lia).
    reflexivity.
  - change (Js.join ","
              (map (fun kv => let '(k, v) := kv in
                              JSON.quote k +:+ ":" +:+ JSON.stringify v)
                   ((k, x) :: (k', y) :: fields)))
      with ((JSON.quote k +:+ ":" +:+ JSON.stringify x) +:+ "," +:+
            Js.join ","
              (map (fun kv => let '(k, v) := kv in
                              JSON.quote k +:+ ":" +:+ JSON.stringify v)
                   ((k', y) :: fields))).
    unfold JSON.quote at 1.
    repeat first [ rewrite string_app_assoc
                 | progress change (String ?c ?a +:+ ?b) with (String c (a +:+ b))
                 | progress change (EmptyString +:+ ?b) with b ].
    rewrite parse_members_quoted, parse_string_quoted.
    change (JSON.skip_ws (String ":" ?t)) with (String ":" t). cbv iota.
    rewrite (Hx fuel) by (reflexivity || lia).
    change (JSON.skip_ws (String "," ?t)) with (String "," t). cbv iota.
    rewrite IH by (discriminate || lia). reflexivity.
Qed.

Lemma parse_value_quoted (fuel : nat) (s : string) :
  JSON.parse_value (S fuel) (String JSON.dquote s)
  = match JSON.parse_string_body s with
    | Some (body, rest) => Some (JStr body, rest)
    | None => None
    end.
Proof. reflexivity. Qed.

Lemma parse_value_object (fuel : nat) (s : string) :
  JSON.parse_value (S fuel) (String "{" (String JSON.dquote s))
  = match JSON.parse_members fuel (String JSON.dquote s) with
    | Some (fields, rest) => Some (JObj fields, rest)
    | None => None
    end.
Proof. reflexivity. Qed.

Lemma substring_append (p rest : string) :
  String.substring (String.length p) (String.length rest) (p +:+ rest) = rest.
Proof.
  induction p as [| c p IH]; [apply substring_all |].
  change (String c p +:+ rest) with (String c (p +:+ rest)). exact IH.
Qed.

Lemma strip_prefix_append (p rest : string) : JSON.strip_prefix p (p +:+ rest) = Some rest.
Proof.
  unfold JSON.strip_prefix. rewrite prefix_append, length_append.
  replace (String.length p + String.length rest - String.length p)%nat
    with (String.length rest) by lia.
  now rewrite substring_append.
Qed.

Lemma parse_value_keyword (c : ascii) (s : string) (fuel : nat) :
  c = "n"%char \/ c = "t"%char \/ c = "f"%char ->
  JSON.parse_value (S fuel) (String c s)
  = match JSON.strip_prefix "null" (String c s), JSON.strip_prefix "true" (String c s),
          JSON.strip_prefix "false" (String c s) with
    | Some rest, _, _ => Some (JNull, rest)
    | _, Some rest, _ => Some (JBool true, rest)
    | _, _, Some rest => Some (JBool false, rest)
    | None, None, None =>
        match JSON.parse_number (String c s) with
        | Some (z, rest) => Some (JNum z, rest)
        | None => None
        end
    end.
Proof. intros [-> | [-> | ->]]; reflexivity. Qed.

Lemma parse_value_literal (fuel : nat) (rest : string) :
  JSON.parse_value (S fuel) ("null" +:+ rest) = Some (JNull, rest)
  /\ JSON.parse_value (S fuel) ("true" +:+ rest) = Some (JBool true, rest)
  /\ JSON.parse_value (S fuel) ("false" +:+ rest) = Some (JBool false, rest).
Proof.
  pose proof (strip_prefix_append "null" rest) as Hnull.
  pose proof (strip_prefix_append "true" rest) as Htrue.
  pose proof (strip_prefix_append "false" rest) as Hfalse.
  change ("null" +:+ rest) with (String "n" ("ull" +:+ rest)) in *.
  change ("true" +:+ rest) with (String "t" ("rue" +:+ rest)) in *.
  change ("false" +:+ rest) with (String "f" ("alse" +:+ rest)) in *.
  rewrite !parse_value_keyword by auto. rewrite Hnull, Htrue, Hfalse.
  repeat split; reflexivity.
Qed.

Lemma join_head (sep x : string) (xs : list string) (c : ascii) (s : string) :
  x = String c s -> exists t, Js.join sep (x :: xs) = String c t.
Proof.
  intros ->. destruct xs as [| y ys]; [now exists s |].
  now exists (s +:+ sep +:+ Js.join sep (y :: ys)).
Qed.

(** [JSON.parse] reads back what [JSON.stringify] wrote. *)
Lemma parse_value_stringify (v : json) : round_trips v.
Proof.
  induction v as [| b | z | s | items IH | fields IH] using json_nested_ind;
    intros fuel rest Hfuel Hend;
    (destruct fuel as [| fuel]; [cbn [parse_fuel] in Hfuel; lia |]).
  - exact (proj1 (parse_value_literal fuel rest)).
  - destruct (parse_value_literal fuel rest) as (_ & Et & Ef).
    destruct b; [exact Et | exact Ef].
  - cbn [JSON.stringify].
    destruct (number_toString_head z) as (c & s & E & Hc).
    pose proof (parse_number_toString z rest Hend) as Hnumber.
    rewrite E in *. change (String c s +:+ rest) with (String c (s +:+ rest)) in *.
    rewrite parse_value_numeral by exact Hc. now rewrite Hnumber.
  - cbn [JSON.stringify]. unfold JSON.quote.
    repeat first [ rewrite string_app_assoc
                 | progress change (String ?c ?a +:+ ?b) with (String c (a +:+ b))
                 | progress change (EmptyString +:+ ?b) with b ].
    now rewrite parse_value_quoted, parse_string_quoted.
  - cbn [JSON.stringify parse_fuel] in *.
    destruct items as [| x items]; [reflexivity |].
    pose proof (parse_elements_round (x :: items) IH ltac:(discriminate) fuel rest
                  ltac:(lia)) as Helements.
    destruct (stringify_head x) as (c & s & E & Hc).
    destruct (join_head "," (JSON.stringify x) (map JSON.stringify items) c s E) as (t & Et).
    cbn [map] in *. rewrite Et in *. rewrite !string_app_assoc.
    change ("[" +:+ ?a) with (String "[" a). change ("]" +:+ rest) with (String "]" rest).
    change (String c t +:+ ?b) with (String c (t +:+ b)) in *.
    rewrite parse_value_array by exact Hc. now rewrite Helements.
  - cbn [JSON.stringify parse_fuel] in *.
    destruct fields as [| [k x] fields]; [reflexivity |].
    pose proof (parse_members_round ((k, x) :: fields) IH ltac:(discriminate) fuel rest
                  ltac:(lia)) as Hmembers.
    destruct (join_head "," (JSON.quote k +:+ ":" +:+ JSON.stringify x)
                (map (fun kv => let '(k, v) := kv in
                                JSON.quote k +:+ ":" +:+ JSON.stringify v) fields)
                JSON.dquote
                ((JSON.escape_all k +:+ String JSON.dquote EmptyString)
                 +:+ ":" +:+ JSON.stringify x) eq_refl) as (t & Et).
    cbn [map] in *. rewrite Et in *. rewrite !string_app_assoc.
    change ("{" +:+ ?a) with (String "{" a). change ("}" +:+ rest) with (String "}" rest).
    change (String JSON.dquote t +:+ ?b) with (String JSON.dquote (t +:+ b)) in *.
    rewrite parse_value_object. now rewrite Hmembers.
Qed.

Lemma string_app_nil_r (s : string) : s +:+ EmptyString = s.
Proof.
  induction s as [| c s IH]; [reflexivity |].
  change (String c (s +:+ EmptyString) = String c s). now rewrite IH.
Qed.

Lemma join_fuel {A} (f : A -> nat) (g : A -> string) (items : list A) :
  Forall (fun x => (f x <= 2 * String.length (g x))%nat) items ->
  (fold_right (fun x acc => S (Nat.max (f x) acc)) O items
   <= 2 * String.length (Js.join "," (map g items)) + 1)%nat.
Proof.
  induction 1 as [| x items Hx Hitems IH]; [simpl; lia |].
  cbn [fold_right map]. destruct items as [| y items].
  - cbn [fold_right map Js.join]. lia.
  - change (Js.join "," (g x :: map g (y :: items)))
      with (g x +:+ "," +:+ Js.join "," (map g (y :: items))).
    rewrite !length_append. change (String.length ",") with 1%nat.
    set (J := Js.join "," (map g (y :: items))) in *.
    set (F := fold_right _ _ (y :: items)) in *. lia.
Qed.

Lemma parse_fuel_bound (v : json) :
  (1 <= String.length (JSON.stringify v))%nat
  /\ (parse_fuel v <= 2 * String.length (JSON.stringify v))%nat.
Proof.
  induction v as [| b | z | s | items IH | fields IH] using json_nested_ind.
  - simpl. lia.
  - destruct b; simpl; lia.
  - destruct (number_toString_head z) as (c & s & E & _).
    cbn [JSON.stringify parse_fuel]. rewrite E. simpl. lia.
  - cbn [JSON.stringify parse_fuel]. unfold JSON.quote. simpl. lia.
  - cbn [JSON.stringify parse_fuel]. rewrite !length_append. simpl String.length.
    pose proof (join_fuel parse_fuel JSON.stringify items) as Hjoin.
    assert (Hitems : Forall (fun x => (parse_fuel x <= 2 * String.length (JSON.stringify x))%nat)
                       items).
    { eapply Forall_impl; [exact IH |]. intros x Hx. apply Hx. }
    specialize (Hjoin Hitems). lia.
  - cbn [JSON.stringify parse_fuel]. rewrite !length_append. simpl String.length.
    pose proof (join_fuel (fun kv : string * json => let '(_, x) := kv in parse_fuel x)
                  (fun kv : string * json =>
                     let '(k, v) := kv in JSON.quote k +:+ ":" +:+ JSON.stringify v)
                  fields) as Hjoin.
    assert (Hfields :
              Forall (fun kv : string * json =>
                        ((let '(_, x) := kv in parse_fuel x)
                         <= 2 * String.length
                                  (let '(k, v) := kv in
                                   JSON.quote k +:+ ":" +:+ JSON.stringify v))%nat)
                fields).
    { eapply Forall_impl; [exact IH |]. intros [k x] [_ Hx]. simpl in Hx.
      rewrite !length_append. lia. }
    specialize (Hjoin Hfields). lia.
Qed.

(** [JSON.parse(JSON.stringify(v))] is [v]. *)
Lemma parse_stringify (v : json) : JSON.parse (JSON.stringify v) = Some v.
Proof.
  unfold JSON.parse.
  pose proof (parse_value_stringify v (S (2 * String.length (JSON.stringify v)))
                EmptyString) as Hround.
  rewrite string_app_nil_r in Hround.
  rewrite Hround; [reflexivity | | reflexivity].
  destruct (parse_fuel_bound v). lia.
Qed.

(** A write to a bound store that takes the call and a payload that fits. *)
Lemma setCachedData_stored {D} (key : string) (data : json) (ttl : Z) (w : World D)
    (entries : gmap string KVEntry) (faults : list bool) :
  env_CACHE w = Some {| kv_entries := entries; kv_faults := false :: faults |}
  \/ (env_CACHE w = Some {| kv_entries := entries; kv_faults := [] |} /\ faults = []) ->
  JSON.blob_size (JSON.stringify data) <= cache_size_limit ->
  setCachedData key data ttl w
  = (Ok tt,
     set_CACHE
       (Some {| kv_entries :=
                  <[key := {| kv_value := JSON.stringify data;
                              kv_expiration := epoch_seconds (clock w) + ttl |}]> entries;
                kv_faults := faults |})
       (log_event (KvPut key (JSON.stringify data) ttl) w)).
Proof.
  intros Hbound Hfits. rewrite (setCachedData_fits key data ttl w Hfits).
  unfold try_catch, kv_put, kv_call.
  destruct Hbound as [-> | [-> ->]]; reflexivity.
Qed.

(** A read of a live entry of a bound store that takes the call. *)
Lemma getCachedData_live {D} (key : string) (w : World D)
    (entries : gmap string KVEntry) (faults : list bool) (e : KVEntry) (v : json) :
  env_CACHE w = Some {| kv_entries := entries; kv_faults := false :: faults |}
  \/ (env_CACHE w = Some {| kv_entries := entries; kv_faults := [] |} /\ faults = []) ->
  entries !! key = Some e ->
  kv_live (epoch_seconds (clock w)) e = true ->
  JSON.parse (kv_value e) = Some v ->
  getCachedData key w
  = (Ok v,
     set_CACHE (Some {| kv_entries := entries; kv_faults := faults |})
       (log_event (KvGet key) w)).
Proof.
  intros Hbound He Hlive Hparse. unfold getCachedData, try_catch, kv_get, kv_call.
  destruct Hbound as [-> | [-> ->]]; cbn; rewrite He, Hlive, Hparse; reflexivity.
Qed.

(** What was written is what is read: after [setCachedData] has stored a
    value, [getCachedData] of the same key returns that value, for every
    JSON value, as long as the entry has not expired. *)
Theorem cache_read_after_write {D} (key : string) (data : json) (ttl : Z) (w : World D)
    (kv : KVNamespace) :
  env_CACHE w = Some kv ->
  kv_fault_at 0 w = false ->
  kv_fault_at 1 w = false ->
  JSON.blob_size (JSON.stringify data) <= cache_size_limit ->
  0 < ttl ->
  fst (getCachedData key (snd (setCachedData key data ttl w))) = Ok data.
Proof.
  intros Hbound Hput Hget Hfits Httl.
  unfold kv_fault_at in Hput, Hget. rewrite Hbound in Hput, Hget.
  destruct kv as [entries faults]. simpl in Hput, Hget.
  assert (Hlive : kv_live (epoch_seconds (clock w))
                    {| kv_value := JSON.stringify data;
                       kv_expiration := epoch_seconds (clock w) + ttl |} = true).
  { unfold kv_live. simpl. apply Z.ltb_lt. lia. }
  destruct faults as [| f0 faults].
  - rewrite (setCachedData_stored key data ttl w entries [] (or_intror (conj Hbound eq_refl))
               Hfits). cbn [snd].
    erewrite getCachedData_live;
      [reflexivity | right; split; reflexivity | apply lookup_insert_eq | exact Hlive
      | apply parse_stringify].
  - simpl in Hput. subst f0.
    rewrite (setCachedData_stored key data ttl w entries faults (or_introl Hbound) Hfits).
    cbn [snd]. destruct faults as [| f1 faults].
    + erewrite getCachedData_live;
        [reflexivity | right; split; reflexivity | apply lookup_insert_eq | exact Hlive
        | apply parse_stringify].
    + simpl in Hget. subst f1.
      erewrite getCachedData_live;
        [reflexivity | left; reflexivity | apply lookup_insert_eq | exact Hlive
        | apply parse_stringify].
Qed.

(** The world after a miss whose result is stored. *)
Lemma getOrSetCache_populates {D}
    (key : string) (loader : Loader D) (ttl : Z) (w : World D)
    (entries : gmap string KVEntry) (data : json) (d' : D) :
  env_CACHE w = Some {| kv_entries := entries; kv_faults := [] |} ->
  uncached key w ->
  loader (env_DB w) = (Ok data, d') ->
  JSON.blob_size (JSON.stringify data) <= cache_size_limit ->
  exists w1,
    getOrSetCache key loader ttl w = (Ok data, w1)
    /\ clock w1 = clock w
    /\ env_DB w1 = d'
    /\ loader_calls w1 = S (loader_calls w)
    /\ env_CACHE w1
       = Some {| kv_entries :=
                   <[key := {| kv_value := JSON.stringify data;
                               kv_expiration := epoch_seconds (clock w) + ttl |}]> entries;
                 kv_faults := [] |}.
Proof.
  intros Hbound Hmiss Hload Hfits.
  pose proof (getCachedData_uncached key w Hmiss) as Hnull.
  destruct (getCachedData_bound key w _ Hbound) as (v & Eget).
  rewrite Eget in Hnull. simpl in Hnull. injection Hnull as ->.
  unfold getOrSetCache, bind. rewrite Eget. cbn [kv_entries kv_faults tail].
  unfold run_loader. cbn [env_DB set_CACHE log_event]. rewrite Hload.
  unfold try_catch.
  erewrite (setCachedData_stored key data ttl _ entries []);
    [| right; split; reflexivity | exact Hfits].
  eexists. split; [reflexivity |]. cbn.
  repeat split. unfold loader_calls. cbn. rewrite !count_occ_app. simpl. lia.
Qed.


Lemma obj_get_set_other (name k v : string) (h : Headers) :
  name <> k -> obj_get name (obj_set k v h) = obj_get name h.
Proof.
  intros Hne. unfold obj_get. induction h as [| [k' v'] rest IH]; simpl.
  - destruct (String.eqb_spec k name) as [E | _]; [congruence | reflexivity].
  - destruct (String.eqb_spec k' k) as [-> | Hk]; simpl.
    + destruct (String.eqb_spec k name) as [E | _]; [congruence | reflexivity].
    + destruct (String.eqb_spec k' name); [reflexivity | exact IH].
Qed.

Lemma obj_get_set_same (k v : string) (h : Headers) :
  obj_get k (obj_set k v h) = Some v.
Proof.
  unfold obj_get. induction h as [| [k' v'] rest IH]; simpl.
  - now rewrite String.eqb_refl.
  - destruct (String.eqb_spec k' k) as [-> | Hk]; simpl.
    + now rewrite String.eqb_refl.
    + destruct (String.eqb_spec k' k); [contradiction | exact IH].
Qed.

(** The time of the answer shows in [Last-Modified] only. *)
Lemma createCachedResponse_date
    (data : json) (request : Request) (env : Env) (maxAge : Z) (now now' : Clock) :
  same_but_date (createCachedResponse data request env maxAge now)
                (createCachedResponse data request env maxAge now')
  /\ (status (createCachedResponse data request env maxAge now') = 200 ->
      obj_get "Last-Modified" (headers (createCachedResponse data request env maxAge now'))
      = Some (toUTCString now')).
Proof.
  unfold createCachedResponse, same_but_date.
  destruct (opt_is _ _); cbn [status body headers].
  - split; [repeat split | discriminate].
  - split.
    + repeat split. intros name Hname. unfold obj_spread. cbn [fold_left fst snd].
      rewrite (obj_get_set_other name "Last-Modified" (toUTCString now)) by exact Hname.
      rewrite (obj_get_set_other name "Last-Modified" (toUTCString now')) by exact Hname.
      reflexivity.
    + intros _. unfold obj_spread. cbn [fold_left fst snd]. apply obj_get_set_same.
Qed.

Section RepeatedRead.
Context {D : Type} `{DatabaseService D} `{Locale}.

(** A repeated read is served from the cache.  After [GET /api/petitions/{id}]
    has found the petition in the database and stored it, the same request,
    made again at any time before the entry expires, is answered from the
    cached petition without a call to the data fetcher, whatever the database
    holds by then.  The second response is the one [createCachedResponse]
    builds from the cached petition at the time of the second request: it has
    the status, the body and the headers of the first, except for
    [Last-Modified], which is the time of the second request. *)
Theorem repeated_get_is_served_from_cache
    (context : EventContext) (petitionId : Z) (w : World D) (kv : KVNamespace)
    (p : Petition) (d : D) (now : Clock) :
  method (request context) = "GET" ->
  ParseInt.parseInt (params_id context) None = Some petitionId ->
  env_CACHE w = Some kv ->
  cache_reliable w ->
  uncached (generateCacheKey (request context) "petition") w ->
  getPetitionById petitionId (env_DB w) = Ok (Some p) ->
  JSON.blob_size (JSON.stringify (Petition_to_json p)) <= cache_size_limit ->
  epoch_seconds now < epoch_seconds (clock w) + 10 * 60 ->
  let first := PetitionById.onRequest context w in
  let second := PetitionById.onRequest context (at_time now (set_DB d (snd first))) in
  fst first
  = Ok (createCachedResponse (Petition_to_json p) (request context) (env context)
          (10 * 60) (clock w))
  /\ fst second
     = Ok (createCachedResponse (Petition_to_json p) (request context) (env context)
             (10 * 60) now)
  /\ same_but_date (response_of first) (response_of second)
  /\ (status (response_of second) = 200 ->
      obj_get "Last-Modified" (headers (response_of second)) = Some (toUTCString now))
  /\ loader_calls (snd second) = loader_calls (snd first)
  /\ env_DB (snd second) = d.
Proof.
  intros Hget Hid Hbound Hreliable Hmiss Hfound Hfits Hlive. cbv zeta.
  assert (Hcors : handleCORS (request context) (env context) = None).
  { unfold handleCORS. now rewrite Hget. }
  unfold response_of, PetitionById.onRequest. rewrite Hcors, Hid, Hget.
  change (String.eqb "GET" "GET") with true. cbv iota.
  unfold PetitionById.get, try_catch, bind.
  set (key := generateCacheKey (request context) "petition") in *.
  set (loader := PetitionById.petition_loader petitionId).
  destruct kv as [entries faults]. pose proof (Hreliable _ Hbound) as Hfaults.
  simpl in Hfaults. subst faults.
  assert (Hload : loader (env_DB w) = (Ok (Petition_to_json p), env_DB w)).
  { unfold loader, PetitionById.petition_loader. now rewrite Hfound. }
  destruct (getOrSetCache_populates key loader (10 * 60) w entries _ _
              Hbound Hmiss Hload Hfits) as (w1 & E1 & Hclock & Hdb & Hcalls & Hcache).
  rewrite E1. cbn [fst snd ret].
  assert (Hhit : fst (getCachedData key (at_time now (set_DB d w1)))
                 = Ok (Petition_to_json p)).
  { erewrite getCachedData_live;
      [reflexivity | right; split; [exact Hcache | reflexivity] | apply lookup_insert_eq
      | | apply parse_stringify].
    unfold kv_live. cbn. apply Z.ltb_lt. exact Hlive. }
  destruct (getOrSetCache_hit key loader (10 * 60) (at_time now (set_DB d w1)) _ Hhit
              ltac:(discriminate)) as (Hr & Hc & Hd).
  destruct (getOrSetCache key loader (10 * 60) (at_time now (set_DB d w1))) as [r w2].
  simpl in Hr, Hc, Hd. subst r. cbn [fst snd ret clock at_time set_DB].
  destruct (createCachedResponse_date (Petition_to_json p) (request context)
              (env context) (10 * 60) (clock w) now) as [Hsame Hdate].
  repeat split; try (apply Hsame); [exact Hdate | exact Hc | exact Hd].
Qed.

End RepeatedRead.

(** Petition 1 is read twice, the second time one minute later; in between
    it is deleted from the database. *)
Lemma repeated_get_is_served_from_cache_witness :
  let w := world (Some (kv_of [] [])) in
  let context := a_context (a_request "GET" "/api/petitions/1" [] [] None) "1" None in
  let later := {| epoch_seconds := 1060;
                  toUTCString := "Wed, 01 Jan 2025 12:01:00 GMT";
                  toISOString := "2025-01-01T12:01:00.000Z" |} in
  let first := @PetitionById.onRequest MemDb MemDb_service code_unit_locale context w in
  let second :=
    @PetitionById.onRequest MemDb MemDb_service code_unit_locale context
      (at_time later (set_DB {| rows := ∅; next_id := 2 |} (snd first))) in
  same_but_date (response_of first) (response_of second)
  /\ status (response_of first) = 200
  /\ obj_get "Last-Modified" (headers (response_of first))
     = Some "Wed, 01 Jan 2025 12:00:00 GMT"
  /\ obj_get "Last-Modified" (headers (response_of second))
     = Some "Wed, 01 Jan 2025 12:01:00 GMT".
Proof.
  cbv zeta.
  set (w := world (Some (kv_of [] []))).
  set (context := a_context (a_request "GET" "/api/petitions/1" [] [] None) "1" None).
  set (later := {| epoch_seconds := 1060;
                   toUTCString := "Wed, 01 Jan 2025 12:01:00 GMT";
                   toISOString := "2025-01-01T12:01:00.000Z" |}).
  assert (Hreliable : cache_reliable w) by (intros kv [= <-]; reflexivity).
  assert (Hmiss : uncached (@generateCacheKey code_unit_locale (request context) "petition") w).
  { intros e He. vm_compute in He. discriminate He. }
  assert (Hfits : JSON.blob_size (JSON.stringify (Petition_to_json petition_1))
                  <= cache_size_limit) by (vm_compute; discriminate).
  assert (Hlive : epoch_seconds later < epoch_seconds (clock w) + 10 * 60)
    by (vm_compute; reflexivity).
  destruct (@repeated_get_is_served_from_cache MemDb MemDb_service code_unit_locale
              context 1 w (kv_of [] []) petition_1 {| rows := ∅; next_id := 2 |} later
              eq_refl eq_refl eq_refl Hreliable Hmiss eq_refl Hfits Hlive)
    as (Hfirst & Hsecond & Hsame & Hdate & _).
  assert (Hok : status (response_of
                          (@PetitionById.onRequest MemDb MemDb_service code_unit_locale
                             context w)) = 200).
  { unfold response_of. rewrite Hfirst. vm_compute. reflexivity. }
  split; [exact Hsame |]. split; [exact Hok |]. split.
  - unfold response_of. rewrite Hfirst. vm_compute. reflexivity.
  - apply Hdate. destruct Hsame as (Hstatus & _). now rewrite <- Hstatus.
Defined.

Lemma cache_read_after_write_witness :
  let w := world (Some (kv_of [] [])) in
  fst (getCachedData "k" (snd (setCachedData "k" (JArr [JNum (-7); JStr "a b"]) 60 w)))
  = Ok (JArr [JNum (-7); JStr "a b"]).
Proof.
  cbv zeta.
  apply (cache_read_after_write "k" (JArr [JNum (-7); JStr "a b"]) 60
           (world (Some (kv_of [] []))) (kv_of [] []));
    try reflexivity.
  vm_compute. discriminate.
Defined.


(** ** The bodies of the responses *)

Section ResponseBodies.
Context {D : Type} `{DatabaseService D} `{Locale}.

Lemma json_body_of (code : Z) (v : json) (hs : Headers) :
  code <> 204 -> code <> 304 ->
  json_body {| status := code; body := Some (JSON.stringify v); headers := hs |}.
Proof.
  intros H204 H304. right. exists v. simpl. auto using parse_stringify.
Qed.

Lemma cached_response_body (data : json) (request : Request) (env : Env) (maxAge : Z)
    (now : Clock) :
  json_body (createCachedResponse data request env maxAge now).
Proof.
  unfold createCachedResponse. destruct (opt_is _ _).
  - left. simpl. auto.
  - apply json_body_of; discriminate.
Qed.

(** Every body the two handlers send is well-formed JSON: a response either
    has no body, and then its status is 204 or 304, or its body is the text
    [JSON.stringify] gives for some value, which [JSON.parse] reads back as
    that value.  The errors are no exception: they are objects, never bare
    strings. *)
Theorem response_bodies_are_json (context : EventContext) (w w' : World D)
    (response : Response) :
  PetitionById.onRequest context w = (Ok response, w')
  \/ PetitionsIndex.onRequest context w = (Ok response, w') ->
  json_body response.
Proof.
  intros Hrun.
  assert (Herror : forall (e : JsValue) (code : Z),
             code <> 204 -> code <> 304 ->
             json_body (createCachedErrorResponse e (request context) (env context) code)).
  { intros e code H204 H304. now apply json_body_of. }
  assert (Hone : responds json_body (PetitionById.onRequest context)).
  { unfold PetitionById.onRequest, handleCORS.
    destruct (String.eqb _ "OPTIONS"); [apply responds_ret; left; simpl; auto |].
    apply responds_try_catch;
      [| intros e; apply responds_ret, Herror; discriminate].
    destruct (ParseInt.parseInt _ _) as [petitionId |];
      [| apply responds_ret, Herror; discriminate].
    destruct (String.eqb _ "GET").
    { intros w0 r w1 E. unfold PetitionById.get in E.
      refine (responds_bind json_body _ _ _ w0 r w1 E).
      intros petition. apply responds_ret, cached_response_body. }
    destruct (String.eqb _ "PUT").
    { unfold PetitionById.put. apply responds_bind. intros [petitionData imageFile].
      destruct (Zod.safeParse updatePetitionSchema petitionData).
      - repeat (apply responds_bind; intros ?). apply responds_ret.
        apply json_body_of; discriminate.
      - apply responds_ret. apply json_body_of; discriminate. }
    destruct (String.eqb _ "DELETE").
    { unfold PetitionById.delete. repeat (apply responds_bind; intros ?).
      apply responds_ret. apply json_body_of; discriminate. }
    apply responds_ret, Herror; discriminate. }
  assert (Hall : responds json_body (PetitionsIndex.onRequest context)).
  { unfold PetitionsIndex.onRequest, handleCORS.
    destruct (String.eqb _ "OPTIONS"); [apply responds_ret; left; simpl; auto |].
    apply responds_try_catch;
      [| intros e; apply responds_ret, Herror; discriminate].
    destruct (String.eqb _ "POST").
    { destruct (data_user context) as [user |];
        [| apply responds_ret, Herror; discriminate].
      unfold PetitionsIndex.post. apply responds_bind. intros [petitionData imageFile].
      destruct (Zod.safeParse createPetitionSchema petitionData).
      - repeat (apply responds_bind; intros ?). apply responds_ret.
        apply json_body_of; discriminate.
      - apply responds_ret. apply json_body_of; discriminate. }
    destruct (String.eqb _ "GET"); [| apply responds_ret, Herror; discriminate].
    intros w0 r w1 E. unfold PetitionsIndex.get in E.
    destruct (searchParams_get "userId" (request context)) as [[| c rest] |];
      try (refine (responds_bind json_body _ _ _ w0 r w1 E);
           intros petitions; apply responds_ret, cached_response_body).
    destruct (data_user context).
    - refine (responds_bind json_body _ _ _ w0 r w1 E).
      intros petitions. apply responds_ret, cached_response_body.
    - injection E as <- _. apply Herror; discriminate. }
  destruct Hrun as [E | E]; [exact (Hone w response w' E) | exact (Hall w response w' E)].
Qed.

End ResponseBodies.

(** The answer to a request for a petition whose id is not a number. *)
Lemma response_bodies_are_json_witness :
  json_body
    (response_of
       (@PetitionById.onRequest MemDb MemDb_service code_unit_locale
          (a_context (a_request "GET" "/api/petitions/abc" [] [] None) "abc" None)
          (world None))).
Proof.
  set (run := @PetitionById.onRequest MemDb MemDb_service code_unit_locale
                (a_context (a_request "GET" "/api/petitions/abc" [] [] None) "abc" None)
                (world None)).
  assert (E : run = (Ok (response_of run), snd run)) by (vm_compute; reflexivity).
  exact (@response_bodies_are_json MemDb MemDb_service code_unit_locale _ _ _ _
           (or_introl E)).
Defined.

(** ** Petitions sent as a multipart form *)

Lemma getStringField_fixed (formData : FormData) (fieldName s : string) :
  getStringField formData fieldName = Some s -> Js.trim s = s /\ s <> EmptyString.
Proof.
  unfold getStringField.
  destruct (formData_get fieldName formData) as [[value | f] |]; try discriminate.
  rewrite str_length_positive.
  destruct (String.eqb_spec (Js.trim value) EmptyString) as [Hblank | Hblank]; simpl;
    [discriminate |].
  intros [= <-]. split; [apply trim_idempotent | exact Hblank].
Qed.

(** The properties of the payload built from a form. *)
Lemma create_from_form_properties (formData : FormData) (user : AuthenticatedUser) :
  exists fields,
    fst (PetitionsIndex.create_from_form formData user) = JObj fields
    /\ Zod.property "title" fields
       = Some (JStr (default EmptyString (getStringField formData "title")))
    /\ Zod.property "description" fields
       = Some (JStr (default EmptyString (getStringField formData "description")))
    /\ Zod.property "type" fields
       = Some (JStr (default "national" (getStringField formData "type")))
    /\ Zod.property "location" fields = JStr <$> getStringField formData "location"
    /\ Zod.property "target_count" fields
       = JNum <$> getIntegerField formData "target_count"
    /\ Zod.property "created_by" fields = Some (JStr (user_id user)).
Proof.
  unfold PetitionsIndex.create_from_form. cbn [fst]. eexists. split; [reflexivity |].
  destruct (getStringField formData "location"),
    (getIntegerField formData "target_count"),
    (getJsonArrayField formData "category_ids"); repeat split; reflexivity.
Qed.

(** A create sent as a multipart form is validated on trimmed fields: when
    the payload built from the form passes [createPetitionSchema], the
    validated title and description are the values [getStringField] read
    (so the title has 10 to 150 characters and the description at least 100
    after trimming, which a JSON payload does not guarantee), a missing
    [type] has become [national], the location is the one of the form, the
    target count is the one of the form or 1000, and the owner is the user
    of the request. *)
Theorem multipart_create_validated
    (formData : FormData) (user : AuthenticatedUser) (data : CreateData) :
  Zod.safeParse createPetitionSchema (fst (PetitionsIndex.create_from_form formData user))
  = Zod.Success data ->
  getStringField formData "title" = Some (c_title data)
  /\ 10 <= Js.str_length (c_title data) <= 150
  /\ getStringField formData "description" = Some (c_description data)
  /\ 100 <= Js.str_length (c_description data)
  /\ c_type data = default "national" (getStringField formData "type")
  /\ c_location data = getStringField formData "location"
  /\ c_target_count data = default 1000 (getIntegerField formData "target_count")
  /\ c_created_by data = user_id user.
Proof.
  intros Hparse.
  destruct (createPetitionSchema_accepts _ _ Hparse)
    as (fields & Hfields & Ht & Hd & Hty & Hl & Hn & Hu & _).
  destruct (create_from_form_properties formData user)
    as (fields' & Hfields' & Hpt & Hpd & Hpty & Hpl & Hpn & Hpu).
  rewrite Hfields in Hfields'. injection Hfields' as <-.
  rewrite Hpt in Ht. rewrite Hpd in Hd. rewrite Hpty in Hty. rewrite Hpl in Hl.
  rewrite Hpn in Hn. rewrite Hpu in Hu.
  apply title_accepts in Ht. destruct Ht as (rawt & [= <-] & Et & Hlt).
  apply description_accepts in Hd. destruct Hd as (rawd & [= <-] & Ed & Hld).
  apply type_accepts in Hty. destruct Hty as ([= Ety] & _).
  apply location_accepts in Hl. apply string_accepts in Hu. injection Hu as Eu.
  assert (Htitle : getStringField formData "title" = Some (c_title data)
                   /\ 10 <= Js.str_length (c_title data) <= 150).
  { pose proof (getStringField_fixed formData "title") as Hfixed.
    destruct (getStringField formData "title") as [t |]; simpl in *;
      [| change (Js.str_length EmptyString) with 0 in Hlt; lia].
    destruct (Hfixed t eq_refl) as [Etrim _]. rewrite Etrim in Et. subst t. auto. }
  assert (Hdescription : getStringField formData "description" = Some (c_description data)
                         /\ 100 <= Js.str_length (c_description data)).
  { pose proof (getStringField_fixed formData "description") as Hfixed.
    destruct (getStringField formData "description") as [d |]; simpl in *;
      [| change (Js.str_length EmptyString) with 0 in Hld; lia].
    destruct (Hfixed d eq_refl) as [Etrim _]. rewrite Etrim in Ed. subst d. auto. }
  assert (Hlocation : c_location data = getStringField formData "location").
  { pose proof (getStringField_fixed formData "location") as Hfixed.
    destruct (getStringField formData "location") as [l |]; simpl in *.
    - destruct Hl as [[[=] _] | (raw & [= <-] & ->)].
      destruct (Hfixed l eq_refl) as [-> _]. reflexivity.
    - destruct Hl as [[_ ->] | (raw & [=] & _)]. reflexivity. }
  assert (Hcount : c_target_count data
                   = default 1000 (getIntegerField formData "target_count")).
  { unfold Fields.target_count, Zod.default_ in Hn.
    destruct (getIntegerField formData "target_count") as [n |]; simpl in *.
    - apply target_count_checked_accepts in Hn. destruct Hn as [[= ->] _]. reflexivity.
    - now injection Hn as <-. }
  destruct Htitle, Hdescription. repeat split; auto; lia.
Qed.


(** A form with a title and a description only. *)
Lemma multipart_create_validated_witness :
  exists data,
    Zod.safeParse createPetitionSchema
      (fst (PetitionsIndex.create_from_form
              [("title", FormString a_title); ("description", FormString a_description)]
              alice))
    = Zod.Success data
    /\ c_type data = "national"
    /\ c_created_by data = "alice".
Proof.
  assert (E : exists data,
             Zod.safeParse createPetitionSchema
               (fst (PetitionsIndex.create_from_form
                       [("title", FormString a_title);
                        ("description", FormString a_description)] alice))
             = Zod.Success data).
  { eexists. vm_compute. reflexivity. }
  destruct E as (data & E). exists data. split; [exact E |].
  destruct (multipart_create_validated _ _ _ E) as (_ & _ & _ & _ & Htype & _ & _ & Howner).
  split; [exact Htype | exact Howner].
Defined.

Lemma trimEnd_closed (s : string) (c : ascii) :
  Js.is_space c = false ->
  Js.trimEnd (s +:+ String c EmptyString) = s +:+ String c EmptyString.
Proof.
  intros Hc. induction s as [| x s IH].
  - simpl. now rewrite Hc.
  - change (String x s +:+ String c EmptyString)
      with (String x (s +:+ String c EmptyString)).
    cbn [Js.trimEnd]. rewrite IH.
    destruct s; reflexivity.
Qed.

Lemma array_items_numbers (error : option json -> string) (ids : list Z) (i : Z) :
  Zod.array_items (Zod.number error) i (map JNum ids) = (Some ids, []).
Proof.
  revert i. induction ids as [| n ids IH]; intros i; [reflexivity |].
  cbn [map Zod.array_items Zod.number]. rewrite IH. reflexivity.
Qed.

(** The categories of a multipart form come back as they were sent: when the
    field [category_ids] holds the text [JSON.stringify] gives for an array,
    [getJsonArrayField] returns that array, and when its elements are numbers
    the schema accepts it as the list of those numbers. *)
Theorem category_ids_round_trip (formData : FormData) (fieldName : string)
    (items : list json) (ids : list Z) :
  formData_get fieldName formData = Some (FormString (JSON.stringify (JArr items))) ->
  getJsonArrayField formData fieldName = Some items
  /\ (items = map JNum ids ->
      Fields.category_ids (JArr <$> getJsonArrayField formData fieldName)
      = (Some (Some ids), [])).
Proof.
  intros Hfield.
  assert (Hread : getJsonArrayField formData fieldName = Some items).
  { unfold getJsonArrayField, getStringField. rewrite Hfield.
    assert (Htrim : Js.trim (JSON.stringify (JArr items)) = JSON.stringify (JArr items)).
    { cbn [JSON.stringify]. unfold Js.trim.
      change ("[" +:+ ?t) with (String "[" t). cbn [Js.trimStart].
      change (Js.is_space "[") with false. cbv iota.
      change (String "[" (?a +:+ "]")) with (("[" +:+ a) +:+ "]").
      now apply trimEnd_closed. }
    rewrite Htrim, str_length_positive.
    replace (String.eqb (JSON.stringify (JArr items)) EmptyString) with false
      by (cbn [JSON.stringify]; reflexivity).
    cbn [negb]. now rewrite parse_stringify. }
  split; [exact Hread |]. intros ->. rewrite Hread. cbn [fmap option_fmap option_map].
  unfold Fields.category_ids, Zod.optional, Zod.array.
  now rewrite array_items_numbers.
Qed.

Lemma category_ids_round_trip_witness :
  getJsonArrayField [("category_ids", FormString "[1,2]")] "category_ids"
  = Some [JNum 1; JNum 2].
Proof.
  exact (proj1 (category_ids_round_trip [("category_ids", FormString "[1,2]")]
                  "category_ids" [JNum 1; JNum 2] [1; 2] eq_refl)).
Defined.
